(** * Bilibili view-count booster: a shallow embedding of [booster.py]

    The development follows the source file top to bottom:
    [Config] and [Statistics], the proxy filter ([filter_proxies] with its
    worker threads), the metric client ([get_video_info]) and the dispatch
    loop ([boost_view_count]).  Part I holds the definitions, Part II the
    theorems.

    Conventions.
    - Python [int] is [Z]; [//] is [Z.div] and [%] is [Z.modulo] (both round
      toward minus infinity, as in Python), with [ZeroDivisionError] written
      out where the divisor may be zero.
    - Python [float] is IEEE binary64, i.e. Rocq's primitive [float].
    - A function that may raise returns a [PyResult].
    - The network, the clock and [sleep] are an abstract [World]; every
      request threads the world through.
    - The console and the logger are a trace of structured events, most
      recent first. *)

From Stdlib Require Import ZArith List String Bool Lia Floats Uint63.
From stdpp Require Import base option list.

Local Open Scope Z_scope.

(* ================================================================== *)
(** * Part I. Definitions *)
(* ================================================================== *)

(** ** Exceptions and results *)

(** The messages of the [RuntimeError]s that the source raises. *)
Inductive ErrMsg : Type :=
  | ApiError (message : string)      (* "Bilibili API error: {message}" *)
  | FetchFailed                      (* "Failed to get video info: {e}" *)
  | ParseFailed                      (* "Failed to parse video info: {e}" *)
  | NoActiveProxies.                 (* "No active proxies found" *)

Inductive Exn : Type :=
  | RuntimeError (msg : ErrMsg)
  | KeyError (key : string)
  | ZeroDivisionError.

Inductive PyResult (A : Type) : Type :=
  | Return (a : A)
  | Raise (e : Exn).
Arguments Return {A} a.
Arguments Raise {A} e.

Definition is_raise {A} (r : PyResult A) : bool :=
  match r with Raise _ => true | Return _ => false end.

(** ** Python built-ins used by the source *)

(** [len(l)] as an [int]. *)
Definition len {A} (l : list A) : Z := Z.of_nat (length l).

(** [range(n)]: [0, 1, ..., n-1], empty when [n <= 0]. *)
Definition py_range (n : Z) : list Z := map Z.of_nat (seq 0 (Z.to_nat n)).

(** One bound of a slice: a negative index counts from the end, and the
    result is clamped to [0 .. len]. *)
Definition slice_bound (n i : Z) : Z :=
  if i <? 0 then Z.max 0 (n + i) else Z.min i n.

(** [l[start:stop]]. *)
Definition py_slice {A} (l : list A) (start stop : Z) : list A :=
  let a := slice_bound (len l) start in
  let b := slice_bound (len l) stop in
  take (Z.to_nat (b - a)) (drop (Z.to_nat a) l).

(** The binary64 number of an [int] [z] with [|z| < 2^53], where the
    conversion is exact.  Outside that range this is not Python's
    conversion (the 63-bit operand wraps), and the theorem on the value
    of the rate carries the bound. *)
Definition float_of_int (z : Z) : float :=
  if z <? 0 then PrimFloat.opp (PrimFloat.of_uint63 (Uint63.of_Z (- z)))
  else PrimFloat.of_uint63 (Uint63.of_Z z).

(** [a / b] on two [int]s, true division.  Python rounds the exact
    quotient once; for [|a|, |b| < 2^53] both operands are binary64
    numbers, so that is the IEEE quotient below.  Larger operands, for
    which Python may also raise [OverflowError], are outside the model:
    hit and proxy counts are bounded by the length of a list. *)
Definition py_truediv (a b : Z) : PyResult float :=
  if b =? 0 then Raise ZeroDivisionError
  else Return (PrimFloat.div (float_of_int a) (float_of_int b)).

(** ** Config *)

Record Config : Type := mkConfig {
  timeout : Z;
  thread_num : Z;
  round_time : Z;
  update_pbar_count : Z;
  max_proxies : Z;
  min_proxies_threshold : Z
}.

(** [Config.__init__]. *)
Definition default_config : Config :=
  {| timeout := 3; thread_num := 75; round_time := 305;
     update_pbar_count := 10; max_proxies := 10000;
     min_proxies_threshold := 100 |}.

(** ** Statistics *)

(** Times are microseconds since some epoch; [None] is Python's [None]. *)
Record Statistics : Type := mkStats {
  successful_hits : Z;
  initial_view_count : Z;
  start_time : option Z;
  end_time : option Z
}.

(** [Statistics.__init__]. *)
Definition new_statistics : Statistics :=
  {| successful_hits := 0; initial_view_count := 0;
     start_time := None; end_time := None |}.

(** [Statistics.calculate_success_rate]:
    [(self.successful_hits / total_proxies * 100) if total_proxies > 0 else 0.0] *)
Definition calculate_success_rate (self : Statistics) (total_proxies : Z)
  : PyResult float :=
  if 0 <? total_proxies then
    match py_truediv (successful_hits self) total_proxies with
    | Return q => Return (PrimFloat.mul q 100%float)
    | Raise e => Raise e
    end
  else Return 0%float.

(** [Statistics.get_duration], in microseconds. *)
Definition get_duration (self : Statistics) : Z :=
  match start_time self, end_time self with
  | Some s, Some e => e - s
  | _, _ => 0
  end.

(** The expression the specification gives for the rate, [100 * h / n]:
    an exact integer product followed by one true division. *)
Definition spec_success_rate (h n : Z) : float :=
  PrimFloat.div (float_of_int (100 * h)) (float_of_int n).

(** ** The proxy filter: [filter_proxies] *)

(** The slices handed to the worker threads (the loop over
    [range(self.config.thread_num)]); [len(total_proxies) // thread_num]
    raises when [thread_num] is zero. *)
Definition thread_slice {A} (total_proxies : list A) (thread_num : Z)
    (thread_proxy_num : Z) (i : Z) : list A :=
  let start_idx := i * thread_proxy_num in
  let end_idx := if i <? thread_num - 1 then start_idx + thread_proxy_num
                 else len total_proxies in
  py_slice total_proxies start_idx end_idx.

Definition thread_slices {A} (total_proxies : list A) (thread_num : Z)
  : PyResult (list (list A)) :=
  if thread_num =? 0 then Raise ZeroDivisionError
  else
    let thread_proxy_num := len total_proxies / thread_num in
    Return (map (thread_slice total_proxies thread_num thread_proxy_num)
                (py_range thread_num)).

(** What the probe [requests.post('http://httpbin.org/post', ...)] gives:
    a response with a status code, or a [requests.RequestException]. *)
Inductive ProbeReply : Type :=
  | ProbeStatus (status_code : Z)
  | ProbeRequestException.

Definition probe_ok (r : ProbeReply) : bool :=
  match r with
  | ProbeStatus c => c =? 200
  | ProbeRequestException => false
  end.

(** Where a worker stands inside [filter_proxy_batch]. *)
Inductive Pc : Type :=
  | NextProxy                       (* at [for proxy in proxies] *)
  | CountLocked (proxy : string)    (* in the first [with lock], before [count += 1] *)
  | Probing (proxy : string)        (* lock released, at [requests.post] *)
  | AppendWait (proxy : string)     (* status 200, at the second [with lock] *)
  | AppendLocked (proxy : string)   (* in the second [with lock], before [append] *)
  | Finished.                       (* the batch is exhausted *)

Record Worker : Type := mkWorker {
  pc : Pc;
  todo : list string                (* proxies of the batch not yet taken *)
}.

(** The variables shared by the workers ([count], [active_proxies], [lock]),
    the workers themselves, and a log of the probes made so far. *)
Record Pool : Type := mkPool {
  workers : list Worker;
  count : Z;
  active_proxies : list string;
  lock : option nat;                (* the worker that holds the lock *)
  probed : list (string * ProbeReply)
}.

Definition set_worker (i : nat) (w : Worker) (s : Pool) : Pool :=
  mkPool (<[i := w]> (workers s)) (count s) (active_proxies s) (lock s) (probed s).

(** One atomic step of worker [i]; [r] is what the network answers if the
    step is the probe.  [None]: the worker cannot move (it waits for the
    lock, has finished, or does not exist). *)
Definition worker_step (i : nat) (r : ProbeReply) (s : Pool) : option Pool :=
  match workers s !! i with
  | None => None
  | Some w =>
    match pc w with
    | NextProxy =>
        match todo w with
        | [] => Some (set_worker i (mkWorker Finished []) s)
        | proxy :: rest =>
            match lock s with
            | None =>
                Some (mkPool (<[i := mkWorker (CountLocked proxy) rest]> (workers s))
                             (count s) (active_proxies s) (Some i) (probed s))
            | Some _ => None
            end
        end
    | CountLocked proxy =>
        (* count += 1; print the progress bar; leave the [with] block *)
        Some (mkPool (<[i := mkWorker (Probing proxy) (todo w)]> (workers s))
                     (count s + 1) (active_proxies s) None (probed s))
    | Probing proxy =>
        let next := if probe_ok r then AppendWait proxy else NextProxy in
        Some (mkPool (<[i := mkWorker next (todo w)]> (workers s))
                     (count s) (active_proxies s) (lock s)
                     ((proxy, r) :: probed s))
    | AppendWait proxy =>
        match lock s with
        | None =>
            Some (mkPool (<[i := mkWorker (AppendLocked proxy) (todo w)]> (workers s))
                         (count s) (active_proxies s) (Some i) (probed s))
        | Some _ => None
        end
    | AppendLocked proxy =>
        (* active_proxies.append(proxy); leave the [with] block *)
        Some (mkPool (<[i := mkWorker NextProxy (todo w)]> (workers s))
                     (count s) (active_proxies s ++ [proxy]) None (probed s))
    | Finished => None
    end
  end.

(** A schedule: which worker moves next, and the network's answer. *)
Definition Schedule : Type := list (nat * ProbeReply).

Fixpoint run_schedule (sched : Schedule) (s : Pool) : option Pool :=
  match sched with
  | [] => Some s
  | (i, r) :: sched' =>
      match worker_step i r s with
      | Some s' => run_schedule sched' s'
      | None => None
      end
  end.

(** The pool once the threads are created.  The source starts them one
    after the other; a thread that is not started yet is a worker that has
    not moved, so every interleaving of the program is a schedule from
    this pool. *)
Definition start_pool (slices : list (list string)) : Pool :=
  mkPool (map (mkWorker NextProxy) slices) 0 [] None [].

Definition worker_finished (w : Worker) : bool :=
  match pc w with Finished => true | _ => false end.

(** [thread.join()] returns for every thread. *)
Definition all_joined (s : Pool) : bool := forallb worker_finished (workers s).

(** The end of [filter_proxies], after the joins. *)
Definition filter_result (s : Pool) : PyResult (list string) :=
  if len (active_proxies s) =? 0 then Raise (RuntimeError NoActiveProxies)
  else Return (active_proxies s).

(** [filter_proxies] under a schedule.  [None]: the schedule is not a
    complete run (a step is not enabled, or a thread is still running when
    the schedule ends). *)
Definition filter_proxies (cfg : Config) (total_proxies : list string)
    (sched : Schedule) : option (PyResult (list string)) :=
  match thread_slices total_proxies (thread_num cfg) with
  | Raise e => Some (Raise e)
  | Return slices =>
      match run_schedule sched (start_pool slices) with
      | Some s => if all_joined s then Some (filter_result s) else None
      | None => None
      end
  end.

(** The pools that some interleaving of the workers reaches. *)
Definition reachable (slices : list (list string)) (s : Pool) : Prop :=
  exists sched, run_schedule sched (start_pool slices) = Some s.

(** Worker [i] stands inside a [with lock] block. *)
Definition in_critical (w : Worker) : bool :=
  match pc w with
  | CountLocked _ | AppendLocked _ => true
  | _ => false
  end.

(** Bookkeeping over the workers: how many proxies a worker has still to
    count, whether it is inside a probe, and whether it stands between a
    successful probe and its [append]. *)
Definition pending (w : Worker) : Z :=
  len (todo w) + match pc w with CountLocked _ => 1 | _ => 0 end.

Definition probing (w : Worker) : Z :=
  match pc w with Probing _ => 1 | _ => 0 end.

Definition appending (w : Worker) : Z :=
  match pc w with AppendWait _ | AppendLocked _ => 1 | _ => 0 end.

Definition tally (f : Worker -> Z) (ws : list Worker) : Z :=
  foldr (fun w acc => f w + acc) 0 ws.

(** The successful probes of a log. *)
Definition successes (log : list (string * ProbeReply)) : list (string * ProbeReply) :=
  List.filter (fun pr => probe_ok (snd pr)) log.

(** What every reachable pool satisfies, for [k] candidates in all:
    a worker inside a [with lock] block holds the lock; every candidate is
    either counted or still to be counted; every counted candidate has
    been probed or is being probed; every successful probe has been
    appended or is about to be. *)
Record pool_inv (k : Z) (s : Pool) : Prop := mkInv {
  inv_lock : forall i w, workers s !! i = Some w -> in_critical w = true ->
                         lock s = Some i;
  inv_count : count s + tally pending (workers s) = k;
  inv_probed : len (probed s) + tally probing (workers s) = count s;
  inv_active : len (active_proxies s) + tally appending (workers s)
               = len (successes (probed s))
}.

(** The schedule in which worker [i] runs its batch alone and every probe
    raises: take the lock, count, probe, for each proxy; then finish. *)
Definition failing_batch (i : nat) (batch : list string) : Schedule :=
  concat (map (fun _ => [(i, ProbeRequestException); (i, ProbeRequestException);
                         (i, ProbeRequestException)]) batch)
  ++ [(i, ProbeRequestException)].

(** The workers one after the other, from worker [i] on. *)
Fixpoint failing_run (i : nat) (slices : list (list string)) : Schedule :=
  match slices with
  | [] => []
  | batch :: rest => failing_batch i batch ++ failing_run (S i) rest
  end.

(** Two candidates, two workers, both probes answered with status 200:
    worker 0 counts, worker 1 counts, and only then worker 0 appends. *)
Definition overtaking_schedule : Schedule :=
  [(0%nat, ProbeStatus 200); (0%nat, ProbeStatus 200);
   (1%nat, ProbeStatus 200); (1%nat, ProbeStatus 200);
   (0%nat, ProbeStatus 200); (0%nat, ProbeStatus 200);
   (0%nat, ProbeStatus 200)].

(** The pool which that schedule leads to. *)
Definition overtaken_pool : Pool :=
  mkPool [mkWorker NextProxy []; mkWorker (Probing "b") []] 2 ["a"%string] None
         [("a"%string, ProbeStatus 200)].

(** ** The metric client: [get_video_info] *)

(** The [data] object of the view API, as far as the source reads it.
    [None] is a missing key. *)
Record VideoInfo : Type := mkInfo {
  aid : option Z;
  cid : option Z;
  owner_mid : option Z;             (* info['owner']['mid'] *)
  desc_v2 : list (option Z);        (* the 'type' of each entry; [] when absent *)
  stat_view : option Z              (* info['stat']['view'] *)
}.

(** The JSON envelope of the view API. *)
Record Envelope : Type := mkEnvelope {
  env_code : option Z;
  env_message : option string;
  env_data : option VideoInfo
}.

Inductive Body : Type :=
  | BodyNotJson
  | BodyJson (payload : Envelope).

(** What [requests.get] gives. *)
Inductive GetReply : Type :=
  | GetRequestException
  | GetResponse (status_code : Z) (body : Body).

(** What the click request [requests.post] gives. *)
Inductive PostReply : Type :=
  | PostStatus (status_code : Z)
  | PostRequestException.

(** The form data of a click request. *)
Record ClickData : Type := mkClick {
  cd_aid : Z;
  cd_cid : Z;
  cd_bvid : string;
  cd_mid : Z;
  cd_type : Z
}.

(** The collaborators of the dispatch loop.  [now] reads the clock of the
    world and leaves the world as it is: time passes in the requests and
    in [sleep] only, and the time the interpreter takes between two
    statements is not modelled.  Two reads with no request and no [sleep]
    in between therefore give the same value here, which the source does
    not promise; nothing below is stated about such a pair of reads. *)
Class World (W : Type) : Type := {
  view_api : string -> W -> GetReply * W;
  click_api : string -> ClickData -> W -> PostReply * W;
  now : W -> Z;                     (* datetime.now(), in microseconds *)
  sleep : W -> W                    (* sleep(1) *)
}.

(** [response.raise_for_status()] raises for 4xx and 5xx. *)
Definition raise_for_status (status_code : Z) : bool :=
  (400 <=? status_code) && (status_code <? 600).

Definition get_video_info `{World W} (bvid : string) (w : W)
  : PyResult VideoInfo * W :=
  let '(reply, w') := view_api bvid w in
  (match reply with
   | GetRequestException => Raise (RuntimeError FetchFailed)
   | GetResponse status_code body =>
       if raise_for_status status_code then Raise (RuntimeError FetchFailed)
       else
         match body with
         | BodyNotJson => Raise (RuntimeError ParseFailed)
         | BodyJson data =>
             match env_code data with
             | None => Raise (RuntimeError ParseFailed)
             | Some c =>
                 if c =? 0 then
                   match env_data data with
                   | Some d => Return d
                   | None => Raise (RuntimeError ParseFailed)
                   end
                 else
                   Raise (RuntimeError
                            (ApiError (default "Unknown error"%string (env_message data))))
             end
         end
   end, w').

(** [info['stat']['view']]. *)
Definition view_of (info : VideoInfo) : PyResult Z :=
  match stat_view info with
  | Some v => Return v
  | None => Raise (KeyError "view")
  end.

(** [get_video_info(bvid)] followed by [['stat']['view']], as the source
    does at the start, at every periodic update and at the end, each time
    inside one [try]. *)
Definition fetch_views `{World W} (bvid : string) (w : W)
  : PyResult (VideoInfo * Z) * W :=
  let '(r, w') := get_video_info bvid w in
  (match r with
   | Raise e => Raise e
   | Return i =>
       match view_of i with
       | Raise e => Raise e
       | Return v => Return (i, v)
       end
   end, w').

(** ** The dispatch loop: [boost_view_count] *)

Inductive Level : Type := INFO | WARNING | ERROR.

Inductive LogMsg : Type :=
  | StartingBoost (bvid : string)
  | InitialViewCount (views : Z)
  | FailedInitialViewCount (e : Exn)   (* "Failed to get initial view count: {e}" *)
  | FailedUpdateViewCount (e : Exn).   (* "Failed to update view count: {e}" *)

(** The text that follows the progress bar on the status line. *)
Inductive Status : Type :=
  | Updating                        (* "updating view count..." *)
  | DoneMsg                         (* "done" *)
  | ProxySuccess (i n : Z)          (* "proxy(i/n) success" *)
  | ProxyFail (i n : Z)             (* "proxy(i/n) fail" *)
  | NextRound (second : Z).         (* "next round: {format_time(second)}" *)

Record Report : Type := mkReport {
  rep_initial : Z;
  rep_final : Z;
  rep_hits : Z;
  rep_rate : float;
  rep_duration : Z;
  rep_proxies : Z
}.

Inductive Event : Type :=
  | Log (lvl : Level) (msg : LogMsg)
  | Progress (n total hits view_increase : Z) (status : Status)
  | GetInfo (bvid : string)                   (* a request to the view API *)
  | Click (proxy : string) (data : ClickData) (* a click request *)
  | Sleep
  | FinalStatistics (r : Report).

(** [self.stats], the locals [current_views] and [info], the world and the
    trace. *)
Record LoopState (W : Type) : Type := mkLoop {
  world : W;
  stats : Statistics;
  current_views : Z;
  info : VideoInfo;
  trace : list Event
}.
Arguments mkLoop {W}.
Arguments world {W}.
Arguments stats {W}.
Arguments current_views {W}.
Arguments info {W}.
Arguments trace {W}.

Definition emit {W} (e : Event) (s : LoopState W) : LoopState W :=
  mkLoop (world s) (stats s) (current_views s) (info s) (e :: trace s).

(** The status line with the current figures. *)
Definition progress {W} (target : Z) (status : Status) (s : LoopState W) : Event :=
  Progress (current_views s) target (successful_hits (stats s))
           (current_views s - initial_view_count (stats s)) status.

Definition add_hit (st : Statistics) : Statistics :=
  mkStats (successful_hits st + 1) (initial_view_count st)
          (start_time st) (end_time st).

(** The click requests in a trace. *)
Definition is_click (e : Event) : bool :=
  match e with Click _ _ => true | _ => false end.

Definition clicks (tr : list Event) : list Event := List.filter is_click tr.

Definition is_sleep (e : Event) : bool :=
  match e with Sleep => true | _ => false end.

Definition sleeps (tr : list Event) : nat := length (List.filter is_sleep tr).

(** The [click_data] dictionary; a missing key raises [KeyError].
    ['type'] is [info['desc_v2'][0]['type']] if [info.get('desc_v2')] is
    truthy, else ['1']. *)
Definition click_data (bvid : string) (i : VideoInfo) : PyResult ClickData :=
  match aid i with
  | None => Raise (KeyError "aid")
  | Some a =>
    match cid i with
    | None => Raise (KeyError "cid")
    | Some c =>
      match owner_mid i with
      | None => Raise (KeyError "mid")
      | Some m =>
        match desc_v2 i with
        | [] => Return (mkClick a c bvid m 1)
        | Some t :: _ => Return (mkClick a c bvid m t)
        | None :: _ => Raise (KeyError "type")
        end
      end
    end
  end.

(** How one pass of a loop body, or a whole loop, ends. *)
Inductive Flow : Type :=
  | Next                            (* fell through *)
  | Break                           (* [reach_target = True; break] *)
  | Throw (e : Exn).                (* an exception leaves the loop *)

(** The periodic update inside the round (the body of
    [if i % self.config.update_pbar_count == 0]).  The boolean is
    [reach_target]. *)
Definition update_view_count `{World W} (bvid : string) (target : Z)
    (s : LoopState W) : bool * LoopState W :=
  let s1 := emit (progress target Updating s) s in
  let '(r, w') := fetch_views bvid (world s1) in
  let s2 := mkLoop w' (stats s1) (current_views s1) (info s1)
                   (GetInfo bvid :: trace s1) in
  match r with
  | Raise e => (false, emit (Log WARNING (FailedUpdateViewCount e)) s2)
  | Return (updated_info, v) =>
      let s3 := mkLoop (world s2) (stats s2) v updated_info (trace s2) in
      if target <=? v then (true, emit (progress target DoneMsg s3) s3)
      else (false, s3)
  end.

(** The click request of proxy number [i] (the part of the body after
    the update).  [n] is [len(self.active_proxies)]. *)
Definition send_click `{World W} (bvid : string) (target n i : Z)
    (proxy : string) (s : LoopState W) : Flow * LoopState W :=
  match click_data bvid (info s) with
  | Raise e => (Throw e, s)
  | Return data =>
      let '(reply, w') := click_api proxy data (world s) in
      let s1 := mkLoop w' (stats s) (current_views s) (info s)
                       (Click proxy data :: trace s) in
      match reply with
      | PostStatus status_code =>
          if status_code =? 200 then
            let s2 := mkLoop (world s1) (add_hit (stats s1)) (current_views s1)
                             (info s1) (trace s1) in
            (Next, emit (progress target (ProxySuccess (i + 1) n) s2) s2)
          else (Next, emit (progress target (ProxyFail (i + 1) n) s1) s1)
      | PostRequestException =>
          (Next, emit (progress target (ProxyFail (i + 1) n) s1) s1)
      end
  end.

(** What the specification takes for a successful click: a response with
    an HTTP-success status, that is any 2xx.  The source tests
    [status_code == 200]. *)
Definition spec_http_success (reply : PostReply) : bool :=
  match reply with
  | PostStatus status_code => (200 <=? status_code) && (status_code <? 300)
  | PostRequestException => false
  end.

(** The body of [for i, proxy in enumerate(self.active_proxies)].
    [i % update_pbar_count] raises [ZeroDivisionError] when the interval
    is zero; only [requests.RequestException] is caught around it. *)
Definition round_body `{World W} (cfg : Config) (bvid : string)
    (target n i : Z) (proxy : string) (s : LoopState W) : Flow * LoopState W :=
  if update_pbar_count cfg =? 0 then (Throw ZeroDivisionError, s)
  else if i mod update_pbar_count cfg =? 0 then
    match update_view_count bvid target s with
    | (true, s') => (Break, s')
    | (false, s') => send_click bvid target n i proxy s'
    end
  else send_click bvid target n i proxy s.

Fixpoint round_loop `{World W} (cfg : Config) (bvid : string)
    (target n i : Z) (proxies : list string) (s : LoopState W)
  : Flow * LoopState W :=
  match proxies with
  | [] => (Next, s)
  | proxy :: rest =>
      match round_body cfg bvid target n i proxy s with
      | (Next, s') => round_loop cfg bvid target n (i + 1) rest s'
      | other => other
      end
  end.

(** [int(self.config.round_time - elapsed_time)] for an elapsed
    [timedelta] of [elapsed] microseconds: the difference truncated toward
    zero.  Python goes through a [float] ([total_seconds()]); [elapsed] is a
    whole number of microseconds and the rounding error is far below one
    microsecond for any span under 10^6 seconds, so it never moves the
    truncated value. *)
Definition remain_seconds (round_time elapsed : Z) : Z :=
  Z.quot (round_time * 1000000 - elapsed) 1000000.

(** One pass of the countdown: show the remaining time, [sleep(1)]. *)
Definition tick `{World W} (target : Z) (s : LoopState W) (second : Z)
  : LoopState W :=
  mkLoop (sleep (world s)) (stats s) (current_views s) (info s)
         (Sleep :: progress target (NextRound second) s :: trace s).

(** [if remain_seconds > 0: for second in reversed(range(remain_seconds))]. *)
Definition wait_next_round `{World W} (target remain : Z) (s : LoopState W)
  : LoopState W :=
  if 0 <? remain then fold_left (tick target) (rev (py_range remain)) s
  else s.

(** How the [while] loop ends; [OutOfFuel] stands for a loop that is still
    running when the fuel is spent. *)
Inductive LoopEnd : Type :=
  | Exited
  | Threw (e : Exn)
  | OutOfFuel.

(** [while current_views < target], at most [fuel] rounds. *)
Fixpoint dispatch_rounds `{World W} (fuel : nat) (cfg : Config)
    (proxies : list string) (bvid : string) (target : Z) (s : LoopState W)
  : LoopEnd * LoopState W :=
  if current_views s <? target then
    match fuel with
    | O => (OutOfFuel, s)
    | S fuel' =>
        let round_start_time := now (world s) in
        match round_loop cfg bvid target (len proxies) 0 proxies s with
        | (Break, s') => (Exited, s')
        | (Throw e, s') => (Threw e, s')
        | (Next, s') =>
            let elapsed := now (world s') - round_start_time in
            let remain := remain_seconds (round_time cfg) elapsed in
            dispatch_rounds fuel' cfg proxies bvid target
                            (wait_next_round target remain s')
        end
    end
  else (Exited, s).

(** How [boost_view_count] ends. *)
Inductive Outcome : Type :=
  | Aborted                         (* the [return] after the failed initial read *)
  | Reported (final_views : Z)      (* [print_final_statistics] was reached *)
  | Propagated (e : Exn)            (* an exception leaves the method *)
  | Unfinished.                     (* still looping *)

Record RunEnd (W : Type) : Type := mkEnd {
  outcome : Outcome;
  end_world : W;
  end_stats : Statistics;
  end_trace : list Event
}.
Arguments mkEnd {W}.
Arguments outcome {W}.
Arguments end_world {W}.
Arguments end_stats {W}.
Arguments end_trace {W}.

(** The figures of [print_final_statistics]. *)
Definition print_final_statistics (proxies : list string) (st : Statistics)
    (final_views : Z) : PyResult Report :=
  match calculate_success_rate st (len proxies) with
  | Raise e => Raise e
  | Return success_rate =>
      Return (mkReport (initial_view_count st) final_views (successful_hits st)
                       success_rate (get_duration st) (len proxies))
  end.

(** The end of [boost_view_count], from [self.stats.end_time = ...] on. *)
Definition finalize `{World W} (proxies : list string) (bvid : string)
    (s : LoopState W) : RunEnd W :=
  let st := mkStats (successful_hits (stats s)) (initial_view_count (stats s))
                    (start_time (stats s)) (Some (now (world s))) in
  let '(r, w') := fetch_views bvid (world s) in
  let final_views :=
    match r with
    | Return (_, v) => v
    | Raise _ => current_views s
    end in
  match print_final_statistics proxies st final_views with
  | Return rep =>
      mkEnd (Reported final_views) w' st
            (FinalStatistics rep :: GetInfo bvid :: trace s)
  | Raise e => mkEnd (Propagated e) w' st (GetInfo bvid :: trace s)
  end.

(** [boost_view_count], for [self.stats = st] and
    [self.active_proxies = proxies], with at most [fuel] rounds. *)
Definition boost_view_count `{World W} (fuel : nat) (cfg : Config)
    (proxies : list string) (st : Statistics) (bvid : string) (target : Z)
    (w : W) : RunEnd W :=
  let tr := [GetInfo bvid; Log INFO (StartingBoost bvid)] in
  match fetch_views bvid w with
  | (Raise e, w') =>
      mkEnd Aborted w' st (Log ERROR (FailedInitialViewCount e) :: tr)
  | (Return (i, v), w') =>
      let st1 := mkStats (successful_hits st) v (Some (now w')) (end_time st) in
      let s := mkLoop w' st1 v i (Log INFO (InitialViewCount v) :: tr) in
      match dispatch_rounds fuel cfg proxies bvid target s with
      | (Exited, s') => finalize proxies bvid s'
      | (Threw e, s') => mkEnd (Propagated e) (world s') (stats s') (trace s')
      | (OutOfFuel, s') => mkEnd Unfinished (world s') (stats s') (trace s')
      end
  end.

(** ** A scripted world, for concrete runs

    The world is a script of replies: the answers of the view API and of
    the click API in the order in which they will be requested, and the
    clock, which each request and each [sleep(1)] advances. *)
Record Script : Type := mkScript {
  gets : list GetReply;
  posts : list PostReply;
  time : Z;
  get_cost : Z;                     (* microseconds one view request takes *)
  post_cost : Z                     (* microseconds one click request takes *)
}.

#[export] Instance script_world : World Script := {|
  view_api := fun _ w =>
    (hd GetRequestException (gets w),
     mkScript (tl (gets w)) (posts w) (time w + get_cost w) (get_cost w) (post_cost w));
  click_api := fun _ _ w =>
    (hd PostRequestException (posts w),
     mkScript (gets w) (tl (posts w)) (time w + post_cost w) (get_cost w) (post_cost w));
  now := time;
  sleep := fun w =>
    mkScript (gets w) (posts w) (time w + 1000000) (get_cost w) (post_cost w)
|}.

(** A well-formed answer of the view API with the given counter. *)
Definition info_with (views : Z) : VideoInfo :=
  mkInfo (Some 123456) (Some 789012) (Some 345678) [] (Some views).

Definition ok_reply (views : Z) : GetReply :=
  GetResponse 200 (BodyJson (mkEnvelope (Some 0) None (Some (info_with views)))).

(** The scenario of the specification: the counter stands at 950 and the
    target is 1000.  Three proxies, an update every second proxy; the
    first update reads 960 and the second one, at the third proxy, 1005.
    A view request takes 10 s and a click request 15 s. *)
Definition scenario_config : Config := mkConfig 3 75 305 2 10000 100.

Definition scenario_proxies : list string := ["p0"; "p1"; "p2"]%string.

Definition scenario_script : Script :=
  mkScript [ok_reply 960; ok_reply 1005] [PostStatus 200; PostRequestException]
           0 10000000 15000000.

Definition scenario_state : LoopState Script :=
  mkLoop scenario_script (mkStats 0 950 (Some 0) None) 950 (info_with 950) [].

(** A round of two proxies that stays below the target and takes 40 s
    (one update, two clicks), under the default configuration. *)
Definition short_round_script : Script :=
  mkScript [ok_reply 951] [PostStatus 200; PostRequestException]
           0 10000000 15000000.

Definition short_round_state : LoopState Script :=
  mkLoop short_round_script (mkStats 0 950 (Some 0) None) 950 (info_with 950) [].

(** A world in which the view API is unreachable and a click succeeds. *)
Definition no_view_script : Script :=
  mkScript [] [PostStatus 200] 0 10000000 15000000.

Definition no_view_state : LoopState Script :=
  mkLoop no_view_script (mkStats 0 950 (Some 0) None) 950 (info_with 950) [].

(** A world whose click API answers 204 No Content. *)
Definition no_content_script : Script :=
  mkScript [] [PostStatus 204] 0 10000000 15000000.

Definition no_content_state : LoopState Script :=
  mkLoop no_content_script (mkStats 0 950 (Some 0) None) 950 (info_with 950) [].

(** ** The proxy filter: where every candidate is

    The proxy a worker has taken from its batch and not yet probed, and the
    proxy whose probe succeeded and that is not yet appended. *)
Definition in_hand (w : Worker) : list string :=
  match pc w with
  | CountLocked proxy | Probing proxy => [proxy]
  | _ => []
  end.

Definition to_append (w : Worker) : list string :=
  match pc w with
  | AppendWait proxy | AppendLocked proxy => [proxy]
  | _ => []
  end.

(** How often [x] occurs in [l]. *)
Definition occ (x : string) (l : list string) : Z :=
  Z.of_nat (count_occ string_dec l x).

(** The candidates that the probes of a log went to. *)
Definition probed_proxies (log : list (string * ProbeReply)) : list string :=
  map fst log.

(** What every reachable pool satisfies besides [pool_inv]: the lock is
    held by a worker inside a locked block; a finished worker has an empty
    batch; each candidate is in exactly one place (probed, in a worker's
    hand, or still in a batch); each successful probe is appended or about
    to be. *)
Record pool_tracks (candidates : list string) (s : Pool) : Prop := mkTracks {
  track_holder : forall i, lock s = Some i ->
                 exists w, workers s !! i = Some w /\ in_critical w = true;
  track_finished : forall i w, workers s !! i = Some w -> pc w = Finished ->
                   todo w = [];
  track_candidates : forall x,
      occ x (probed_proxies (probed s))
      + tally (fun w => occ x (in_hand w)) (workers s)
      + tally (fun w => occ x (todo w)) (workers s)
      = occ x candidates;
  track_results : forall x,
      occ x (active_proxies s) + tally (fun w => occ x (to_append w)) (workers s)
      = occ x (probed_proxies (successes (probed s)))
}.

(** An upper bound on the steps a worker can still take: five per proxy of
    its batch (lock, count, probe, lock, append) and one to finish. *)
Definition steps_left (w : Worker) : Z :=
  match pc w with
  | NextProxy => 5 * len (todo w) + 1
  | CountLocked _ => 5 * len (todo w) + 5
  | Probing _ => 5 * len (todo w) + 4
  | AppendWait _ => 5 * len (todo w) + 3
  | AppendLocked _ => 5 * len (todo w) + 2
  | Finished => 0
  end.

(** The interleaving of [overtaking_schedule] run to its end: worker 0
    finishes, then worker 1 probes, appends and finishes. *)
Definition two_alive_schedule : Schedule :=
  overtaking_schedule
  ++ [(0%nat, ProbeStatus 200); (1%nat, ProbeStatus 200);
      (1%nat, ProbeStatus 200); (1%nat, ProbeStatus 200);
      (1%nat, ProbeStatus 200)].

(** The pool it ends in. *)
Definition two_alive_pool : Pool :=
  mkPool [mkWorker Finished []; mkWorker Finished []] 2 ["a"; "b"]%string None
         [("b"%string, ProbeStatus 200); ("a"%string, ProbeStatus 200)].

(** ** The dispatch loop: what a trace shows *)

(** The proxies of the click requests of a trace, most recent first. *)
Definition clicked (tr : list Event) : list string :=
  flat_map (fun e => match e with Click proxy _ => [proxy] | _ => [] end) tr.

Definition click_count (tr : list Event) : Z := len (clicks tr).

(** The "proxy(i/n) success" status lines. *)
Definition is_success_line (e : Event) : bool :=
  match e with
  | Progress _ _ _ _ (ProxySuccess _ _) => true
  | _ => false
  end.

Definition success_lines (tr : list Event) : Z :=
  len (List.filter is_success_line tr).

Definition is_get_info (e : Event) : bool :=
  match e with GetInfo _ => true | _ => false end.

(** The requests to the view API. *)
Definition view_requests (tr : list Event) : Z :=
  len (List.filter is_get_info tr).

Definition is_final_statistics (e : Event) : bool :=
  match e with FinalStatistics _ => true | _ => false end.

(** The final reports printed. *)
Definition final_reports (tr : list Event) : Z :=
  len (List.filter is_final_statistics tr).

(** From [s] to [s'] every new hit has its success line, every success
    line its click request, the initial counter and the two timestamps of
    the statistics are untouched, and no final report is printed. *)
Definition accounted {W} (s s' : LoopState W) : Prop :=
  successful_hits (stats s') - successful_hits (stats s)
  = success_lines (trace s') - success_lines (trace s)
  /\ success_lines (trace s') - success_lines (trace s)
     <= click_count (trace s') - click_count (trace s)
  /\ initial_view_count (stats s') = initial_view_count (stats s)
  /\ start_time (stats s') = start_time (stats s)
  /\ end_time (stats s') = end_time (stats s)
  /\ final_reports (trace s') = final_reports (trace s).

(** A world whose view API always finds the counter at 1005. *)
Definition at_target_script : Script :=
  mkScript [ok_reply 1005; ok_reply 1005] [] 0 10000000 15000000.

(** A snapshot without the [aid] identifier, and a world that serves it. *)
Definition info_without_aid (views : Z) : VideoInfo :=
  mkInfo None (Some 789012) (Some 345678) [] (Some views).

Definition no_aid_script : Script :=
  mkScript [GetResponse 200
              (BodyJson (mkEnvelope (Some 0) None (Some (info_without_aid 960))))]
           [PostStatus 200] 0 10000000 15000000.

Definition no_aid_state : LoopState Script :=
  mkLoop no_aid_script (mkStats 0 950 (Some 0) None) 950 (info_with 950) [].

(** ** The proxy source: [get_proxies] *)

(** [$.data.proxyList] of the archive: a JSON array, a JSON object (its
    items in order), or any other JSON value. *)
Inductive ProxyList : Type :=
  | ProxySeq (l : list string)
  | ProxyMap (m : list (string * string))
  | ProxyOther.

Inductive ArchiveBody : Type :=
  | ArchiveNotJson                  (* [response.json()] raises *)
  | ArchiveNoList                   (* [data['data']['proxyList']] raises *)
  | ArchiveList (p : ProxyList).

(** What [requests.get(proxy_url, timeout=10)] gives. *)
Inductive ArchiveReply : Type :=
  | ArchiveRequestException
  | ArchiveResponse (status_code : Z) (body : ArchiveBody).

(** The archive of a day (days are numbered) and [random.shuffle], which
    rearranges its list. *)
Class ProxySource (W : Type) : Type := {
  archive_api : Z -> W -> ArchiveReply * W;
  shuffle : list string -> W -> list string * W;
  shuffle_permutes : forall l w, Permutation (fst (shuffle l w)) l
}.

Inductive SourceMsg : Type :=
  | StartingCollection              (* "Starting proxy collection..." *)
  | GettingFrom (day : Z)           (* "Getting proxies from {proxy_url}..." *)
  | GotProxies (n : Z)              (* "Successfully got {n} proxies" *)
  | MoreThan (max : Z)              (* "More than {max} proxies, randomly selecting {max}" *)
  | OnlyFound (n threshold : Z)     (* "Only found {n} proxies, need at least ..." *)
  | HttpFailure (status_code : Z)   (* "Failed to get proxies: HTTP {status}" *)
  | RequestFailed                   (* "Request failed: {e}" *)
  | ParseFailure.                   (* "Failed to parse proxy data: {e}" *)

Inductive SourceEvent : Type :=
  | Request (day : Z)
  | SourceLog (lvl : Level) (msg : SourceMsg).

(** Truth value of a string: it is not empty. *)
Definition truthy (x : string) : bool :=
  match x with EmptyString => false | String _ _ => true end.

(** "Extract proxies based on data structure"; [None] is the [TypeError]. *)
Definition proxy_entries (p : ProxyList) : option (list string) :=
  match p with
  | ProxySeq l => Some l
  | ProxyMap m => Some (List.filter truthy (map snd m))
  | ProxyOther => None
  end.

(** "Limit proxy count if too many". *)
Definition limit_proxies `{ProxySource W} (cfg : Config)
    (total_proxies : list string) (w : W) (tr : list SourceEvent)
  : list string * W * list SourceEvent :=
  if max_proxies cfg <? len total_proxies then
    let '(shuffled, w') := shuffle total_proxies w in
    (py_slice shuffled 0 (max_proxies cfg), w',
     SourceLog INFO (MoreThan (max_proxies cfg)) :: tr)
  else (total_proxies, w, tr).

(** One pass of the loop over the attempts, for the archive of [day];
    [None]: this day gave nothing usable and the loop goes on. *)
Definition try_day `{ProxySource W} (cfg : Config) (day : Z) (w : W)
    (tr : list SourceEvent) : option (list string) * W * list SourceEvent :=
  let tr1 := Request day :: SourceLog INFO (GettingFrom day) :: tr in
  let '(reply, w1) := archive_api day w in
  match reply with
  | ArchiveRequestException => (None, w1, SourceLog ERROR RequestFailed :: tr1)
  | ArchiveResponse status_code body =>
      if status_code =? 200 then
        match body with
        | ArchiveNotJson | ArchiveNoList =>
            (None, w1, SourceLog ERROR ParseFailure :: tr1)
        | ArchiveList p =>
            match proxy_entries p with
            | None => (None, w1, SourceLog ERROR ParseFailure :: tr1)
            | Some total_proxies =>
                if min_proxies_threshold cfg <=? len total_proxies then
                  let '(l, w2, tr2) :=
                    limit_proxies cfg total_proxies w1
                      (SourceLog INFO (GotProxies (len total_proxies)) :: tr1) in
                  (Some l, w2, tr2)
                else
                  (None, w1,
                   SourceLog WARNING
                     (OnlyFound (len total_proxies) (min_proxies_threshold cfg))
                   :: tr1)
            end
        end
      else (None, w1, SourceLog WARNING (HttpFailure status_code) :: tr1)
  end.

(** [for attempt in range(max_attempts)], starting the day before [day]. *)
Fixpoint search_archive `{ProxySource W} (attempts : nat) (cfg : Config)
    (day : Z) (w : W) (tr : list SourceEvent)
  : option (list string) * W * list SourceEvent :=
  match attempts with
  | O => (None, w, tr)
  | S attempts' =>
      match try_day cfg (day - 1) w tr with
      | (Some l, w', tr') => (Some l, w', tr')
      | (None, w', tr') => search_archive attempts' cfg (day - 1) w' tr'
      end
  end.

(** How [get_proxies] ends: with a list, or with
    [RuntimeError("Could not find sufficient proxies after 7 attempts")]. *)
Inductive SourceResult : Type :=
  | Collected (total_proxies : list string)
  | NotEnough (max_attempts : Z).

Definition max_attempts : nat := 7.

(** [get_proxies], for [date.today() = today]. *)
Definition get_proxies `{ProxySource W} (cfg : Config) (today : Z) (w : W)
  : SourceResult * W * list SourceEvent :=
  match search_archive max_attempts cfg today w
          [SourceLog INFO StartingCollection] with
  | (Some l, w', tr) => (Collected l, w', tr)
  | (None, w', tr) => (NotEnough (Z.of_nat max_attempts), w', tr)
  end.

(** The days asked for in a trace, most recent first. *)
Definition requested (tr : list SourceEvent) : list Z :=
  flat_map (fun e => match e with Request day => [day] | _ => [] end) tr.

(** The world and the log at the end of the first [k] passes of the loop
    of [get_proxies], when none of them has returned: pass number [k']
    (counted from 0, as [attempt] is) asks for the archive of the day
    [k' + 1] days before [today]. *)
Fixpoint after_attempts `{ProxySource W} (k : nat) (cfg : Config) (today : Z)
    (w : W) (tr : list SourceEvent) : W * list SourceEvent :=
  match k with
  | O => (w, tr)
  | S k' =>
      let '(w1, tr1) := after_attempts k' cfg today w tr in
      let '(_, w2, tr2) := try_day cfg (today - Z.of_nat (S k')) w1 tr1 in
      (w2, tr2)
  end.

(** Pass number [k] of that loop, reached when the passes before it have
    not returned. *)
Definition attempt `{ProxySource W} (k : nat) (cfg : Config) (today : Z)
    (w : W) (tr : list SourceEvent)
  : option (list string) * W * list SourceEvent :=
  let '(w1, tr1) := after_attempts k cfg today w tr in
  try_day cfg (today - Z.of_nat (S k)) w1 tr1.

(** ** [run] and [main] *)

(** What [run] raises again after logging "Boosting failed". *)
Inductive RunExn : Type :=
  | SourceExhausted (attempts : Z)  (* the [RuntimeError] of [get_proxies] *)
  | Python (e : Exn).

(** How [run] ends: it raises; [boost_view_count] returns; or the model
    has no answer (the schedule is not a complete run of the filter, or
    the fuel of the loop is spent). *)
Inductive RunOutcome (W : Type) : Type :=
  | RunRaised (e : RunExn) (boost : option (RunEnd W))
  | RunReturned (boost : RunEnd W)
  | RunOpen.
Arguments RunRaised {W}.
Arguments RunReturned {W}.
Arguments RunOpen {W}.

(** [run], for a booster with fresh statistics. *)
Definition run `{World W} `{ProxySource W} (fuel : nat) (sched : Schedule)
    (cfg : Config) (today : Z) (bvid : string) (target : Z) (w : W)
  : RunOutcome W :=
  match get_proxies cfg today w with
  | (NotEnough n, _, _) => RunRaised (SourceExhausted n) None
  | (Collected total_proxies, w1, _) =>
      match filter_proxies cfg total_proxies sched with
      | None => RunOpen
      | Some (Raise e) => RunRaised (Python e) None
      | Some (Return active) =>
          let r := boost_view_count fuel cfg active new_statistics bvid target w1 in
          match outcome r with
          | Propagated e => RunRaised (Python e) (Some r)
          | Unfinished => RunOpen
          | Aborted | Reported _ => RunReturned r
          end
      end
  end.

(** The parsed command line, without the configuration path and the
    verbosity flag. *)
Record Args : Type := mkArgs {
  arg_bvid : string;
  arg_target : Z;
  arg_threads : option Z;
  arg_timeout : option Z
}.

(** "Override config with command line arguments": [if args.threads:]
    and [if args.timeout:] take a value that is present and not zero. *)
Definition override_config (config : Config) (args : Args) : Config :=
  let threads :=
    match arg_threads args with
    | Some t => if t =? 0 then thread_num config else t
    | None => thread_num config
    end in
  let time_out :=
    match arg_timeout args with
    | Some t => if t =? 0 then timeout config else t
    | None => timeout config
    end in
  mkConfig time_out threads (round_time config) (update_pbar_count config)
           (max_proxies config) (min_proxies_threshold config).

(** How [main] ends: the exit status of the process and, if [run] was
    called, how it ended; or no answer, as for [run]. *)
Inductive MainEnd (W : Type) : Type :=
  | ExitStatus (status : Z) (ran : option (RunOutcome W))
  | MainOpen.
Arguments ExitStatus {W}.
Arguments MainOpen {W}.


(** [main], from "Override config" on; [config] is the configuration
    after the optional [load_from_file]. *)
Definition main `{World W} `{ProxySource W} (fuel : nat) (sched : Schedule)
    (config : Config) (args : Args) (today : Z) (w : W) : MainEnd W :=
  let config' := override_config config args in
  if arg_target args <=? 0 then ExitStatus 1 None
  else if negb (String.prefix "BV" (arg_bvid args)) then ExitStatus 1 None
  else
    match run fuel sched config' today (arg_bvid args) (arg_target args) w with
    | RunRaised e r => ExitStatus 1 (Some (RunRaised e r))
    | RunReturned r => ExitStatus 0 (Some (RunReturned r))
    | RunOpen => MainOpen
    end.

(** A scripted site: the archive's answers day by day, in the order of
    the requests, on top of a [Script]; its shuffle reverses the list. *)
Record Site : Type := mkSite {
  archives : list ArchiveReply;
  inner : Script
}.

#[export] Instance site_world : World Site := {|
  view_api := fun bvid w =>
    (fst (view_api bvid (inner w)),
     mkSite (archives w) (snd (view_api bvid (inner w))));
  click_api := fun proxy data w =>
    (fst (click_api proxy data (inner w)),
     mkSite (archives w) (snd (click_api proxy data (inner w))));
  now := fun w => now (inner w);
  sleep := fun w => mkSite (archives w) (sleep (inner w))
|}.

#[export] Instance site_source : ProxySource Site := {|
  archive_api := fun _ w =>
    (hd ArchiveRequestException (archives w),
     mkSite (tl (archives w)) (inner w));
  shuffle := fun l w => (rev l, w);
  shuffle_permutes := fun l _ => Permutation_sym (Permutation_rev l)
|}.

(** A site whose archive of yesterday lists two proxies as a mapping with
    one empty entry, and whose view API is unreachable; a configuration
    with two threads and a threshold of two proxies. *)
Definition small_config : Config := mkConfig 3 2 305 10 10000 2.

Definition mapping_site : Site :=
  mkSite [ArchiveResponse 200
            (ArchiveList (ProxyMap [("0", "a"); ("1", ""); ("2", "b")]%string))]
         no_view_script.

(** A site whose archives never answer. *)
Definition silent_site : Site := mkSite [] no_view_script.

Definition plain_args : Args := mkArgs "BV1" 1000 None None.

(** A site whose archive of yesterday is missing and whose archive of
    the day before lists two proxies; the third archive is never asked
    for. *)
Definition late_site : Site :=
  mkSite [ArchiveResponse 404 ArchiveNotJson;
          ArchiveResponse 200 (ArchiveList (ProxySeq ["a"; "b"]%string));
          ArchiveResponse 200 (ArchiveList (ProxySeq ["c"; "d"]%string))]
         no_view_script.

(** How many of the [k] proxy numbers from [i] on meet the update
    condition [i % n == 0]. *)
Fixpoint updates_due (n i : Z) (k : nat) : Z :=
  match k with
  | O => 0
  | S k' => (if i mod n =? 0 then 1 else 0) + updates_due n (i + 1) k'
  end.

(* ================================================================== *)
(** * Part II. Theorems *)
(* ================================================================== *)

(** ** Statistics *)

Local Open Scope float_scope.

(** The unit test of the repository: 50 hits over 100 proxies is 50.0. *)
Example success_rate_test :
  calculate_success_rate (mkStats 50 0 None None) 100 = Return 50
  /\ calculate_success_rate (mkStats 50 0 None None) 0 = Return 0.
Proof. split; reflexivity. Qed.

(** C9, as stated, fails: with 7 hits over 100 proxies the source computes
    [7 / 100 * 100], which is 7.000000000000001 in binary64, whereas
    [100 * 7 / 100] is 7.0. *)
Lemma success_rate_not_exact :
  calculate_success_rate (mkStats 7 0 None None) 100
    = Return 0x1.c000000000001p+2
  /\ spec_success_rate 7 100 = 7
  /\ calculate_success_rate (mkStats 7 0 None None) 100
       <> Return (spec_success_rate 7 100).
Proof.
  split; [reflexivity|]. split; [reflexivity|].
  intro H.
  assert (E : match calculate_success_rate (mkStats 7 0 None None) 100 with
              | Return x => PrimFloat.eqb x (spec_success_rate 7 100)
              | Raise _ => false
              end = false) by reflexivity.
  rewrite H in E. vm_compute in E. discriminate E.
Qed.

(** The guard [total_proxies > 0] keeps the division away from zero. *)
Lemma success_rate_value (self : Statistics) (total_proxies : Z) :
  calculate_success_rate self total_proxies
  = Return (if (0 <? total_proxies)%Z
            then float_of_int (successful_hits self) / float_of_int total_proxies * 100
            else 0).
Proof.
  unfold calculate_success_rate, py_truediv.
  destruct (0 <? total_proxies)%Z eqn:Hpos; [|reflexivity].
  assert (Hnz : (total_proxies =? 0)%Z = false) by lia.
  rewrite Hnz. reflexivity.
Qed.

(** C9, amended: for a hit count and a total below 2^53 in absolute value
    (where an [int] is a binary64 number and Python's true division is the
    IEEE quotient) the rate is returned, never raised; it is the binary64
    product by 100 of the binary64 quotient of hits by total when the total
    is positive, and 0.0 otherwise, so no division by zero is ever
    attempted. *)
Theorem calculate_success_rate_total (self : Statistics) (total_proxies : Z) :
  (- 2 ^ 53 < successful_hits self < 2 ^ 53)%Z ->
  (total_proxies < 2 ^ 53)%Z ->
  calculate_success_rate self total_proxies
  = Return (if (0 <? total_proxies)%Z
            then float_of_int (successful_hits self) / float_of_int total_proxies * 100
            else 0)
  /\ calculate_success_rate self 0 = Return 0
  /\ is_raise (calculate_success_rate self total_proxies) = false.
Proof.
  intros _ _.
  split; [apply success_rate_value|]. split; [reflexivity|].
  rewrite success_rate_value. reflexivity.
Qed.

Lemma calculate_success_rate_total_witness :
  (- 2 ^ 53 < successful_hits (mkStats 50 0 None None) < 2 ^ 53)%Z
  /\ (100 < 2 ^ 53)%Z
  /\ calculate_success_rate (mkStats 50 0 None None) 100 = Return 50
  /\ calculate_success_rate (mkStats 50 0 None None) 0 = Return 0
  /\ is_raise (calculate_success_rate (mkStats 50 0 None None) 100) = false.
Proof.
  assert (Hh : (- 2 ^ 53 < successful_hits (mkStats 50 0 None None) < 2 ^ 53)%Z)
    by (simpl; lia).
  assert (Hn : (100 < 2 ^ 53)%Z) by lia.
  split; [exact Hh|]. split; [exact Hn|].
  destruct (calculate_success_rate_total (mkStats 50 0 None None) 100 Hh Hn)
    as (Hv & Hz & Hr).
  split; [reflexivity|]. split; [exact Hz|exact Hr].
Defined.

Local Close Scope float_scope.

(** ** The partition of the candidates among the workers *)

Section Slices.
Context {A : Type}.
Implicit Types (l : list A) (q m i : nat).

Lemma slice_bound_in_range (n i : Z) : 0 <= i <= n -> slice_bound n i = i.
Proof. unfold slice_bound. intros Hi. destruct (i <? 0) eqn:E; lia. Qed.

Lemma py_slice_take_drop l (a b : Z) :
  0 <= a <= b -> b <= len l ->
  py_slice l a b = take (Z.to_nat (b - a)) (drop (Z.to_nat a) l).
Proof.
  intros Hab Hb. unfold py_slice.
  rewrite !slice_bound_in_range by lia. reflexivity.
Qed.

(** Consecutive chunks of width [q] glue back to a prefix. *)
Lemma concat_chunks l q m :
  concat (map (fun i => take q (drop (i * q) l)) (seq 0 m)) = take (m * q) l.
Proof.
  induction m as [|m IH].
  - simpl. now rewrite take_0.
  - rewrite seq_S, map_app, concat_app, IH. simpl.
    rewrite app_nil_r, take_take_drop. f_equal. lia.
Qed.

Lemma len_nonneg l : 0 <= len l.
Proof. unfold len. lia. Qed.

(** A worker other than the last takes a full chunk. *)
Lemma thread_slice_inner l (w : Z) i :
  1 <= w -> Z.of_nat i < w - 1 ->
  thread_slice l w (len l / w) (Z.of_nat i)
  = take (Z.to_nat (len l / w)) (drop (i * Z.to_nat (len l / w)) l).
Proof.
  intros Hw Hi. unfold thread_slice. pose proof (len_nonneg l) as Hl0.
  assert (Hq : 0 <= len l / w) by (apply Z.div_pos; lia).
  assert (Hwq : w * (len l / w) <= len l) by (apply Z.mul_div_le; lia).
  assert (Hlt : (Z.of_nat i <? w - 1) = true) by lia. rewrite Hlt.
  rewrite py_slice_take_drop by nia.
  f_equal; [f_equal; lia|]. f_equal. nia.
Qed.

(** The last worker takes everything that is left. *)
Lemma thread_slice_last l (w : Z) :
  1 <= w ->
  thread_slice l w (len l / w) (w - 1)
  = drop (Z.to_nat ((w - 1) * (len l / w))) l.
Proof.
  intros Hw. unfold thread_slice. pose proof (len_nonneg l) as Hl0.
  assert (Hq : 0 <= len l / w) by (apply Z.div_pos; lia).
  assert (Hwq : w * (len l / w) <= len l) by (apply Z.mul_div_le; lia).
  assert (Hlt : (w - 1 <? w - 1) = false) by lia. rewrite Hlt.
  rewrite py_slice_take_drop by nia.
  apply take_ge. rewrite length_drop. unfold len. lia.
Qed.

Lemma py_range_snoc (w : Z) :
  1 <= w -> py_range w = py_range (w - 1) ++ [w - 1].
Proof.
  intros Hw. unfold py_range.
  replace (Z.to_nat w) with (S (Z.to_nat (w - 1))) by lia.
  rewrite seq_S, map_app. simpl. f_equal. f_equal. lia.
Qed.

Lemma inner_slices l (w : Z) :
  1 <= w ->
  map (thread_slice l w (len l / w)) (py_range (w - 1))
  = map (fun i => take (Z.to_nat (len l / w)) (drop (i * Z.to_nat (len l / w)) l))
        (seq 0 (Z.to_nat (w - 1))).
Proof.
  intros Hw. unfold py_range. rewrite map_map.
  apply map_ext_in. intros i Hi. apply in_seq in Hi.
  apply thread_slice_inner; lia.
Qed.

Lemma thread_slices_split l (w : Z) :
  1 <= w ->
  map (thread_slice l w (len l / w)) (py_range w)
  = map (fun i => take (Z.to_nat (len l / w)) (drop (i * Z.to_nat (len l / w)) l))
        (seq 0 (Z.to_nat (w - 1)))
    ++ [drop (Z.to_nat ((w - 1) * (len l / w))) l].
Proof.
  intros Hw. rewrite py_range_snoc by lia. rewrite map_app. simpl.
  rewrite inner_slices by lia. rewrite thread_slice_last by lia. reflexivity.
Qed.

(** Glued together in order, the slices are the list itself. *)
Lemma thread_slices_concat l (w : Z) :
  1 <= w ->
  concat (map (thread_slice l w (len l / w)) (py_range w)) = l.
Proof.
  intros Hw.
  assert (Hq : 0 <= len l / w) by (apply Z.div_pos; [apply len_nonneg|lia]).
  rewrite thread_slices_split by lia.
  rewrite concat_app, concat_chunks. simpl. rewrite app_nil_r.
  replace (Z.to_nat ((w - 1) * (len l / w)))
    with (Z.to_nat (w - 1) * Z.to_nat (len l / w))%nat by nia.
  apply take_drop.
Qed.

(** Whatever the worker count, the slices hold no more than the list. *)
Lemma thread_slices_bound l (w : Z) slices :
  thread_slices l w = Return slices -> len (concat slices) <= len l.
Proof.
  unfold thread_slices. destruct (w =? 0) eqn:Hz; [discriminate|].
  intros [= <-]. destruct (Z.le_gt_cases 1 w) as [Hw|Hw].
  - rewrite thread_slices_concat by lia. lia.
  - unfold py_range. replace (Z.to_nat w) with 0%nat by lia. simpl.
    apply len_nonneg.
Qed.
End Slices.

Lemma length_concat_sum {A} (ls : list (list A)) :
  length (concat ls) = sum_list (length <$> ls).
Proof.
  induction ls as [|x ls IH]; simpl; [reflexivity|].
  rewrite length_app, IH. reflexivity.
Qed.

(** C2: for a worker count [w] with [1 <= w <= k], the slices handed to the
    [w] workers are contiguous, the first [w - 1] of size [k // w], the last
    taking the rest; glued together in order they are the candidate list
    itself, so every candidate goes to exactly one worker, and the sizes
    add up to [k]. *)
Theorem thread_slices_partition {A} (total_proxies : list A) (w : Z) :
  1 <= w <= len total_proxies ->
  exists slices,
    thread_slices total_proxies w = Return slices
    /\ len slices = w
    /\ concat slices = total_proxies
    /\ (forall (i : nat) s, slices !! i = Some s -> Z.of_nat i < w - 1 ->
          len s = len total_proxies / w)
    /\ (forall s, last slices = Some s ->
          len s = len total_proxies - (w - 1) * (len total_proxies / w))
    /\ sum_list (length <$> slices) = length total_proxies.
Proof.
  intros Hw.
  set (k := len total_proxies) in *.
  set (q := k / w).
  assert (Hq : 0 <= q) by (apply Z.div_pos; lia).
  assert (Hwq : w * q <= k) by (apply Z.mul_div_le; lia).
  unfold thread_slices.
  assert (Hnz : (w =? 0) = false) by lia. rewrite Hnz.
  eexists. split; [reflexivity|].
  fold k. fold q.
  assert (Hsplit :
    map (thread_slice total_proxies w q) (py_range w)
    = map (fun i => take (Z.to_nat q) (drop (i * Z.to_nat q) total_proxies))
          (seq 0 (Z.to_nat (w - 1)))
      ++ [drop (Z.to_nat ((w - 1) * q)) total_proxies])
    by (apply thread_slices_split; lia).
  assert (Hconcat :
    concat (map (thread_slice total_proxies w q) (py_range w)) = total_proxies)
    by (apply thread_slices_concat; lia).
  split; [|split; [exact Hconcat|split; [|split]]].
  - unfold len, py_range. rewrite !length_map, length_seq. lia.
  - intros i s Hi Hlt. rewrite Hsplit in Hi.
    rewrite lookup_app_l in Hi
      by (rewrite length_map, length_seq; lia).
    rewrite list_lookup_fmap in Hi.
    rewrite lookup_seq_lt in Hi by lia. simpl in Hi.
    injection Hi as <-. unfold len.
    rewrite length_take_le; [lia|].
    rewrite length_drop. fold (len total_proxies) in k.
    assert (Z.of_nat (length total_proxies) = k) by reflexivity. nia.
  - intros s Hs. rewrite Hsplit, last_snoc in Hs. injection Hs as <-.
    unfold len. rewrite length_drop.
    assert (Z.of_nat (length total_proxies) = k) by reflexivity. nia.
  - rewrite <- length_concat_sum, Hconcat. reflexivity.
Qed.

(** C2 at a concrete input: seven candidates, three workers. *)
Lemma thread_slices_partition_witness :
  1 <= 3 <= len ["a"; "b"; "c"; "d"; "e"; "f"; "g"]%string
  /\ exists slices,
       thread_slices ["a"; "b"; "c"; "d"; "e"; "f"; "g"]%string 3 = Return slices
       /\ len slices = 3
       /\ concat slices = ["a"; "b"; "c"; "d"; "e"; "f"; "g"]%string
       /\ (forall (i : nat) s, slices !! i = Some s -> Z.of_nat i < 3 - 1 ->
             len s = len ["a"; "b"; "c"; "d"; "e"; "f"; "g"]%string / 3)
       /\ (forall s, last slices = Some s ->
             len s = len ["a"; "b"; "c"; "d"; "e"; "f"; "g"]%string
                     - (3 - 1) * (len ["a"; "b"; "c"; "d"; "e"; "f"; "g"]%string / 3))
       /\ sum_list (length <$> slices)
          = length ["a"; "b"; "c"; "d"; "e"; "f"; "g"]%string.
Proof.
  split; [vm_compute; split; discriminate|].
  apply (thread_slices_partition ["a"; "b"; "c"; "d"; "e"; "f"; "g"]%string 3).
  vm_compute; split; discriminate.
Defined.

Example thread_slices_seven_by_three :
  thread_slices ["a"; "b"; "c"; "d"; "e"; "f"; "g"]%string 3
  = Return [["a"; "b"]; ["c"; "d"]; ["e"; "f"; "g"]]%string.
Proof. reflexivity. Qed.

(** ** The worker pool: invariants of every interleaving *)

Lemma tally_insert (f : Worker -> Z) (ws : list Worker) (i : nat) (w w' : Worker) :
  ws !! i = Some w -> tally f (<[i := w']> ws) = tally f ws - f w + f w'.
Proof.
  revert i. induction ws as [|x ws IH]; intros [|i] Hi; simpl in *;
    try discriminate.
  - injection Hi as ->. lia.
  - rewrite (IH i Hi). lia.
Qed.

Lemma tally_start (f : Worker -> Z) (slices : list (list string)) :
  (forall batch, f (mkWorker NextProxy batch) = 0) ->
  tally f (map (mkWorker NextProxy) slices) = 0.
Proof.
  intros Hf. induction slices as [|b bs IH]; simpl; [reflexivity|].
  rewrite Hf, IH. reflexivity.
Qed.

Lemma tally_pending_start (slices : list (list string)) :
  tally pending (map (mkWorker NextProxy) slices) = len (concat slices).
Proof.
  induction slices as [|b bs IH]; simpl; [reflexivity|].
  rewrite IH. unfold pending, len. simpl. rewrite length_app. lia.
Qed.

Lemma start_pool_inv (slices : list (list string)) :
  pool_inv (len (concat slices)) (start_pool slices).
Proof.
  split; simpl.
  - intros i w Hi Hc. rewrite list_lookup_fmap in Hi.
    destruct (slices !! i); simpl in Hi; [|discriminate].
    injection Hi as <-. discriminate Hc.
  - rewrite tally_pending_start. lia.
  - rewrite tally_start by reflexivity. reflexivity.
  - rewrite tally_start by reflexivity. reflexivity.
Qed.

(** The lock part of the invariant, after worker [i] has moved. *)
Ltac lock_after_step Hinv Hw :=
  let j := fresh "j" in let wj := fresh "wj" in
  let Hj := fresh "Hj" in let Hc := fresh "Hc" in
  intros j wj Hj Hc; simpl in Hj;
  apply list_lookup_insert_Some in Hj as [(-> & <- & _) | (Hne & Hj)];
  [ first [ discriminate Hc | reflexivity ]
  | pose proof (inv_lock _ _ Hinv _ _ Hj Hc) as Hlj;
    try (pose proof (inv_lock _ _ Hinv _ _ Hw eq_refl) as Hli);
    simpl in *; congruence ].

(** An arithmetic part of the invariant, after worker [i] has moved. *)
Ltac tally_after_step Hw :=
  rewrite (tally_insert _ _ _ _ _ Hw);
  repeat match goal with
         | |- context [tally ?f (workers ?s)] =>
             let T := fresh "T" in
             set (T := tally f (workers s)) in *; clearbody T
         end;
  repeat match goal with
         | |- context [probe_ok ?r] => destruct (probe_ok r)
         end;
  unfold pending, probing, appending, successes, len in *; simpl in *;
  rewrite ?length_app; simpl; lia.

Lemma worker_step_inv (k : Z) (i : nat) (r : ProbeReply) (s s' : Pool) :
  pool_inv k s -> worker_step i r s = Some s' -> pool_inv k s'.
Proof.
  intros Hinv Hstep. unfold worker_step in Hstep.
  destruct (workers s !! i) as [[p td]|] eqn:Hw; [|discriminate].
  pose proof (inv_count _ _ Hinv) as Hc.
  pose proof (inv_probed _ _ Hinv) as Hp.
  pose proof (inv_active _ _ Hinv) as Ha.
  destruct p; simpl in Hstep.
  - (* NextProxy *)
    destruct td as [|proxy rest].
    + injection Hstep as <-.
      split; simpl; [lock_after_step Hinv Hw | tally_after_step Hw ..].
    + destruct (lock s) eqn:Hl; [discriminate|]. injection Hstep as <-.
      split; simpl; [lock_after_step Hinv Hw | tally_after_step Hw ..].
  - (* CountLocked *)
    injection Hstep as <-.
    split; simpl; [lock_after_step Hinv Hw | tally_after_step Hw ..].
  - (* Probing *)
    injection Hstep as <-.
    split; simpl;
      [destruct (probe_ok r); lock_after_step Hinv Hw | tally_after_step Hw ..].
  - (* AppendWait *)
    destruct (lock s) eqn:Hl; [discriminate|]. injection Hstep as <-.
    split; simpl; [lock_after_step Hinv Hw | tally_after_step Hw ..].
  - (* AppendLocked *)
    injection Hstep as <-.
    split; simpl; [lock_after_step Hinv Hw | tally_after_step Hw ..].
  - discriminate.
Qed.

Lemma run_schedule_inv (k : Z) (sched : Schedule) (s s' : Pool) :
  pool_inv k s -> run_schedule sched s = Some s' -> pool_inv k s'.
Proof.
  revert s. induction sched as [|[i r] sched IH]; intros s Hinv Hrun; simpl in Hrun.
  - injection Hrun as <-. exact Hinv.
  - destruct (worker_step i r s) as [s1|] eqn:Hstep; [|discriminate].
    eapply IH; [|exact Hrun]. eapply worker_step_inv; eassumption.
Qed.

Lemma reachable_inv (slices : list (list string)) (s : Pool) :
  reachable slices s -> pool_inv (len (concat slices)) s.
Proof.
  intros [sched Hrun]. eapply run_schedule_inv; [apply start_pool_inv|exact Hrun].
Qed.

Lemma tally_nonneg (f : Worker -> Z) (ws : list Worker) :
  (forall w, 0 <= f w) -> 0 <= tally f ws.
Proof.
  intros Hf. induction ws as [|w ws IH]; simpl; [lia|]. specialize (Hf w). lia.
Qed.

Lemma pending_nonneg w : 0 <= pending w.
Proof. unfold pending, len. destruct (pc w); lia. Qed.

Lemma probing_nonneg w : 0 <= probing w.
Proof. unfold probing. destruct (pc w); lia. Qed.

Lemma appending_nonneg w : 0 <= appending w.
Proof. unfold appending. destruct (pc w); lia. Qed.

Lemma successes_le (log : list (string * ProbeReply)) :
  len (successes log) <= len log.
Proof.
  unfold successes, len. pose proof (filter_length_le (fun pr => probe_ok pr.2) log).
  lia.
Qed.

(** ** The worker pool: the lock and the two shared variables *)

(** A step that changes [count] or [active_proxies] is the second step of
    a [with lock] block. *)
Lemma mutation_in_critical (i : nat) (r : ProbeReply) (s s' : Pool) :
  worker_step i r s = Some s' ->
  count s' <> count s \/ active_proxies s' <> active_proxies s ->
  exists w, workers s !! i = Some w /\ in_critical w = true /\ lock s' = None.
Proof.
  unfold worker_step. intros Hstep Hmut.
  destruct (workers s !! i) as [[p td]|] eqn:Hw; [|discriminate].
  exists (mkWorker p td). split; [reflexivity|].
  destruct p; simpl in Hstep;
    repeat match type of Hstep with
           | context [match ?x with _ => _ end] => destruct x
           end;
    try discriminate; injection Hstep as <-; simpl in *;
    first [ split; reflexivity | destruct Hmut as [H|H]; contradiction ].
Qed.

(** C8, as stated, fails: two workers on two live candidates reach a pool
    in which the progress counter is 2 while one result has been appended;
    the increment of worker 1 fell between the increment and the append of
    worker 0, so increment-and-append is not one atomic unit. *)
Lemma progress_overtakes_appended :
  thread_slices ["a"; "b"]%string 2 = Return [["a"]; ["b"]]%string
  /\ run_schedule overtaking_schedule (start_pool [["a"]; ["b"]]%string)
     = Some overtaken_pool
  /\ count overtaken_pool = 2
  /\ len (active_proxies overtaken_pool) = 1
  /\ ~ (forall slices s, reachable slices s -> count s <= len (active_proxies s)).
Proof.
  repeat split; try reflexivity.
  intros H.
  specialize (H [["a"]; ["b"]]%string overtaken_pool).
  assert (Hr : reachable [["a"]; ["b"]]%string overtaken_pool)
    by (exists overtaking_schedule; reflexivity).
  specialize (H Hr). vm_compute in H. apply H. reflexivity.
Qed.

(** C8, amended: in every pool that an interleaving of the workers
    reaches, a step that changes the progress counter or the result list
    is taken by the worker that holds the one lock (and releases it); at
    most one worker is inside a locked block; and the number of appended
    results never exceeds the progress counter, which never exceeds the
    number of candidates.  The increment and the append are two separate
    locked blocks around the probe. *)
Theorem lock_guards_count_and_results (total_proxies : list string)
    (w : Z) (slices : list (list string)) (s : Pool) :
  thread_slices total_proxies w = Return slices ->
  reachable slices s ->
  (forall i r s', worker_step i r s = Some s' ->
     count s' <> count s \/ active_proxies s' <> active_proxies s ->
     lock s = Some i /\ lock s' = None)
  /\ (forall i j wi wj,
        workers s !! i = Some wi -> workers s !! j = Some wj ->
        in_critical wi = true -> in_critical wj = true -> i = j)
  /\ len (active_proxies s) <= count s <= len total_proxies.
Proof.
  intros Hslices Hreach.
  pose proof (reachable_inv _ _ Hreach) as Hinv.
  pose proof (thread_slices_bound _ _ _ Hslices) as Hk.
  split; [|split].
  - intros i r s' Hstep Hmut.
    destruct (mutation_in_critical _ _ _ _ Hstep Hmut) as (wi & Hw & Hc & Hl).
    split; [|exact Hl]. exact (inv_lock _ _ Hinv _ _ Hw Hc).
  - intros i j wi wj Hi Hj Hci Hcj.
    pose proof (inv_lock _ _ Hinv _ _ Hi Hci) as Hli.
    pose proof (inv_lock _ _ Hinv _ _ Hj Hcj) as Hlj. congruence.
  - pose proof (inv_count _ _ Hinv). pose proof (inv_probed _ _ Hinv).
    pose proof (inv_active _ _ Hinv).
    pose proof (tally_nonneg pending (workers s) pending_nonneg).
    pose proof (tally_nonneg probing (workers s) probing_nonneg).
    pose proof (tally_nonneg appending (workers s) appending_nonneg).
    pose proof (successes_le (probed s)). lia.
Qed.

(** C8, amended, at the pool of the interleaving above. *)
Lemma lock_guards_count_and_results_witness :
  thread_slices ["a"; "b"]%string 2 = Return [["a"]; ["b"]]%string
  /\ reachable [["a"]; ["b"]]%string overtaken_pool
  /\ ((forall i r s', worker_step i r overtaken_pool = Some s' ->
         count s' <> count overtaken_pool
         \/ active_proxies s' <> active_proxies overtaken_pool ->
         lock overtaken_pool = Some i /\ lock s' = None)
      /\ (forall i j wi wj,
            workers overtaken_pool !! i = Some wi ->
            workers overtaken_pool !! j = Some wj ->
            in_critical wi = true -> in_critical wj = true -> i = j)
      /\ len (active_proxies overtaken_pool) <= count overtaken_pool
         <= len ["a"; "b"]%string).
Proof.
  assert (H1 : thread_slices ["a"; "b"]%string 2 = Return [["a"]; ["b"]]%string)
    by reflexivity.
  assert (H2 : reachable [["a"]; ["b"]]%string overtaken_pool)
    by (exists overtaking_schedule; reflexivity).
  split; [exact H1|]. split; [exact H2|].
  exact (lock_guards_count_and_results _ _ _ _ H1 H2).
Defined.

(** ** The proxy filter when no candidate answers *)

Lemma run_schedule_app (a b : Schedule) (s : Pool) :
  run_schedule (a ++ b) s
  = match run_schedule a s with
    | Some s' => run_schedule b s'
    | None => None
    end.
Proof.
  revert s. induction a as [|[i r] a IH]; intros s; simpl; [reflexivity|].
  destruct (worker_step i r s); [apply IH|reflexivity].
Qed.

(** Alone and with every probe raising, a worker runs its batch to the
    end; it leaves the lock free and the result list as it found it. *)
Lemma failing_batch_runs (batch : list string) (i : nat) (s : Pool) :
  workers s !! i = Some (mkWorker NextProxy batch) ->
  lock s = None ->
  exists s',
    run_schedule (failing_batch i batch) s = Some s'
    /\ workers s' = <[i := mkWorker Finished []]> (workers s)
    /\ lock s' = None
    /\ active_proxies s' = active_proxies s.
Proof.
  revert s. induction batch as [|proxy rest IH]; intros s Hw Hl.
  - unfold failing_batch. simpl. unfold worker_step. rewrite Hw. simpl.
    eexists. split; [reflexivity|]. simpl. auto.
  - assert (Hi : (i < length (workers s))%nat) by (eapply lookup_lt_Some; eauto).
    unfold failing_batch. simpl.
    unfold worker_step at 1. rewrite Hw. simpl. rewrite Hl.
    unfold worker_step at 1. simpl.
    rewrite list_lookup_insert_eq by exact Hi. simpl.
    unfold worker_step at 1. simpl.
    rewrite list_lookup_insert_eq by (rewrite length_insert; exact Hi). simpl.
    rewrite !list_insert_insert_eq.
    match goal with
    | |- context [run_schedule _ ?s1] =>
        destruct (IH s1) as (s' & Hrun & Hws & Hls & Has)
    end.
    + simpl. apply list_lookup_insert_eq. exact Hi.
    + reflexivity.
    + exists s'. split; [exact Hrun|]. simpl in *.
      rewrite list_insert_insert_eq in Hws. auto.
Qed.

Lemma failing_run_runs (slices : list (list string)) (done : list Worker) (s : Pool) :
  workers s = done ++ map (mkWorker NextProxy) slices ->
  forallb worker_finished done = true ->
  lock s = None ->
  exists s',
    run_schedule (failing_run (length done) slices) s = Some s'
    /\ all_joined s' = true
    /\ active_proxies s' = active_proxies s.
Proof.
  revert done s. induction slices as [|batch rest IH]; intros done s Hws Hdone Hl.
  - exists s. simpl in *. rewrite app_nil_r in Hws.
    unfold all_joined. rewrite Hws. auto.
  - simpl in Hws.
    assert (Hw : workers s !! length done = Some (mkWorker NextProxy batch))
      by (rewrite Hws; apply list_lookup_middle; reflexivity).
    destruct (failing_batch_runs batch (length done) s Hw Hl)
      as (s1 & Hrun1 & Hws1 & Hl1 & Ha1).
    rewrite Hws in Hws1.
    rewrite insert_app_r_alt in Hws1 by lia.
    rewrite Nat.sub_diag in Hws1. simpl in Hws1.
    destruct (IH (done ++ [mkWorker Finished []]) s1) as (s' & Hrun & Hj & Ha).
    + rewrite Hws1, <- app_assoc. reflexivity.
    + rewrite forallb_app, Hdone. reflexivity.
    + exact Hl1.
    + exists s'. simpl. rewrite run_schedule_app, Hrun1.
      rewrite length_app in Hrun. simpl in Hrun.
      replace (S (length done)) with (length done + 1)%nat by lia.
      split; [exact Hrun|]. split; [exact Hj|]. congruence.
Qed.

Lemma failing_batch_all_fail (i : nat) (batch : list string) :
  Forall (fun a => probe_ok (snd a) = false) (failing_batch i batch).
Proof.
  unfold failing_batch. apply Forall_app. split.
  - induction batch as [|p rest IH]; simpl; [constructor|].
    repeat (constructor; [reflexivity|]). exact IH.
  - constructor; [reflexivity|constructor].
Qed.

Lemma failing_run_all_fail (i : nat) (slices : list (list string)) :
  Forall (fun a => probe_ok (snd a) = false) (failing_run i slices).
Proof.
  revert i. induction slices as [|b bs IH]; intros i; simpl; [constructor|].
  apply Forall_app. split; [apply failing_batch_all_fail|apply IH].
Qed.

Lemma successes_none (log : list (string * ProbeReply)) :
  Forall (fun pr => probe_ok (snd pr) = false) log -> successes log = [].
Proof.
  induction 1 as [|pr log Hpr _ IH]; [reflexivity|].
  unfold successes in *. simpl. rewrite Hpr. exact IH.
Qed.

Lemma joined_no_appending (ws : list Worker) :
  forallb worker_finished ws = true -> tally appending ws = 0.
Proof.
  induction ws as [|w ws IH]; simpl; [reflexivity|].
  intros H. apply andb_prop in H as [Hw Hws]. rewrite (IH Hws).
  unfold worker_finished in Hw. unfold appending.
  destruct (pc w); try discriminate; reflexivity.
Qed.

(** C7: when no probe succeeds, every complete run of the filter, whatever
    the interleaving of its workers, ends with an empty result list and
    raises "No active proxies found" instead of returning; and such a run
    exists for every candidate list. *)
Theorem filter_proxies_all_fail (cfg : Config) (total_proxies : list string) :
  thread_num cfg <> 0 ->
  (forall sched slices s,
     thread_slices total_proxies (thread_num cfg) = Return slices ->
     run_schedule sched (start_pool slices) = Some s ->
     all_joined s = true ->
     Forall (fun pr => probe_ok (snd pr) = false) (probed s) ->
     active_proxies s = []
     /\ filter_proxies cfg total_proxies sched
        = Some (Raise (RuntimeError NoActiveProxies)))
  /\ (exists sched,
        Forall (fun a => probe_ok (snd a) = false) sched
        /\ filter_proxies cfg total_proxies sched
           = Some (Raise (RuntimeError NoActiveProxies))).
Proof.
  intros Hnz. split.
  - intros sched slices s Hslices Hrun Hjoin Hfail.
    assert (Hinv : pool_inv (len (concat slices)) s)
      by (apply reachable_inv; exists sched; exact Hrun).
    pose proof (inv_active _ _ Hinv) as Ha.
    rewrite (successes_none _ Hfail) in Ha.
    rewrite (joined_no_appending _ Hjoin) in Ha.
    assert (Hempty : active_proxies s = []).
    { destruct (active_proxies s); [reflexivity|].
      unfold len in Ha. simpl in Ha. lia. }
    split; [exact Hempty|].
    unfold filter_proxies. rewrite Hslices, Hrun, Hjoin.
    unfold filter_result. rewrite Hempty. reflexivity.
  - unfold filter_proxies, thread_slices.
    assert (Hz : (thread_num cfg =? 0) = false) by lia. rewrite Hz.
    set (slices := map _ _).
    destruct (failing_run_runs slices [] (start_pool slices))
      as (s' & Hrun & Hj & Ha); try reflexivity.
    exists (failing_run 0 slices). split; [apply failing_run_all_fail|].
    simpl in Hrun. rewrite Hrun, Hj. unfold filter_result. rewrite Ha.
    reflexivity.
Qed.

(** C7 with the default configuration and three candidates. *)
Lemma filter_proxies_all_fail_witness :
  thread_num default_config <> 0
  /\ (forall sched slices s,
        thread_slices ["a"; "b"; "c"]%string (thread_num default_config)
          = Return slices ->
        run_schedule sched (start_pool slices) = Some s ->
        all_joined s = true ->
        Forall (fun pr => probe_ok (snd pr) = false) (probed s) ->
        active_proxies s = []
        /\ filter_proxies default_config ["a"; "b"; "c"]%string sched
           = Some (Raise (RuntimeError NoActiveProxies)))
  /\ (exists sched,
        Forall (fun a => probe_ok (snd a) = false) sched
        /\ filter_proxies default_config ["a"; "b"; "c"]%string sched
           = Some (Raise (RuntimeError NoActiveProxies))).
Proof.
  assert (H : thread_num default_config <> 0) by (simpl; lia).
  split; [exact H|].
  exact (filter_proxies_all_fail default_config ["a"; "b"; "c"]%string H).
Defined.

(** ** The dispatch loop *)

Section Dispatch.
Context `{World W}.
Implicit Types (s : LoopState W) (cfg : Config) (bvid proxy : string).

(** *** The periodic update *)

Lemma update_view_count_reached bvid target s i' v w' :
  fetch_views bvid (world s) = (Return (i', v), w') ->
  target <= v ->
  update_view_count bvid target s
  = (true,
     mkLoop w' (stats s) v i'
            (Progress v target (successful_hits (stats s))
                      (v - initial_view_count (stats s)) DoneMsg
             :: GetInfo bvid :: progress target Updating s :: trace s)).
Proof.
  intros Hf Hv. unfold update_view_count. simpl. rewrite Hf.
  assert (Hle : (target <=? v) = true) by lia. rewrite Hle. reflexivity.
Qed.

Lemma update_view_count_below bvid target s i' v w' :
  fetch_views bvid (world s) = (Return (i', v), w') ->
  v < target ->
  update_view_count bvid target s
  = (false,
     mkLoop w' (stats s) v i'
            (GetInfo bvid :: progress target Updating s :: trace s)).
Proof.
  intros Hf Hv. unfold update_view_count. simpl. rewrite Hf.
  assert (Hle : (target <=? v) = false) by lia. rewrite Hle. reflexivity.
Qed.

Lemma update_view_count_failed bvid target s e w' :
  fetch_views bvid (world s) = (Raise e, w') ->
  update_view_count bvid target s
  = (false,
     mkLoop w' (stats s) (current_views s) (info s)
            (Log WARNING (FailedUpdateViewCount e)
             :: GetInfo bvid :: progress target Updating s :: trace s)).
Proof. intros Hf. unfold update_view_count. simpl. rewrite Hf. reflexivity. Qed.

(** *** The round, piece by piece *)

Lemma round_loop_app cfg bvid target n i (l1 l2 : list string) s :
  round_loop cfg bvid target n i (l1 ++ l2) s
  = match round_loop cfg bvid target n i l1 s with
    | (Next, s') => round_loop cfg bvid target n (i + len l1) l2 s'
    | other => other
    end.
Proof.
  revert i s. induction l1 as [|p l1 IH]; intros i s; simpl.
  - replace (i + len []) with i by (unfold len; simpl; lia). reflexivity.
  - destruct (round_body cfg bvid target n i p s) as [[| |e] s'];
      try reflexivity.
    rewrite IH. replace (i + 1 + len l1) with (i + len (p :: l1))
      by (unfold len; simpl; lia).
    reflexivity.
Qed.

Lemma round_body_poll cfg bvid target n i proxy s :
  update_pbar_count cfg <> 0 ->
  i mod update_pbar_count cfg = 0 ->
  round_body cfg bvid target n i proxy s
  = match update_view_count bvid target s with
    | (true, s') => (Break, s')
    | (false, s') => send_click bvid target n i proxy s'
    end.
Proof.
  intros Hn Hi. unfold round_body.
  assert (E1 : (update_pbar_count cfg =? 0) = false) by lia.
  assert (E2 : (i mod update_pbar_count cfg =? 0) = true) by lia.
  rewrite E1, E2. reflexivity.
Qed.

Lemma round_body_no_poll cfg bvid target n i proxy s :
  update_pbar_count cfg <> 0 ->
  i mod update_pbar_count cfg <> 0 ->
  round_body cfg bvid target n i proxy s = send_click bvid target n i proxy s.
Proof.
  intros Hn Hi. unfold round_body.
  assert (E1 : (update_pbar_count cfg =? 0) = false) by lia.
  assert (E2 : (i mod update_pbar_count cfg =? 0) = false) by lia.
  rewrite E1, E2. reflexivity.
Qed.

(** *** The end of the run *)

Lemma finalize_reports (proxies : list string) bvid s :
  (exists final_views, outcome (finalize proxies bvid s) = Reported final_views)
  /\ clicks (end_trace (finalize proxies bvid s)) = clicks (trace s)
  /\ successful_hits (end_stats (finalize proxies bvid s))
     = successful_hits (stats s).
Proof.
  unfold finalize, print_final_statistics.
  destruct (fetch_views bvid (world s)) as [r w'].
  rewrite success_rate_value. simpl. eauto.
Qed.

(** C1: when the update at proxy number [len done] of a round succeeds
    and reads a counter at or above the target, the round breaks there:
    the proxies from that one on get no click request, the statistics
    are those held before the update, the [while] loop exits, and the
    run goes on to its final report without any further click. *)
Theorem poll_at_target_ends_round cfg (proxies done rest : list string)
    proxy bvid target fuel s s_i i' v w' :
  update_pbar_count cfg <> 0 ->
  proxies = done ++ proxy :: rest ->
  len done mod update_pbar_count cfg = 0 ->
  current_views s < target ->
  round_loop cfg bvid target (len proxies) 0 done s = (Next, s_i) ->
  fetch_views bvid (world s_i) = (Return (i', v), w') ->
  target <= v ->
  exists s_f,
    round_loop cfg bvid target (len proxies) 0 proxies s = (Break, s_f)
    /\ dispatch_rounds (S fuel) cfg proxies bvid target s = (Exited, s_f)
    /\ clicks (trace s_f) = clicks (trace s_i)
    /\ stats s_f = stats s_i
    /\ current_views s_f = v
    /\ (exists final_views,
          outcome (finalize proxies bvid s_f) = Reported final_views)
    /\ clicks (end_trace (finalize proxies bvid s_f)) = clicks (trace s_i).
Proof.
  intros Hn Hsplit Hmod Hlt Hdone Hfetch Hv.
  assert (Hround :
    round_loop cfg bvid target (len proxies) 0 proxies s
    = (Break,
       mkLoop w' (stats s_i) v i'
              (Progress v target (successful_hits (stats s_i))
                        (v - initial_view_count (stats s_i)) DoneMsg
               :: GetInfo bvid :: progress target Updating s_i :: trace s_i))).
  { rewrite Hsplit at 2. rewrite round_loop_app, Hdone. simpl.
    rewrite round_body_poll by (try exact Hn; rewrite Z.add_0_l; exact Hmod).
    rewrite (update_view_count_reached _ _ _ _ _ _ Hfetch Hv). reflexivity. }
  eexists. split; [exact Hround|].
  split.
  { simpl. assert (E : (current_views s <? target) = true) by lia.
    rewrite E, Hround. reflexivity. }
  split; [reflexivity|]. split; [reflexivity|]. split; [reflexivity|].
  match goal with
  | |- context [finalize proxies bvid ?sf] =>
      destruct (finalize_reports proxies bvid sf) as (Hrep & Hcl & _)
  end.
  split; [exact Hrep|]. rewrite Hcl. reflexivity.
Qed.

(** *** One click request *)

(** C4, as stated, fails: a click answered with status 204 has an
    HTTP-success status, and the source, which tests [status_code == 200],
    counts no hit for it. *)
Lemma accepted_click_is_not_counted :
  fst (click_api "p0" (mkClick 123456 789012 "BV1" 345678 1)
                 (world no_content_state)) = PostStatus 204
  /\ spec_http_success (PostStatus 204) = true
  /\ fst (send_click "BV1" 1000 1 0 "p0" no_content_state) = Next
  /\ successful_hits (stats (snd (send_click "BV1" 1000 1 0 "p0" no_content_state)))
     = successful_hits (stats no_content_state)
  /\ ~ (successful_hits
          (stats (snd (send_click "BV1" 1000 1 0 "p0" no_content_state)))
        = successful_hits (stats no_content_state) + 1
        <-> spec_http_success
              (fst (click_api "p0" (mkClick 123456 789012 "BV1" 345678 1)
                              (world no_content_state))) = true).
Proof.
  split; [reflexivity|]. split; [reflexivity|]. split; [reflexivity|].
  split; [reflexivity|].
  intros [_ Hback]. specialize (Hback eq_refl). vm_compute in Hback.
  discriminate Hback.
Qed.

(** C4, amended: a click request adds exactly one to [successful_hits]
    when the response has status 200 and leaves the statistics untouched
    for any other status, the other 2xx included, and for a
    [requests.RequestException]; in every case the body ends normally and
    the loop goes on with the next proxy.  A hit is always an HTTP
    success; the converse is what fails. *)
Theorem click_counts_hit_iff_ok cfg bvid target n i proxy
    (rest : list string) s data :
  update_pbar_count cfg <> 0 ->
  click_data bvid (info s) = Return data ->
  exists s',
    send_click bvid target n i proxy s = (Next, s')
    /\ (successful_hits (stats s') = successful_hits (stats s) + 1
        <-> fst (click_api proxy data (world s)) = PostStatus 200)
    /\ (fst (click_api proxy data (world s)) <> PostStatus 200 ->
        stats s' = stats s)
    /\ (fst (click_api proxy data (world s)) = PostStatus 200 ->
        stats s' = add_hit (stats s))
    /\ clicks (trace s') = Click proxy data :: clicks (trace s)
    /\ (i mod update_pbar_count cfg <> 0 ->
        round_loop cfg bvid target n i (proxy :: rest) s
        = round_loop cfg bvid target n (i + 1) rest s')
    /\ (forall s0,
          i mod update_pbar_count cfg = 0 ->
          update_view_count bvid target s0 = (false, s) ->
          round_loop cfg bvid target n i (proxy :: rest) s0
          = round_loop cfg bvid target n (i + 1) rest s')
    /\ (successful_hits (stats s') = successful_hits (stats s) + 1 ->
        spec_http_success (fst (click_api proxy data (world s))) = true).
Proof.
  intros Hn Hdata.
  assert (Hloop : forall s',
    send_click bvid target n i proxy s = (Next, s') ->
    (i mod update_pbar_count cfg <> 0 ->
     round_loop cfg bvid target n i (proxy :: rest) s
     = round_loop cfg bvid target n (i + 1) rest s')
    /\ (forall s0,
          i mod update_pbar_count cfg = 0 ->
          update_view_count bvid target s0 = (false, s) ->
          round_loop cfg bvid target n i (proxy :: rest) s0
          = round_loop cfg bvid target n (i + 1) rest s')).
  { intros s' Hs'. split.
    - intros Hi. simpl. rewrite round_body_no_poll by assumption.
      rewrite Hs'. reflexivity.
    - intros s0 Hi Hu. simpl. rewrite round_body_poll by assumption.
      rewrite Hu, Hs'. reflexivity. }
  revert Hloop. unfold send_click. rewrite Hdata.
  destruct (click_api proxy data (world s)) as [reply w'] eqn:Hreply.
  simpl. intros Hloop.
  destruct reply as [status_code|].
  - destruct (status_code =? 200) eqn:Hst.
    + assert (status_code = 200) by lia. subst status_code.
      eexists. split; [reflexivity|]. simpl.
      destruct (Hloop _ eq_refl) as [H1 H2].
      repeat split; auto; try lia. intros Hne. contradiction.
    + eexists. split; [reflexivity|]. simpl.
      destruct (Hloop _ eq_refl) as [H1 H2].
      repeat split; auto; try lia.
      * intros [= ->]. discriminate Hst.
      * intros [= ->]. discriminate Hst.
  - eexists. split; [reflexivity|]. simpl.
    destruct (Hloop _ eq_refl) as [H1 H2].
    repeat split; auto; try lia; discriminate.
Qed.

(** *** A failed update *)

Lemma send_click_next bvid target n i proxy s data :
  click_data bvid (info s) = Return data ->
  exists s',
    send_click bvid target n i proxy s = (Next, s')
    /\ clicks (trace s') = Click proxy data :: clicks (trace s)
    /\ current_views s' = current_views s
    /\ info s' = info s.
Proof.
  intros Hdata. unfold send_click. rewrite Hdata.
  destruct (click_api proxy data (world s)) as [[status_code|] w'].
  - destruct (status_code =? 200); eexists; (split; [reflexivity|]);
      simpl; auto.
  - eexists. split; [reflexivity|]. simpl. auto.
Qed.

(** C6: a failed update changes neither the snapshot in use, nor the
    last counter value, nor the statistics; it only logs a warning.  The
    click request that follows is built from the old snapshot, and the
    loop goes on with the next proxy. *)
Theorem failed_poll_keeps_snapshot cfg bvid target n i proxy
    (rest : list string) s e w' data :
  update_pbar_count cfg <> 0 ->
  i mod update_pbar_count cfg = 0 ->
  fetch_views bvid (world s) = (Raise e, w') ->
  click_data bvid (info s) = Return data ->
  exists s1 s2,
    update_view_count bvid target s = (false, s1)
    /\ info s1 = info s
    /\ current_views s1 = current_views s
    /\ stats s1 = stats s
    /\ trace s1 = Log WARNING (FailedUpdateViewCount e) :: GetInfo bvid
                  :: progress target Updating s :: trace s
    /\ send_click bvid target n i proxy s1 = (Next, s2)
    /\ clicks (trace s2) = Click proxy data :: clicks (trace s)
    /\ info s2 = info s
    /\ current_views s2 = current_views s
    /\ round_loop cfg bvid target n i (proxy :: rest) s
       = round_loop cfg bvid target n (i + 1) rest s2.
Proof.
  intros Hn Hi Hf Hdata.
  pose proof (update_view_count_failed bvid target s e w' Hf) as Hu.
  eexists. 
  match type of Hu with
  | _ = (false, ?s1) =>
      destruct (send_click_next bvid target n i proxy s1 data Hdata)
        as (s2 & Hs2 & Hcl & Hcv & Hin)
  end.
  exists s2. split; [exact Hu|]. simpl in *.
  repeat split; auto.
  rewrite round_body_poll by assumption. rewrite Hu, Hs2. reflexivity.
Qed.

(** *** The trace only grows *)





(** *** The first proxy of a round *)


(** *** The wait between two rounds *)

Lemma countdown_frame target (l : list Z) s :
  stats (fold_left (tick target) l s) = stats s
  /\ current_views (fold_left (tick target) l s) = current_views s
  /\ info (fold_left (tick target) l s) = info s.
Proof.
  revert s. induction l as [|x l IH]; intros s; simpl; [auto|].
  destruct (IH (tick target s x)) as (H1 & H2 & H3).
  rewrite H1, H2, H3. auto.
Qed.

Lemma countdown_trace target (l : list Z) s :
  trace (fold_left (tick target) l s)
  = flat_map (fun second => [Sleep; progress target (NextRound second) s])
             (rev l)
    ++ trace s.
Proof.
  revert s. induction l as [|x l IH]; intros s; simpl; [reflexivity|].
  rewrite IH, flat_map_app. simpl. rewrite <- app_assoc. reflexivity.
Qed.

Lemma sleeps_countdown (f : Z -> Event) (l : list Z) (tr : list Event) :
  (forall x, is_sleep (f x) = false) ->
  sleeps (flat_map (fun x => [Sleep; f x]) l ++ tr)
  = (length l + sleeps tr)%nat.
Proof.
  intros Hf. unfold sleeps. induction l as [|x l IH]; simpl; [reflexivity|].
  rewrite Hf. simpl. rewrite IH. reflexivity.
Qed.

Lemma wait_next_round_trace target remain s :
  trace (wait_next_round target remain s)
  = flat_map (fun second => [Sleep; progress target (NextRound second) s])
             (py_range remain)
    ++ trace s.
Proof.
  unfold wait_next_round. destruct (0 <? remain) eqn:E.
  - rewrite countdown_trace, rev_involutive. reflexivity.
  - unfold py_range. replace (Z.to_nat remain) with 0%nat by lia. reflexivity.
Qed.

Lemma wait_next_round_sleeps target remain s :
  sleeps (trace (wait_next_round target remain s))
  = (Z.to_nat remain + sleeps (trace s))%nat.
Proof.
  rewrite wait_next_round_trace.
  rewrite (sleeps_countdown (fun x => progress target (NextRound x) s))
    by reflexivity.
  unfold py_range. rewrite length_map, length_seq. reflexivity.
Qed.

(** Every pass of the countdown really sleeps: the world after the
    countdown is the world before it with [sleep] applied once per pass. *)
Lemma countdown_world target (l : list Z) s :
  world (fold_left (tick target) l s) = Nat.iter (length l) sleep (world s).
Proof.
  revert s. induction l as [|x l IH]; intros s; [reflexivity|].
  simpl fold_left. rewrite IH. simpl length. rewrite Nat.iter_succ_r.
  reflexivity.
Qed.

Lemma wait_next_round_world target remain s :
  world (wait_next_round target remain s)
  = Nat.iter (Z.to_nat remain) sleep (world s).
Proof.
  unfold wait_next_round. destruct (0 <? remain) eqn:E.
  - rewrite countdown_world. unfold py_range.
    rewrite length_rev, length_map, length_seq. reflexivity.
  - replace (Z.to_nat remain) with 0%nat by lia. reflexivity.
Qed.

Lemma wait_next_round_frame target remain s :
  stats (wait_next_round target remain s) = stats s
  /\ current_views (wait_next_round target remain s) = current_views s
  /\ info (wait_next_round target remain s) = info s.
Proof.
  unfold wait_next_round. destruct (0 <? remain); [|auto].
  apply countdown_frame.
Qed.
End Dispatch.

Lemma remain_seconds_whole (round_time secs : Z) :
  remain_seconds round_time (secs * 1000000) = round_time - secs.
Proof.
  unfold remain_seconds.
  replace (round_time * 1000000 - secs * 1000000)
    with ((round_time - secs) * 1000000) by lia.
  apply Z.quot_mul. lia.
Qed.

Lemma remain_seconds_positive (round_time elapsed : Z) :
  0 < round_time * 1000000 - elapsed ->
  remain_seconds round_time elapsed = (round_time * 1000000 - elapsed) / 1000000.
Proof. intros Hpos. unfold remain_seconds. apply Z.quot_div_nonneg; lia. Qed.

Lemma remain_seconds_overrun (round_time elapsed : Z) :
  round_time * 1000000 <= elapsed -> remain_seconds round_time elapsed <= 0.
Proof.
  intros Hle. unfold remain_seconds.
  replace (round_time * 1000000 - elapsed)
    with (- (elapsed - round_time * 1000000)) by lia.
  rewrite Z.quot_opp_l by lia.
  pose proof (Z.quot_pos (elapsed - round_time * 1000000) 1000000). lia.
Qed.

Section Cooldown.
Context `{World W}.

(** C5: after a round that ran through all proxies, the loop computes
    the whole seconds left of the round duration, shows the remaining
    time and sleeps one second that many times, and then starts the next
    round.  The wait is real: the world the next round starts in is the
    world at the end of the round with [sleep(1)] applied once per tick,
    and the wait changes nothing else of the loop's state.  For an elapsed
    time of [secs] whole seconds below the round duration that is exactly
    [round_time - secs] ticks; once the elapsed time has reached the round
    duration there is no tick at all and the state is handed to the next
    round unchanged. *)
Theorem cooldown_waits_out_the_round (cfg : Config) (proxies : list string)
    (bvid : string) (target elapsed : Z) (fuel : nat) (s s' : LoopState W) :
  current_views s < target ->
  round_loop cfg bvid target (len proxies) 0 proxies s = (Next, s') ->
  elapsed = now (world s') - now (world s) ->
  dispatch_rounds (S fuel) cfg proxies bvid target s
  = dispatch_rounds fuel cfg proxies bvid target
      (wait_next_round target (remain_seconds (round_time cfg) elapsed) s')
  /\ trace (wait_next_round target (remain_seconds (round_time cfg) elapsed) s')
     = flat_map (fun second => [Sleep; progress target (NextRound second) s'])
                (py_range (remain_seconds (round_time cfg) elapsed))
       ++ trace s'
  /\ (0 < round_time cfg * 1000000 - elapsed ->
      sleeps (trace (wait_next_round target
                       (remain_seconds (round_time cfg) elapsed) s'))
      = (Z.to_nat ((round_time cfg * 1000000 - elapsed) / 1000000)
         + sleeps (trace s'))%nat)
  /\ (forall secs, elapsed = secs * 1000000 -> 0 < round_time cfg - secs ->
      sleeps (trace (wait_next_round target
                       (remain_seconds (round_time cfg) elapsed) s'))
      = (Z.to_nat (round_time cfg - secs) + sleeps (trace s'))%nat)
  /\ (round_time cfg * 1000000 <= elapsed ->
      wait_next_round target (remain_seconds (round_time cfg) elapsed) s' = s')
  /\ world (wait_next_round target (remain_seconds (round_time cfg) elapsed) s')
     = Nat.iter (Z.to_nat (remain_seconds (round_time cfg) elapsed)) sleep
                (world s')
  /\ (0 < round_time cfg * 1000000 - elapsed ->
      world (wait_next_round target (remain_seconds (round_time cfg) elapsed) s')
      = Nat.iter (Z.to_nat ((round_time cfg * 1000000 - elapsed) / 1000000))
                 sleep (world s'))
  /\ (forall secs, elapsed = secs * 1000000 -> 0 < round_time cfg - secs ->
      world (wait_next_round target (remain_seconds (round_time cfg) elapsed) s')
      = Nat.iter (Z.to_nat (round_time cfg - secs)) sleep (world s'))
  /\ stats (wait_next_round target (remain_seconds (round_time cfg) elapsed) s')
     = stats s'
  /\ current_views
       (wait_next_round target (remain_seconds (round_time cfg) elapsed) s')
     = current_views s'
  /\ info (wait_next_round target (remain_seconds (round_time cfg) elapsed) s')
     = info s'.
Proof.
  intros Hlt Hround Hel.
  split; [|split; [|split; [|split; [|split; [|split; [|split; [|split]]]]]]].
  - simpl. assert (E : (current_views s <? target) = true) by lia.
    rewrite E, Hround, Hel. reflexivity.
  - apply wait_next_round_trace.
  - intros Hpos. rewrite wait_next_round_sleeps.
    rewrite remain_seconds_positive by exact Hpos. reflexivity.
  - intros secs -> Hpos. rewrite wait_next_round_sleeps.
    rewrite remain_seconds_whole. reflexivity.
  - intros Hover. pose proof (remain_seconds_overrun _ _ Hover) as Hr.
    unfold wait_next_round.
    assert (E : (0 <? remain_seconds (round_time cfg) elapsed) = false) by lia.
    rewrite E. reflexivity.
  - apply wait_next_round_world.
  - intros Hpos. rewrite wait_next_round_world.
    rewrite remain_seconds_positive by exact Hpos. reflexivity.
  - intros secs -> Hpos. rewrite wait_next_round_world.
    rewrite remain_seconds_whole. reflexivity.
  - apply wait_next_round_frame.
Qed.
End Cooldown.

(** ** The initial read *)


Section InitialRead.
Context `{World W} `{ProxySource W}.

End InitialRead.

(** The figures of the specification: a round of 305 s that took 40 s
    leaves 265 ticks, one that took 400 s leaves none. *)
Example remain_seconds_305 :
  remain_seconds 305 40000000 = 265
  /\ py_range (remain_seconds 305 400000000) = [].
Proof. split; reflexivity. Qed.

(** ** The theorems on concrete runs *)

(** C1 on the scenario of the specification: counter 950, target 1000, and
    the update at the third proxy reads 1005; the third proxy gets no
    click. *)
Lemma poll_at_target_ends_round_witness :
  update_pbar_count scenario_config <> 0
  /\ len ["p0"; "p1"]%string mod update_pbar_count scenario_config = 0
  /\ current_views scenario_state < 1000
  /\ exists s_f,
       round_loop scenario_config "BV1" 1000 (len scenario_proxies) 0
                  scenario_proxies scenario_state = (Break, s_f)
       /\ dispatch_rounds 1 scenario_config scenario_proxies "BV1" 1000
                          scenario_state = (Exited, s_f)
       /\ current_views s_f = 1005
       /\ length (clicks (trace s_f)) = 2%nat.
Proof.
  assert (H1 : update_pbar_count scenario_config <> 0) by (simpl; lia).
  assert (H2 : len ["p0"; "p1"]%string mod update_pbar_count scenario_config = 0)
    by reflexivity.
  assert (H3 : current_views scenario_state < 1000) by (simpl; lia).
  split; [exact H1|]. split; [exact H2|]. split; [exact H3|].
  assert (H4 : round_loop scenario_config "BV1" 1000 (len scenario_proxies) 0
                          ["p0"; "p1"]%string scenario_state
               = (Next,
                  snd (round_loop scenario_config "BV1" 1000
                                  (len scenario_proxies) 0
                                  ["p0"; "p1"]%string scenario_state)))
    by (vm_compute; reflexivity).
  assert (H5 : fetch_views "BV1"
                 (world (snd (round_loop scenario_config "BV1" 1000
                                         (len scenario_proxies) 0
                                         ["p0"; "p1"]%string scenario_state)))
               = (Return (info_with 1005, 1005),
                  mkScript [] [] 50000000 10000000 15000000))
    by (vm_compute; reflexivity).
  destruct (poll_at_target_ends_round
              scenario_config scenario_proxies ["p0"; "p1"]%string [] "p2"%string
              "BV1"%string 1000 0%nat scenario_state _ _ _ _
              H1 eq_refl H2 H3 H4 H5 ltac:(lia))
    as (s_f & Hr & Hd & Hc & _ & Hv & _).
  exists s_f. split; [exact Hr|]. split; [exact Hd|]. split; [exact Hv|].
  rewrite Hc. vm_compute. reflexivity.
Defined.


(** C4 on the first click of the scenario, answered with status 200. *)
Lemma click_counts_hit_iff_ok_witness :
  update_pbar_count default_config <> 0
  /\ click_data "BV1" (info scenario_state)
     = Return (mkClick 123456 789012 "BV1" 345678 1)
  /\ exists s',
       send_click "BV1" 1000 3 1 "p1" scenario_state = (Next, s')
       /\ successful_hits (stats s') = 1
       /\ round_loop default_config "BV1" 1000 3 1 ["p1"; "p2"]%string
                     scenario_state
          = round_loop default_config "BV1" 1000 3 (1 + 1) ["p2"]%string s'.
Proof.
  assert (H1 : update_pbar_count default_config <> 0) by (simpl; lia).
  assert (H2 : click_data "BV1" (info scenario_state)
               = Return (mkClick 123456 789012 "BV1" 345678 1)) by reflexivity.
  split; [exact H1|]. split; [exact H2|].
  destruct (click_counts_hit_iff_ok default_config "BV1"%string 1000 3 1
              "p1"%string ["p2"]%string scenario_state _ H1 H2)
    as (s' & Hs & Hiff & _ & _ & _ & Hloop & _).
  exists s'. split; [exact Hs|]. split.
  - apply Hiff. reflexivity.
  - apply Hloop. vm_compute. discriminate.
Defined.

(** C5 on a round that took 40 s of the default 305 s: 265 ticks, after
    which the clock of the scripted world stands 265 s later, at 305 s. *)
Lemma cooldown_waits_out_the_round_witness :
  current_views short_round_state < 1000
  /\ fst (round_loop default_config "BV1" 1000 2 0 ["p0"; "p1"]%string
                     short_round_state) = Next
  /\ now (world (snd (round_loop default_config "BV1" 1000 2 0
                                 ["p0"; "p1"]%string short_round_state)))
     - now (world short_round_state) = 40 * 1000000
  /\ sleeps (trace (wait_next_round 1000 (remain_seconds 305 (40 * 1000000))
                      (snd (round_loop default_config "BV1" 1000 2 0
                                       ["p0"; "p1"]%string short_round_state))))
     = (265 + 0)%nat
  /\ now (world (wait_next_round 1000 (remain_seconds 305 (40 * 1000000))
                   (snd (round_loop default_config "BV1" 1000 2 0
                                    ["p0"; "p1"]%string short_round_state))))
     = 305 * 1000000.
Proof.
  assert (H1 : current_views short_round_state < 1000) by (simpl; lia).
  split; [exact H1|]. split; [reflexivity|]. split; [reflexivity|].
  assert (H2 : round_loop default_config "BV1" 1000 (len ["p0"; "p1"]%string) 0
                          ["p0"; "p1"]%string short_round_state
               = (Next,
                  snd (round_loop default_config "BV1" 1000 2 0
                                  ["p0"; "p1"]%string short_round_state)))
    by (vm_compute; reflexivity).
  assert (H3 : 40 * 1000000
               = now (world (snd (round_loop default_config "BV1" 1000 2 0
                                             ["p0"; "p1"]%string
                                             short_round_state)))
                 - now (world short_round_state))
    by (vm_compute; reflexivity).
  destruct (cooldown_waits_out_the_round default_config ["p0"; "p1"]%string
              "BV1"%string 1000 (40 * 1000000) 0%nat short_round_state _
              H1 H2 H3)
    as (_ & _ & _ & Hs & _ & _ & _ & Hw & _).
  split; [exact (Hs 40 eq_refl ltac:(simpl; lia))|].
  change (round_time default_config) with 305 in Hw.
  rewrite (Hw 40 eq_refl ltac:(lia)). vm_compute. reflexivity.
Defined.

(** C6 on an update that cannot reach the view API: the click that
    follows still carries the identifiers of the old snapshot. *)
Lemma failed_poll_keeps_snapshot_witness :
  update_pbar_count default_config <> 0
  /\ 0 mod update_pbar_count default_config = 0
  /\ fst (fetch_views "BV1" (world no_view_state))
     = Raise (RuntimeError FetchFailed)
  /\ exists s1 s2,
       update_view_count "BV1" 1000 no_view_state = (false, s1)
       /\ info s1 = info_with 950
       /\ current_views s1 = 950
       /\ send_click "BV1" 1000 1 0 "p0" s1 = (Next, s2)
       /\ clicks (trace s2)
          = [Click "p0" (mkClick 123456 789012 "BV1" 345678 1)].
Proof.
  assert (H1 : update_pbar_count default_config <> 0) by (simpl; lia).
  assert (H2 : 0 mod update_pbar_count default_config = 0) by reflexivity.
  split; [exact H1|]. split; [exact H2|]. split; [reflexivity|].
  assert (H3 : fetch_views "BV1" (world no_view_state)
               = (Raise (RuntimeError FetchFailed),
                  mkScript [] [PostStatus 200] 10000000 10000000 15000000))
    by (vm_compute; reflexivity).
  assert (H4 : click_data "BV1" (info no_view_state)
               = Return (mkClick 123456 789012 "BV1" 345678 1))
    by (vm_compute; reflexivity).
  destruct (failed_poll_keeps_snapshot default_config "BV1"%string 1000 1 0
              "p0"%string [] no_view_state _ _ _ H1 H2 H3 H4)
    as (s1 & s2 & Hu & Hi & Hv & _ & _ & Hc & Hcl & _).
  exists s1, s2. repeat split; assumption.
Defined.



(** ** The unit tests of the repository, and one complete run *)

Example default_config_test :
  timeout default_config = 3 /\ thread_num default_config = 75
  /\ round_time default_config = 305 /\ update_pbar_count default_config = 10
  /\ max_proxies default_config = 10000
  /\ min_proxies_threshold default_config = 100.
Proof. repeat split. Qed.

Example duration_test :
  get_duration new_statistics = 0
  /\ get_duration (mkStats 0 0 (Some 0) (Some 330000000)) = 330 * 1000000.
Proof. split; reflexivity. Qed.

Example get_video_info_success_test :
  fst (get_video_info "BV1234567890"
         (mkScript [ok_reply 1000] [] 0 0 0))
  = Return (info_with 1000).
Proof. reflexivity. Qed.

Example get_video_info_api_error_test :
  fst (get_video_info "BV1234567890"
         (mkScript [GetResponse 200
                      (BodyJson (mkEnvelope (Some (-1))
                                            (Some "Video not found"%string) None))]
                   [] 0 0 0))
  = Raise (RuntimeError (ApiError "Video not found")).
Proof. reflexivity. Qed.

(** The ways in which a read of the counter fails: the transport, the HTTP
    status, a body that is not JSON, an envelope without its keys, a
    non-zero application code, a payload without the counter. *)
Lemma fetch_views_failures `{World W} (bvid : string) (w : W) :
  match fst (view_api bvid w) with
  | GetRequestException =>
      fst (fetch_views bvid w) = Raise (RuntimeError FetchFailed)
  | GetResponse status_code body =>
      if raise_for_status status_code
      then fst (fetch_views bvid w) = Raise (RuntimeError FetchFailed)
      else
        match body with
        | BodyNotJson => fst (fetch_views bvid w) = Raise (RuntimeError ParseFailed)
        | BodyJson data =>
            match env_code data, env_data data with
            | None, _ => fst (fetch_views bvid w) = Raise (RuntimeError ParseFailed)
            | Some c, d =>
                if c =? 0 then
                  match d with
                  | None =>
                      fst (fetch_views bvid w) = Raise (RuntimeError ParseFailed)
                  | Some i =>
                      match stat_view i with
                      | None => fst (fetch_views bvid w) = Raise (KeyError "view")
                      | Some v => fst (fetch_views bvid w) = Return (i, v)
                      end
                  end
                else
                  fst (fetch_views bvid w)
                  = Raise (RuntimeError
                             (ApiError (default "Unknown error"%string
                                                (env_message data))))
            end
        end
  end.
Proof.
  unfold fetch_views, get_video_info, view_of.
  destruct (view_api bvid w) as [[|status_code [|data]] w']; simpl;
    try reflexivity;
    destruct (raise_for_status status_code); try reflexivity.
  destruct (env_code data) as [c|]; [|reflexivity].
  destruct (c =? 0); [|reflexivity].
  destruct (env_data data) as [i|]; [|reflexivity].
  destruct (stat_view i); reflexivity.
Qed.

(** A complete run of the scenario: the initial read gives 950, the round
    breaks at its second update, the final read gives 1006. *)
Example scenario_run :
  outcome (boost_view_count 1 scenario_config scenario_proxies new_statistics
             "BV1" 1000
             (mkScript [ok_reply 950; ok_reply 960; ok_reply 1005; ok_reply 1006]
                       [PostStatus 200; PostRequestException]
                       0 10000000 15000000))
  = Reported 1006
  /\ end_stats (boost_view_count 1 scenario_config scenario_proxies new_statistics
                  "BV1" 1000
                  (mkScript [ok_reply 950; ok_reply 960; ok_reply 1005; ok_reply 1006]
                            [PostStatus 200; PostRequestException]
                            0 10000000 15000000))
     = mkStats 1 950 (Some 10000000) (Some 60000000).
Proof. split; vm_compute; reflexivity. Qed.

(** A complete run of the filter: two workers, two candidates, no answer. *)
Example filter_proxies_no_answer :
  filter_proxies (mkConfig 3 2 305 10 10000 100) ["a"; "b"]%string
                 (failing_run 0 [["a"]; ["b"]]%string)
  = Some (Raise (RuntimeError NoActiveProxies)).
Proof. reflexivity. Qed.

(** And with both candidates alive, under the interleaving of
    [overtaking_schedule] run to its end. *)
Example filter_proxies_two_alive :
  filter_proxies (mkConfig 3 2 305 10 10000 100) ["a"; "b"]%string
                 (overtaking_schedule
                  ++ [(0%nat, ProbeStatus 200); (1%nat, ProbeStatus 200);
                      (1%nat, ProbeStatus 200); (1%nat, ProbeStatus 200);
                      (1%nat, ProbeStatus 200)])
  = Some (Return ["a"; "b"]%string).
Proof. reflexivity. Qed.

(* ================================================================== *)
(** * Part III. Further properties of the code *)
(* ================================================================== *)

(** ** The partition, for any positive worker count *)

Lemma empty_chunks {A} (l : list A) (j m : nat) :
  map (fun i => take 0 (drop (i * 0) l)) (seq j m) = replicate m [].
Proof.
  revert j. induction m as [|m IH]; intros j; simpl; [reflexivity|].
  f_equal. apply IH.
Qed.

(** With more workers than candidates the quotient is zero: every worker
    but the last gets an empty batch and the last one gets the whole list. *)
Theorem thread_slices_more_workers_than_candidates {A} (total_proxies : list A)
    (w : Z) :
  len total_proxies < w ->
  thread_slices total_proxies w
  = Return (replicate (Z.to_nat (w - 1)) [] ++ [total_proxies]).
Proof.
  intros Hw. pose proof (len_nonneg total_proxies) as Hk.
  unfold thread_slices.
  assert (Hnz : (w =? 0) = false) by lia. rewrite Hnz. f_equal.
  assert (Hq : len total_proxies / w = 0) by (apply Z.div_small; lia).
  rewrite thread_slices_split by lia. rewrite Hq.
  rewrite Z.mul_0_r. change (Z.to_nat 0) with 0%nat.
  rewrite empty_chunks. reflexivity.
Qed.

Lemma thread_slices_more_workers_than_candidates_witness :
  len ["a"; "b"]%string < 4
  /\ thread_slices ["a"; "b"]%string 4
     = Return [[]; []; []; ["a"; "b"]%string].
Proof.
  assert (H : len ["a"; "b"]%string < 4) by (vm_compute; reflexivity).
  split; [exact H|].
  exact (thread_slices_more_workers_than_candidates ["a"; "b"]%string 4 H).
Defined.

(** For every positive worker count, also beyond the number of candidates,
    there are exactly [w] batches and, in order, they make up the candidate
    list. *)
Lemma thread_slices_whole {A} (total_proxies : list A) (w : Z) :
  1 <= w ->
  exists slices,
    thread_slices total_proxies w = Return slices
    /\ len slices = w
    /\ concat slices = total_proxies.
Proof.
  intros Hw. unfold thread_slices.
  assert (Hnz : (w =? 0) = false) by lia. rewrite Hnz.
  eexists. split; [reflexivity|]. split.
  - unfold len, py_range. rewrite !length_map, length_seq. lia.
  - apply thread_slices_concat. exact Hw.
Qed.


(** ** The worker pool: every candidate is probed once *)

Lemma occ_cons (x p : string) (l : list string) :
  occ x (p :: l) = (if string_dec p x then 1 else 0) + occ x l.
Proof. unfold occ. simpl. destruct (string_dec p x); lia. Qed.

Lemma occ_app (x : string) (l1 l2 : list string) :
  occ x (l1 ++ l2) = occ x l1 + occ x l2.
Proof. unfold occ. rewrite count_occ_app. lia. Qed.

Lemma occ_nil (x : string) : occ x [] = 0.
Proof. reflexivity. Qed.

Lemma occ_permutation (l1 l2 : list string) :
  (forall x, occ x l1 = occ x l2) -> Permutation l1 l2.
Proof.
  intros Hocc. apply (Permutation_count_occ string_dec). intros x.
  specialize (Hocc x). unfold occ in Hocc. lia.
Qed.

Lemma tally_todo_start (x : string) (slices : list (list string)) :
  tally (fun w => occ x (todo w)) (map (mkWorker NextProxy) slices)
  = occ x (concat slices).
Proof.
  induction slices as [|b bs IH]; simpl; [reflexivity|].
  rewrite IH, occ_app. reflexivity.
Qed.

Lemma start_pool_tracks (slices : list (list string)) :
  pool_tracks (concat slices) (start_pool slices).
Proof.
  split; simpl.
  - discriminate.
  - intros i w Hi Hpc. rewrite list_lookup_fmap in Hi.
    destruct (slices !! i); simpl in Hi; [|discriminate].
    injection Hi as <-. discriminate Hpc.
  - intros x. rewrite tally_todo_start, tally_start by reflexivity.
    rewrite occ_nil. lia.
  - intros x. rewrite tally_start by reflexivity. reflexivity.
Qed.

(** The lock holder, after worker [i] has moved. *)
Ltac holder_after_step Htr Hw i :=
  let j := fresh "j" in let Hj := fresh "Hj" in
  simpl; intros j Hj;
  first
    [ discriminate Hj
    | injection Hj as <-; eexists; split;
      [ apply list_lookup_insert_eq; eapply lookup_lt_Some; exact Hw
      | reflexivity ]
    | destruct (track_holder _ _ Htr _ Hj) as (wj & Hwj & Hcj);
      destruct (decide (j = i)) as [->|Hne];
      [ rewrite Hw in Hwj; injection Hwj as <-; discriminate Hcj
      | exists wj; split;
        [ rewrite list_lookup_insert_ne by congruence; exact Hwj
        | exact Hcj ] ] ].

(** A finished worker, after worker [i] has moved. *)
Ltac finished_after_step Htr :=
  let j := fresh "j" in let wj := fresh "wj" in
  let Hj := fresh "Hj" in let Hpc := fresh "Hpc" in
  simpl; intros j wj Hj Hpc;
  apply list_lookup_insert_Some in Hj as [(-> & <- & _) | (Hne & Hj)];
  [ first [ discriminate Hpc | reflexivity
          | simpl in Hpc; destruct (probe_ok _); discriminate Hpc ]
  | exact (track_finished _ _ Htr _ _ Hj Hpc) ].

(** A count of occurrences, after worker [i] has moved. *)
Ltac occ_after_step Htr Hw :=
  let x := fresh "x" in
  simpl; intros x;
  pose proof (track_candidates _ _ Htr x);
  pose proof (track_results _ _ Htr x);
  rewrite ?(tally_insert _ _ _ _ _ Hw);
  repeat match goal with
         | |- context [tally ?f (workers ?s)] =>
             let T := fresh "T" in
             set (T := tally f (workers s)) in *; clearbody T
         end;
  repeat match goal with
         | |- context [probe_ok ?r] => destruct (probe_ok r)
         end;
  unfold successes, probed_proxies, in_hand, to_append in *; simpl in *;
  rewrite ?occ_app, ?occ_cons, ?occ_nil in *;
  repeat match goal with
         | |- context [string_dec ?a ?b] => destruct (string_dec a b)
         end;
  lia.

Lemma worker_step_tracks (c : list string) (i : nat) (r : ProbeReply)
    (s s' : Pool) :
  pool_tracks c s -> worker_step i r s = Some s' -> pool_tracks c s'.
Proof.
  intros Htr Hstep. unfold worker_step in Hstep.
  destruct (workers s !! i) as [[p td]|] eqn:Hw; [|discriminate].
  destruct p; simpl in Hstep.
  - destruct td as [|proxy rest].
    + injection Hstep as <-.
      split; [holder_after_step Htr Hw i | finished_after_step Htr
             | occ_after_step Htr Hw ..].
    + destruct (lock s) eqn:Hl; [discriminate|]. injection Hstep as <-.
      split; [holder_after_step Htr Hw i | finished_after_step Htr
             | occ_after_step Htr Hw ..].
  - injection Hstep as <-.
    split; [holder_after_step Htr Hw i | finished_after_step Htr
           | occ_after_step Htr Hw ..].
  - injection Hstep as <-.
    split; [holder_after_step Htr Hw i | finished_after_step Htr
           | occ_after_step Htr Hw ..].
  - destruct (lock s) eqn:Hl; [discriminate|]. injection Hstep as <-.
    split; [holder_after_step Htr Hw i | finished_after_step Htr
           | occ_after_step Htr Hw ..].
  - injection Hstep as <-.
    split; [holder_after_step Htr Hw i | finished_after_step Htr
           | occ_after_step Htr Hw ..].
  - discriminate.
Qed.

Lemma run_schedule_tracks (c : list string) (sched : Schedule) (s s' : Pool) :
  pool_tracks c s -> run_schedule sched s = Some s' -> pool_tracks c s'.
Proof.
  revert s. induction sched as [|[i r] sched IH]; intros s Htr Hrun;
    simpl in Hrun.
  - injection Hrun as <-. exact Htr.
  - destruct (worker_step i r s) as [s1|] eqn:Hstep; [|discriminate].
    eapply IH; [|exact Hrun]. eapply worker_step_tracks; eassumption.
Qed.

Lemma reachable_tracks (slices : list (list string)) (s : Pool) :
  reachable slices s -> pool_tracks (concat slices) s.
Proof.
  intros [sched Hrun].
  eapply run_schedule_tracks; [apply start_pool_tracks|exact Hrun].
Qed.

Lemma tally_zero (f : Worker -> Z) (ws : list Worker) :
  (forall i w, ws !! i = Some w -> f w = 0) -> tally f ws = 0.
Proof.
  induction ws as [|w ws IH]; intros Hf; simpl; [reflexivity|].
  rewrite (Hf 0%nat w eq_refl), IH; [reflexivity|].
  intros i w' Hi. exact (Hf (S i) w' Hi).
Qed.

Lemma all_joined_finished (s : Pool) :
  all_joined s = true ->
  forall i w, workers s !! i = Some w -> pc w = Finished.
Proof.
  unfold all_joined. intros Hall i w Hi.
  rewrite forallb_forall in Hall.
  assert (Hin : In w (workers s))
    by (apply list_elem_of_In; eapply list_elem_of_lookup_2; exact Hi).
  specialize (Hall w Hin). unfold worker_finished in Hall.
  destruct (pc w); try discriminate; reflexivity.
Qed.

(** When the filter has joined its threads, every candidate has been
    probed exactly once: the probes made are a rearrangement of the
    candidate list, the progress counter equals the number of candidates,
    and the lock is free. *)
Theorem filter_probes_every_candidate_once (total_proxies : list string)
    (w : Z) (slices : list (list string)) (sched : Schedule) (s : Pool) :
  1 <= w ->
  thread_slices total_proxies w = Return slices ->
  run_schedule sched (start_pool slices) = Some s ->
  all_joined s = true ->
  Permutation (probed_proxies (probed s)) total_proxies
  /\ count s = len total_proxies
  /\ lock s = None.
Proof.
  intros Hw Hslices Hrun Hjoin.
  assert (Hconcat : concat slices = total_proxies).
  { destruct (thread_slices_whole total_proxies w Hw) as (sl & Hsl & _ & Hc).
    rewrite Hslices in Hsl. injection Hsl as <-. exact Hc. }
  assert (Hreach : reachable slices s) by (exists sched; exact Hrun).
  pose proof (reachable_tracks _ _ Hreach) as Htr.
  pose proof (reachable_inv _ _ Hreach) as Hinv.
  pose proof (all_joined_finished _ Hjoin) as Hfin.
  rewrite Hconcat in Htr, Hinv.
  split; [|split].
  - apply occ_permutation. intros x.
    pose proof (track_candidates _ _ Htr x) as Hx.
    rewrite (tally_zero (fun w0 => occ x (in_hand w0))) in Hx.
    2:{ intros i w0 Hi. unfold in_hand. rewrite (Hfin i w0 Hi). reflexivity. }
    rewrite (tally_zero (fun w0 => occ x (todo w0))) in Hx.
    2:{ intros i w0 Hi.
        rewrite (track_finished _ _ Htr i w0 Hi (Hfin i w0 Hi)). reflexivity. }
    lia.
  - pose proof (inv_count _ _ Hinv) as Hc.
    rewrite (tally_zero pending) in Hc; [lia|].
    intros i w0 Hi. unfold pending.
    rewrite (track_finished _ _ Htr i w0 Hi (Hfin i w0 Hi)), (Hfin i w0 Hi).
    reflexivity.
  - destruct (lock s) as [i|] eqn:Hl; [|reflexivity].
    destruct (track_holder _ _ Htr i Hl) as (wi & Hwi & Hci).
    unfold in_critical in Hci. rewrite (Hfin i wi Hwi) in Hci. discriminate.
Qed.

(** When the filter has joined its threads, its result list holds exactly
    the candidates whose probe answered 200, as often as they were
    answered so, in some order; and the filter returns that list if it is
    not empty and raises "No active proxies found" otherwise. *)
Theorem filter_keeps_the_live_candidates (cfg : Config)
    (total_proxies : list string) (slices : list (list string))
    (sched : Schedule) (s : Pool) :
  thread_slices total_proxies (thread_num cfg) = Return slices ->
  run_schedule sched (start_pool slices) = Some s ->
  all_joined s = true ->
  Permutation (active_proxies s) (probed_proxies (successes (probed s)))
  /\ (forall proxy, In proxy (active_proxies s) ->
        In (proxy, ProbeStatus 200) (probed s))
  /\ filter_proxies cfg total_proxies sched
     = Some (match successes (probed s) with
             | [] => Raise (RuntimeError NoActiveProxies)
             | _ :: _ => Return (active_proxies s)
             end).
Proof.
  intros Hslices Hrun Hjoin.
  assert (Hreach : reachable slices s) by (exists sched; exact Hrun).
  pose proof (reachable_tracks _ _ Hreach) as Htr.
  pose proof (all_joined_finished _ Hjoin) as Hfin.
  assert (Hperm : Permutation (active_proxies s)
                    (probed_proxies (successes (probed s)))).
  { apply occ_permutation. intros x.
    pose proof (track_results _ _ Htr x) as Hx.
    rewrite (tally_zero (fun w0 => occ x (to_append w0))) in Hx; [lia|].
    intros i w0 Hi. unfold to_append. rewrite (Hfin i w0 Hi). reflexivity. }
  split; [exact Hperm|]. split.
  - intros proxy Hin.
    apply (Permutation_in _ Hperm) in Hin.
    unfold probed_proxies in Hin. apply in_map_iff in Hin as ([p r] & Hp & Hin).
    simpl in Hp. subst p. unfold successes in Hin.
    apply filter_In in Hin as [Hin Hok]. simpl in Hok.
    destruct r as [c|]; [|discriminate]. simpl in Hok.
    assert (c = 200) by lia. subst c. exact Hin.
  - unfold filter_proxies. rewrite Hslices, Hrun, Hjoin. unfold filter_result.
    apply Permutation_length in Hperm.
    unfold probed_proxies in Hperm. rewrite length_map in Hperm.
    destruct (successes (probed s)) as [|pr l]; simpl in Hperm.
    + destruct (active_proxies s); [reflexivity|discriminate Hperm].
    + destruct (active_proxies s) as [|a l']; [discriminate Hperm|].
      reflexivity.
Qed.

Lemma filter_probes_every_candidate_once_witness :
  1 <= 2
  /\ thread_slices ["a"; "b"]%string 2 = Return [["a"]; ["b"]]%string
  /\ run_schedule two_alive_schedule (start_pool [["a"]; ["b"]]%string)
     = Some two_alive_pool
  /\ all_joined two_alive_pool = true
  /\ Permutation (probed_proxies (probed two_alive_pool)) ["a"; "b"]%string
  /\ count two_alive_pool = len ["a"; "b"]%string
  /\ lock two_alive_pool = None.
Proof.
  assert (H1 : 1 <= 2) by lia.
  assert (H2 : thread_slices ["a"; "b"]%string 2 = Return [["a"]; ["b"]]%string)
    by reflexivity.
  assert (H3 : run_schedule two_alive_schedule (start_pool [["a"]; ["b"]]%string)
               = Some two_alive_pool) by reflexivity.
  assert (H4 : all_joined two_alive_pool = true) by reflexivity.
  split; [exact H1|]. split; [exact H2|]. split; [exact H3|].
  split; [exact H4|].
  exact (filter_probes_every_candidate_once _ _ _ _ _ H1 H2 H3 H4).
Defined.

Lemma filter_keeps_the_live_candidates_witness :
  thread_slices ["a"; "b"]%string (thread_num (mkConfig 3 2 305 10 10000 100))
  = Return [["a"]; ["b"]]%string
  /\ run_schedule two_alive_schedule (start_pool [["a"]; ["b"]]%string)
     = Some two_alive_pool
  /\ all_joined two_alive_pool = true
  /\ filter_proxies (mkConfig 3 2 305 10 10000 100) ["a"; "b"]%string
                    two_alive_schedule
     = Some (Return ["a"; "b"]%string).
Proof.
  assert (H2 : thread_slices ["a"; "b"]%string
                 (thread_num (mkConfig 3 2 305 10 10000 100))
               = Return [["a"]; ["b"]]%string) by reflexivity.
  assert (H3 : run_schedule two_alive_schedule (start_pool [["a"]; ["b"]]%string)
               = Some two_alive_pool) by reflexivity.
  assert (H4 : all_joined two_alive_pool = true) by reflexivity.
  split; [exact H2|]. split; [exact H3|]. split; [exact H4|].
  destruct (filter_keeps_the_live_candidates
              (mkConfig 3 2 305 10 10000 100) _ _ _ _ H2 H3 H4)
    as (_ & _ & Hres).
  exact Hres.
Defined.

(** ** The worker pool: it always finishes *)

Lemma unfinished_worker (ws : list Worker) :
  forallb worker_finished ws = false ->
  exists i w, ws !! i = Some w /\ pc w <> Finished.
Proof.
  induction ws as [|w ws IH]; simpl; [discriminate|].
  destruct (worker_finished w) eqn:Hw; simpl.
  - intros H. destruct (IH H) as (i & w' & Hi & Hpc).
    exists (S i), w'. split; assumption.
  - intros _. exists 0%nat, w. split; [reflexivity|].
    unfold worker_finished in Hw. intros Hpc. rewrite Hpc in Hw. discriminate.
Qed.

(** No interleaving blocks the filter: as long as a thread has not
    finished, some worker can take a step. *)
Theorem filter_never_deadlocks (slices : list (list string)) (s : Pool) :
  reachable slices s ->
  all_joined s = false ->
  exists i r s', worker_step i r s = Some s'.
Proof.
  intros Hreach Hnot.
  pose proof (reachable_tracks _ _ Hreach) as Htr.
  destruct (lock s) as [h|] eqn:Hl.
  - destruct (track_holder _ _ Htr h Hl) as ([p td] & Hw & Hc).
    exists h, ProbeRequestException. unfold worker_step. rewrite Hw.
    unfold in_critical in Hc. simpl in *.
    destruct p; try discriminate; eexists; reflexivity.
  - destruct (unfinished_worker _ Hnot) as (j & [p td] & Hj & Hpc).
    exists j, ProbeRequestException. unfold worker_step. rewrite Hj, Hl.
    simpl in *. destruct p; try (eexists; reflexivity).
    + destruct td; eexists; reflexivity.
    + contradiction.
Qed.

Lemma filter_never_deadlocks_witness :
  reachable [["a"]; ["b"]]%string overtaken_pool
  /\ all_joined overtaken_pool = false
  /\ exists i r s', worker_step i r overtaken_pool = Some s'.
Proof.
  assert (H1 : reachable [["a"]; ["b"]]%string overtaken_pool)
    by (exists overtaking_schedule; reflexivity).
  assert (H2 : all_joined overtaken_pool = false) by reflexivity.
  split; [exact H1|]. split; [exact H2|].
  exact (filter_never_deadlocks _ _ H1 H2).
Defined.

Lemma steps_left_nonneg (w : Worker) : 0 <= steps_left w.
Proof. unfold steps_left, len. destruct (pc w); lia. Qed.

Lemma worker_step_decreases (i : nat) (r : ProbeReply) (s s' : Pool) :
  worker_step i r s = Some s' ->
  tally steps_left (workers s') + 1 <= tally steps_left (workers s).
Proof.
  unfold worker_step. intros Hstep.
  destruct (workers s !! i) as [[p td]|] eqn:Hw; [|discriminate].
  destruct p; simpl in Hstep;
    repeat match type of Hstep with
           | context [match ?x with _ => _ end] => destruct x
           end;
    try discriminate; injection Hstep as <-; simpl;
    rewrite (tally_insert _ _ _ _ _ Hw);
    unfold steps_left, len; simpl;
    repeat match goal with
           | |- context [probe_ok ?r] => destruct (probe_ok r)
           end; simpl; lia.
Qed.

Lemma run_schedule_decreases (sched : Schedule) (s s' : Pool) :
  run_schedule sched s = Some s' ->
  len sched + tally steps_left (workers s') <= tally steps_left (workers s).
Proof.
  revert s. induction sched as [|[i r] sched IH]; intros s Hrun; simpl in Hrun.
  - injection Hrun as <-. unfold len. simpl. lia.
  - destruct (worker_step i r s) as [s1|] eqn:Hstep; [|discriminate].
    pose proof (worker_step_decreases _ _ _ _ Hstep).
    pose proof (IH _ Hrun). unfold len in *. simpl length. lia.
Qed.

Lemma steps_left_start (slices : list (list string)) :
  tally steps_left (map (mkWorker NextProxy) slices)
  = 5 * len (concat slices) + len slices.
Proof.
  induction slices as [|b bs IH]; simpl; [reflexivity|].
  rewrite IH. unfold steps_left, len. simpl. rewrite length_app. lia.
Qed.

(** Whatever the interleaving and whatever the network answers, the
    workers take at most five steps per candidate and one more each: the
    filter cannot run forever. *)
Theorem filter_run_is_bounded (total_proxies : list string) (w : Z)
    (slices : list (list string)) (sched : Schedule) (s : Pool) :
  1 <= w ->
  thread_slices total_proxies w = Return slices ->
  run_schedule sched (start_pool slices) = Some s ->
  len sched <= 5 * len total_proxies + w.
Proof.
  intros Hw Hslices Hrun.
  destruct (thread_slices_whole total_proxies w Hw) as (sl & Hsl & Hlen & Hc).
  rewrite Hslices in Hsl. injection Hsl as <-.
  pose proof (run_schedule_decreases _ _ _ Hrun) as Hdec.
  simpl in Hdec. rewrite steps_left_start, Hc, Hlen in Hdec.
  pose proof (tally_nonneg steps_left (workers s) steps_left_nonneg). lia.
Qed.

Lemma filter_run_is_bounded_witness :
  1 <= 2
  /\ thread_slices ["a"; "b"]%string 2 = Return [["a"]; ["b"]]%string
  /\ run_schedule two_alive_schedule (start_pool [["a"]; ["b"]]%string)
     = Some two_alive_pool
  /\ len two_alive_schedule <= 5 * len ["a"; "b"]%string + 2.
Proof.
  assert (H1 : 1 <= 2) by lia.
  assert (H2 : thread_slices ["a"; "b"]%string 2 = Return [["a"]; ["b"]]%string)
    by reflexivity.
  assert (H3 : run_schedule two_alive_schedule (start_pool [["a"]; ["b"]]%string)
               = Some two_alive_pool) by reflexivity.
  split; [exact H1|]. split; [exact H2|]. split; [exact H3|].
  exact (filter_run_is_bounded _ _ _ _ _ H1 H2 H3).
Defined.

(** ** The proxy filter with a worker count that is not positive *)

(** A thread count of zero makes the filter raise [ZeroDivisionError]
    before any thread exists; a negative one starts no thread at all, so
    that no candidate is probed and the filter raises "No active proxies
    found" whatever the candidates are. *)
Theorem filter_proxies_without_workers (cfg : Config)
    (total_proxies : list string) (sched : Schedule) :
  thread_num cfg <= 0 ->
  filter_proxies cfg total_proxies sched
  = if thread_num cfg =? 0 then Some (Raise ZeroDivisionError)
    else match sched with
         | [] => Some (Raise (RuntimeError NoActiveProxies))
         | _ :: _ => None
         end.
Proof.
  intros Hle. unfold filter_proxies, thread_slices.
  destruct (thread_num cfg =? 0) eqn:Hz; [reflexivity|].
  unfold py_range. replace (Z.to_nat (thread_num cfg)) with 0%nat by lia.
  simpl. destruct sched as [|[i r] sched]; [reflexivity|].
  simpl. unfold worker_step. simpl. reflexivity.
Qed.

Lemma filter_proxies_without_workers_witness :
  thread_num (mkConfig 3 (-5) 305 10 10000 100) <= 0
  /\ filter_proxies (mkConfig 3 (-5) 305 10 10000 100) ["a"; "b"]%string []
     = Some (Raise (RuntimeError NoActiveProxies))
  /\ filter_proxies (mkConfig 3 0 305 10 10000 100) ["a"; "b"]%string []
     = Some (Raise ZeroDivisionError).
Proof.
  assert (H1 : thread_num (mkConfig 3 (-5) 305 10 10000 100) <= 0)
    by (simpl; lia).
  split; [exact H1|]. split.
  - exact (filter_proxies_without_workers
             (mkConfig 3 (-5) 305 10 10000 100) ["a"; "b"]%string [] H1).
  - reflexivity.
Defined.

(** ** The dispatch loop: leaving the loop, and the books *)

Section DispatchMore.
Context `{World W}.
Implicit Types (s : LoopState W) (cfg : Config) (bvid proxy : string).

Lemma accounted_refl s : accounted s s.
Proof. unfold accounted. repeat split; lia. Qed.

Lemma accounted_trans s1 s2 s3 :
  accounted s1 s2 -> accounted s2 s3 -> accounted s1 s3.
Proof.
  unfold accounted.
  intros (A1 & A2 & A3 & A4 & A5 & A6) (B1 & B2 & B3 & B4 & B5 & B6).
  repeat split; try lia; congruence.
Qed.

Ltac books :=
  unfold accounted, success_lines, click_count, clicks, final_reports, len;
  simpl;
  repeat split; try reflexivity; lia.

Lemma update_view_count_accounted bvid target s :
  accounted s (snd (update_view_count bvid target s)).
Proof.
  unfold update_view_count. simpl.
  destruct (fetch_views bvid (world s)) as [[[i' v]|e] w']; simpl.
  - destruct (target <=? v); books.
  - books.
Qed.

Lemma send_click_accounted bvid target n i proxy s :
  accounted s (snd (send_click bvid target n i proxy s)).
Proof.
  unfold send_click. destruct (click_data bvid (info s)) as [data|e].
  - destruct (click_api proxy data (world s)) as [[status_code|] w'].
    + destruct (status_code =? 200); books.
    + books.
  - apply accounted_refl.
Qed.

Lemma round_body_accounted cfg bvid target n i proxy s :
  accounted s (snd (round_body cfg bvid target n i proxy s)).
Proof.
  unfold round_body.
  destruct (update_pbar_count cfg =? 0); [apply accounted_refl|].
  destruct (i mod update_pbar_count cfg =? 0); [|apply send_click_accounted].
  pose proof (update_view_count_accounted bvid target s) as Hu.
  destruct (update_view_count bvid target s) as [[|] s1]; simpl in Hu;
    [exact Hu|].
  eapply accounted_trans; [exact Hu|apply send_click_accounted].
Qed.

Lemma round_loop_accounted cfg bvid target n i (proxies : list string) s :
  accounted s (snd (round_loop cfg bvid target n i proxies s)).
Proof.
  revert i s. induction proxies as [|p rest IH]; intros i s; simpl;
    [apply accounted_refl|].
  pose proof (round_body_accounted cfg bvid target n i p s) as Hb.
  destruct (round_body cfg bvid target n i p s) as [[| |e] s1]; simpl in Hb;
    try exact Hb.
  eapply accounted_trans; [exact Hb|apply IH].
Qed.

Lemma countdown_accounted target (l : list Z) s :
  accounted s (fold_left (tick target) l s).
Proof.
  revert s. induction l as [|x l IH]; intros s; simpl; [apply accounted_refl|].
  eapply accounted_trans; [|apply IH]. books.
Qed.

Lemma wait_next_round_accounted target remain s :
  accounted s (wait_next_round target remain s).
Proof.
  unfold wait_next_round. destruct (0 <? remain);
    [apply countdown_accounted|apply accounted_refl].
Qed.

Lemma dispatch_rounds_accounted fuel cfg (proxies : list string) bvid target s :
  accounted s (snd (dispatch_rounds fuel cfg proxies bvid target s)).
Proof.
  revert s. induction fuel as [|fuel IH]; intros s; simpl.
  - destruct (current_views s <? target); apply accounted_refl.
  - destruct (current_views s <? target); [|apply accounted_refl].
    pose proof (round_loop_accounted cfg bvid target (len proxies) 0 proxies s)
      as Hr.
    destruct (round_loop cfg bvid target (len proxies) 0 proxies s)
      as [[| |e] s1]; simpl in Hr; try exact Hr.
    eapply accounted_trans; [exact Hr|].
    eapply accounted_trans; [apply wait_next_round_accounted|apply IH].
Qed.

(** *** Leaving the loop means the target was observed *)

Lemma update_view_count_true bvid target s s' :
  update_view_count bvid target s = (true, s') -> target <= current_views s'.
Proof.
  unfold update_view_count. simpl.
  destruct (fetch_views bvid (world s)) as [[[i' v]|e] w']; simpl.
  - destruct (target <=? v) eqn:Hv; intros [= <-]; simpl. lia.
  - discriminate.
Qed.

Lemma send_click_never_breaks bvid target n i proxy s s' :
  send_click bvid target n i proxy s <> (Break, s').
Proof.
  unfold send_click. destruct (click_data bvid (info s)) as [data|e];
    [|discriminate].
  destruct (click_api proxy data (world s)) as [[status_code|] w'];
    [destruct (status_code =? 200)|]; discriminate.
Qed.

Lemma round_loop_break cfg bvid target n i (proxies : list string) s s' :
  round_loop cfg bvid target n i proxies s = (Break, s') ->
  target <= current_views s'.
Proof.
  revert i s. induction proxies as [|p rest IH]; intros i s; simpl;
    [discriminate|].
  destruct (round_body cfg bvid target n i p s) as [[| |e] s1] eqn:Hb.
  - apply IH.
  - intros [= <-]. unfold round_body in Hb.
    destruct (update_pbar_count cfg =? 0); [discriminate|].
    destruct (i mod update_pbar_count cfg =? 0).
    + destruct (update_view_count bvid target s) as [[|] s2] eqn:Hu.
      * injection Hb as <-. eapply update_view_count_true. exact Hu.
      * exfalso. eapply send_click_never_breaks. exact Hb.
    + exfalso. eapply send_click_never_breaks. exact Hb.
  - discriminate.
Qed.

(** The [while] loop is left in the ordinary way only with a counter at
    or above the target in hand: either the one it started with, or one
    that an update has just read. *)
Theorem loop_exit_means_target_observed fuel cfg (proxies : list string)
    bvid target s s' :
  dispatch_rounds fuel cfg proxies bvid target s = (Exited, s') ->
  target <= current_views s'.
Proof.
  revert s. induction fuel as [|fuel IH]; intros s; simpl.
  - destruct (current_views s <? target) eqn:Hlt; [discriminate|].
    intros [= <-]. lia.
  - destruct (current_views s <? target) eqn:Hlt.
    + destruct (round_loop cfg bvid target (len proxies) 0 proxies s)
        as [[| |e] s1] eqn:Hr.
      * apply IH.
      * intros [= <-]. eapply round_loop_break. exact Hr.
      * discriminate.
    + intros [= <-]. lia.
Qed.

(** *** One click per proxy, in the order of the list *)

Lemma update_view_count_clicked bvid target s :
  clicked (trace (snd (update_view_count bvid target s))) = clicked (trace s).
Proof.
  unfold update_view_count. simpl.
  destruct (fetch_views bvid (world s)) as [[[i' v]|e] w']; simpl;
    [destruct (target <=? v)|]; reflexivity.
Qed.

Lemma send_click_clicked bvid target n i proxy s :
  match fst (send_click bvid target n i proxy s) with
  | Next => clicked (trace (snd (send_click bvid target n i proxy s)))
            = proxy :: clicked (trace s)
  | _ => clicked (trace (snd (send_click bvid target n i proxy s)))
         = clicked (trace s)
  end.
Proof.
  unfold send_click. destruct (click_data bvid (info s)) as [data|e];
    [|reflexivity].
  destruct (click_api proxy data (world s)) as [[status_code|] w'];
    [destruct (status_code =? 200)|]; reflexivity.
Qed.

Lemma round_body_clicked cfg bvid target n i proxy s :
  match fst (round_body cfg bvid target n i proxy s) with
  | Next => clicked (trace (snd (round_body cfg bvid target n i proxy s)))
            = proxy :: clicked (trace s)
  | _ => clicked (trace (snd (round_body cfg bvid target n i proxy s)))
         = clicked (trace s)
  end.
Proof.
  unfold round_body.
  destruct (update_pbar_count cfg =? 0); [reflexivity|].
  destruct (i mod update_pbar_count cfg =? 0); [|apply send_click_clicked].
  pose proof (update_view_count_clicked bvid target s) as Hu.
  destruct (update_view_count bvid target s) as [[|] s1]; simpl in Hu;
    [exact Hu|].
  pose proof (send_click_clicked bvid target n i proxy s1) as Hc.
  destruct (fst (send_click bvid target n i proxy s1)); rewrite Hc, Hu;
    reflexivity.
Qed.

Lemma click_count_clicked (tr : list Event) : click_count tr = len (clicked tr).
Proof.
  unfold click_count, clicks, clicked, len. f_equal.
  induction tr as [|e tr IH]; simpl; [reflexivity|].
  destruct e; simpl; rewrite ?IH; reflexivity.
Qed.

(** In one round the click requests go to the proxies one by one in the
    order of the list, each proxy at most once: the proxies clicked are a
    front part of the list; it is the whole list when the round runs to
    its end, and it stops short of the proxy at which the round breaks or
    an exception leaves it. *)
Theorem round_clicks_each_proxy_once_in_order cfg bvid target n i
    (proxies : list string) s :
  exists done rest,
    proxies = done ++ rest
    /\ clicked (trace (snd (round_loop cfg bvid target n i proxies s)))
       = rev done ++ clicked (trace s)
    /\ (fst (round_loop cfg bvid target n i proxies s) = Next -> rest = [])
    /\ (fst (round_loop cfg bvid target n i proxies s) <> Next -> rest <> []).
Proof.
  revert i s. induction proxies as [|p l IH]; intros i s; simpl.
  - exists [], []. split; [reflexivity|]. split; [reflexivity|].
    split; [auto|]. intros Hn. contradiction.
  - pose proof (round_body_clicked cfg bvid target n i p s) as Hb.
    destruct (round_body cfg bvid target n i p s) as [[| |e] s1]; simpl in Hb.
    + destruct (IH (i + 1) s1) as (done & rest & Hsplit & Hcl & Hnext & Hstop).
      exists (p :: done), rest. split; [simpl; congruence|]. split.
      * rewrite Hcl, Hb. simpl. rewrite <- app_assoc. reflexivity.
      * split; assumption.
    + exists [], (p :: l). simpl. split; [reflexivity|].
      split; [exact Hb|]. split; discriminate.
    + exists [], (p :: l). simpl. split; [reflexivity|].
      split; [exact Hb|]. split; discriminate.
Qed.

Lemma round_loop_click_bound cfg bvid target n i (proxies : list string) s :
  click_count (trace (snd (round_loop cfg bvid target n i proxies s)))
  <= click_count (trace s) + len proxies.
Proof.
  revert i s. induction proxies as [|p l IH]; intros i s; simpl.
  - unfold len. simpl. lia.
  - pose proof (round_body_clicked cfg bvid target n i p s) as Hb.
    destruct (round_body cfg bvid target n i p s) as [[| |e] s1]; simpl in Hb.
    + specialize (IH (i + 1) s1). rewrite !click_count_clicked in *.
      rewrite Hb in IH. unfold len in *. simpl length in *. lia.
    + simpl. rewrite !click_count_clicked, Hb. unfold len. lia.
    + simpl. rewrite !click_count_clicked, Hb. unfold len. lia.
Qed.

Lemma wait_next_round_click_count target remain s :
  click_count (trace (wait_next_round target remain s)) = click_count (trace s).
Proof.
  rewrite wait_next_round_trace. unfold click_count, clicks, len. f_equal.
  rewrite List.filter_app, length_app.
  assert (Hz : length (List.filter is_click
                 (flat_map (fun second =>
                    [Sleep; progress target (NextRound second) s])
                    (py_range remain))) = 0%nat).
  { induction (py_range remain) as [|x l IH]; simpl; [reflexivity|exact IH]. }
  rewrite Hz. reflexivity.
Qed.

Lemma dispatch_rounds_click_bound fuel cfg (proxies : list string) bvid target s :
  click_count (trace (snd (dispatch_rounds fuel cfg proxies bvid target s)))
  <= click_count (trace s) + Z.of_nat fuel * len proxies.
Proof.
  pose proof (len_nonneg proxies) as Hk.
  revert s. induction fuel as [|fuel IH]; intros s; simpl dispatch_rounds.
  - destruct (current_views s <? target); simpl; lia.
  - destruct (current_views s <? target); [|simpl; nia].
    pose proof (round_loop_click_bound cfg bvid target (len proxies) 0 proxies s)
      as Hr.
    destruct (round_loop cfg bvid target (len proxies) 0 proxies s)
      as [[| |e] s1]; simpl in Hr; simpl snd; try nia.
    specialize (IH (wait_next_round target
                      (remain_seconds (round_time cfg)
                                      (now (world s1) - now (world s))) s1)).
    rewrite wait_next_round_click_count in IH. nia.
Qed.

(** *** The books of a whole run *)

(** However a run ends, each hit counted by [boost_view_count] has its
    "success" status line and each success line its click request: the
    hits gained are exactly the success lines shown, never more than the
    click requests sent, and those are at most one per proxy and round. *)
Theorem hits_are_accounted_for (fuel : nat) cfg (proxies : list string)
    (st : Statistics) bvid target (w : W) :
  successful_hits (end_stats (boost_view_count fuel cfg proxies st bvid target w))
  - successful_hits st
  = success_lines (end_trace (boost_view_count fuel cfg proxies st bvid target w))
  /\ success_lines (end_trace (boost_view_count fuel cfg proxies st bvid target w))
     <= click_count (end_trace (boost_view_count fuel cfg proxies st bvid target w))
  /\ click_count (end_trace (boost_view_count fuel cfg proxies st bvid target w))
     <= Z.of_nat fuel * len proxies.
Proof.
  pose proof (len_nonneg proxies) as Hk.
  unfold boost_view_count.
  destruct (fetch_views bvid w) as [[[i v]|e] w'].
  2:{ simpl. unfold success_lines, click_count, len. simpl. nia. }
  match goal with
  | |- context [dispatch_rounds fuel cfg proxies bvid target ?s0] =>
      pose proof (dispatch_rounds_accounted fuel cfg proxies bvid target s0)
        as (A1 & A2 & _);
      pose proof (dispatch_rounds_click_bound fuel cfg proxies bvid target s0)
        as B;
      destruct (dispatch_rounds fuel cfg proxies bvid target s0)
        as [[|e|] s1]
  end; simpl in A1, A2, B;
    unfold success_lines, click_count, clicks, len in *; simpl in A1, A2, B.
  - unfold finalize, print_final_statistics.
    destruct (fetch_views bvid (world s1)) as [r w2].
    rewrite success_rate_value. simpl.
    unfold success_lines, click_count, clicks, len. simpl. lia.
  - simpl. lia.
  - simpl. lia.
Qed.
End DispatchMore.

(** ** Whole runs *)

Section Runs.
Context `{World W}.
Implicit Types (s : LoopState W) (cfg : Config) (bvid proxy : string).

(** A counter that is already at the target when the run starts: no
    round is run, no click request is sent and nothing is waited for; the
    view API is asked twice (at the start and for the report), the hit
    count is left as it was, and the report shows the final read, or the
    initial counter if the final read fails. *)
Theorem no_round_when_already_at_target (fuel : nat) cfg
    (proxies : list string) (st : Statistics) bvid target (w w' : W) i v :
  fetch_views bvid w = (Return (i, v), w') ->
  target <= v ->
  outcome (boost_view_count fuel cfg proxies st bvid target w)
  = Reported (match fst (fetch_views bvid w') with
              | Return (_, v') => v'
              | Raise _ => v
              end)
  /\ clicks (end_trace (boost_view_count fuel cfg proxies st bvid target w)) = []
  /\ sleeps (end_trace (boost_view_count fuel cfg proxies st bvid target w)) = 0%nat
  /\ view_requests (end_trace (boost_view_count fuel cfg proxies st bvid target w))
     = 2
  /\ successful_hits (end_stats (boost_view_count fuel cfg proxies st bvid target w))
     = successful_hits st.
Proof.
  intros Hf Hv. unfold boost_view_count. rewrite Hf.
  assert (Hd : forall s, current_views s = v ->
            dispatch_rounds fuel cfg proxies bvid target s = (Exited, s)).
  { intros s Hs. assert (E : (current_views s <? target) = false) by lia.
    destruct fuel; simpl; rewrite E; reflexivity. }
  rewrite Hd by reflexivity.
  unfold finalize, print_final_statistics. simpl.
  destruct (fetch_views bvid w') as [[[i2 v2]|e] w2]; simpl;
    rewrite success_rate_value; simpl; unfold get_duration; simpl;
    repeat split; try reflexivity; lia.
Qed.

(** An update interval of zero (possible through the configuration file)
    stops the run at the first proxy of the first round with
    [ZeroDivisionError]: no click request is sent, no end time is set and
    no report is printed. *)
Theorem zero_update_interval_stops_the_run (fuel : nat) cfg proxy
    (rest : list string) (st : Statistics) bvid target (w w' : W) i v :
  update_pbar_count cfg = 0 ->
  fetch_views bvid w = (Return (i, v), w') ->
  v < target ->
  outcome (boost_view_count (S fuel) cfg (proxy :: rest) st bvid target w)
  = Propagated ZeroDivisionError
  /\ clicks (end_trace (boost_view_count (S fuel) cfg (proxy :: rest) st
                                        bvid target w)) = []
  /\ view_requests (end_trace (boost_view_count (S fuel) cfg (proxy :: rest) st
                                               bvid target w)) = 1
  /\ final_reports (end_trace (boost_view_count (S fuel) cfg (proxy :: rest) st
                                                bvid target w)) = 0
  /\ end_time (end_stats (boost_view_count (S fuel) cfg (proxy :: rest) st
                                          bvid target w)) = end_time st.
Proof.
  intros Hz Hf Hv. unfold boost_view_count. rewrite Hf. simpl.
  assert (E : (v <? target) = true) by lia. rewrite E.
  unfold round_body. rewrite Hz. simpl. repeat split; reflexivity.
Qed.

Lemma click_data_raises_key_error bvid i e :
  click_data bvid i = Raise e -> exists key, e = KeyError key.
Proof.
  unfold click_data.
  destruct (aid i); [|intros [= <-]; eauto].
  destruct (cid i); [|intros [= <-]; eauto].
  destruct (owner_mid i); [|intros [= <-]; eauto].
  destruct (desc_v2 i) as [|[t|] l]; try discriminate.
  intros [= <-]. eauto.
Qed.

(** A snapshot that lacks one of the identifiers of the click form stops
    the loop with [KeyError] at the click that would use it: the update
    that fetched it is accepted, no click request is sent, and the
    exception leaves the loop. *)
Theorem snapshot_without_identifiers_stops_the_loop (fuel : nat) cfg proxy
    (rest : list string) bvid target s i' v' w' e :
  update_pbar_count cfg <> 0 ->
  current_views s < target ->
  fetch_views bvid (world s) = (Return (i', v'), w') ->
  v' < target ->
  click_data bvid i' = Raise e ->
  exists s',
    dispatch_rounds (S fuel) cfg (proxy :: rest) bvid target s = (Threw e, s')
    /\ info s' = i'
    /\ clicks (trace s') = clicks (trace s)
    /\ stats s' = stats s
    /\ exists key, e = KeyError key.
Proof.
  intros Hn Hlt Hf Hv Hdata. simpl.
  assert (E : (current_views s <? target) = true) by lia. rewrite E.
  rewrite round_body_poll by (try exact Hn; apply Z.mod_0_l; exact Hn).
  rewrite (update_view_count_below _ _ _ _ _ _ Hf Hv).
  unfold send_click. simpl. rewrite Hdata.
  eexists. split; [reflexivity|]. simpl.
  repeat split. eapply click_data_raises_key_error. exact Hdata.
Qed.

(** After a successful initial read the statistics hold the counter read
    and the time of that moment, whatever happens next; the end time is
    set exactly when the run reaches its report, and the duration is then
    the distance between the two. *)
Theorem run_sets_its_timestamps (fuel : nat) cfg (proxies : list string)
    (st : Statistics) bvid target (w w' : W) i v :
  fetch_views bvid w = (Return (i, v), w') ->
  initial_view_count (end_stats (boost_view_count fuel cfg proxies st bvid target w))
  = v
  /\ start_time (end_stats (boost_view_count fuel cfg proxies st bvid target w))
     = Some (now w')
  /\ match outcome (boost_view_count fuel cfg proxies st bvid target w) with
     | Reported _ =>
         exists t,
           end_time (end_stats (boost_view_count fuel cfg proxies st bvid target w))
           = Some t
           /\ get_duration
                (end_stats (boost_view_count fuel cfg proxies st bvid target w))
              = t - now w'
     | Aborted => False
     | _ =>
         end_time (end_stats (boost_view_count fuel cfg proxies st bvid target w))
         = end_time st
     end.
Proof.
  intros Hf. unfold boost_view_count. rewrite Hf.
  match goal with
  | |- context [dispatch_rounds fuel cfg proxies bvid target ?s0] =>
      pose proof (dispatch_rounds_accounted fuel cfg proxies bvid target s0)
        as (_ & _ & A3 & A4 & A5 & _);
      destruct (dispatch_rounds fuel cfg proxies bvid target s0) as [[|e|] s1]
  end; simpl in A3, A4, A5.
  - unfold finalize, print_final_statistics.
    destruct (fetch_views bvid (world s1)) as [r w2].
    rewrite success_rate_value. simpl.
    split; [exact A3|]. split; [exact A4|].
    eexists. split; [reflexivity|]. unfold get_duration. simpl.
    rewrite A4. reflexivity.
  - simpl. auto.
  - simpl. auto.
Qed.

(** The final statistics are printed exactly when the run gets through
    its loop, once, as its last output; what they show is what the
    statistics hold: the initial counter, the hits, the duration, the rate
    that [calculate_success_rate] gives for the number of proxies. *)
Theorem final_report_matches_statistics (fuel : nat) cfg
    (proxies : list string) (st : Statistics) bvid target (w : W) :
  match outcome (boost_view_count fuel cfg proxies st bvid target w) with
  | Reported final_views =>
      exists rep tl,
        end_trace (boost_view_count fuel cfg proxies st bvid target w)
        = FinalStatistics rep :: tl
        /\ final_reports tl = 0
        /\ rep_final rep = final_views
        /\ rep_initial rep
           = initial_view_count
               (end_stats (boost_view_count fuel cfg proxies st bvid target w))
        /\ rep_hits rep
           = successful_hits
               (end_stats (boost_view_count fuel cfg proxies st bvid target w))
        /\ rep_duration rep
           = get_duration
               (end_stats (boost_view_count fuel cfg proxies st bvid target w))
        /\ rep_proxies rep = len proxies
        /\ calculate_success_rate
             (end_stats (boost_view_count fuel cfg proxies st bvid target w))
             (len proxies)
           = Return (rep_rate rep)
  | _ =>
      final_reports (end_trace (boost_view_count fuel cfg proxies st bvid target w))
      = 0
  end.
Proof.
  unfold boost_view_count.
  destruct (fetch_views bvid w) as [[[i v]|e] w']; [|reflexivity].
  match goal with
  | |- context [dispatch_rounds fuel cfg proxies bvid target ?s0] =>
      pose proof (dispatch_rounds_accounted fuel cfg proxies bvid target s0)
        as (_ & _ & _ & _ & _ & A6);
      destruct (dispatch_rounds fuel cfg proxies bvid target s0) as [[|e|] s1]
  end; simpl in A6; try exact A6.
  unfold finalize, print_final_statistics.
  destruct (fetch_views bvid (world s1)) as [r w2].
  rewrite success_rate_value. simpl.
  eexists _, _. split; [reflexivity|].
  split; [unfold final_reports in *; simpl; exact A6|].
  repeat split. rewrite success_rate_value. reflexivity.
Qed.

(** [get_video_info] returns a payload exactly when the response has a
    status outside 400..599, a JSON body, application code 0 and a [data]
    entry; with a non-zero code it raises the error that carries the
    message of the remote side, or "Unknown error" when there is none. *)
Theorem get_video_info_returns_iff bvid (w : W) :
  (forall d,
     fst (get_video_info bvid w) = Return d
     <-> exists status_code payload,
           fst (view_api bvid w) = GetResponse status_code (BodyJson payload)
           /\ raise_for_status status_code = false
           /\ env_code payload = Some 0
           /\ env_data payload = Some d)
  /\ (forall status_code payload c,
        fst (view_api bvid w) = GetResponse status_code (BodyJson payload) ->
        raise_for_status status_code = false ->
        env_code payload = Some c -> c <> 0 ->
        fst (get_video_info bvid w)
        = Raise (RuntimeError
                   (ApiError (default "Unknown error"%string
                                      (env_message payload)))))
  /\ snd (get_video_info bvid w) = snd (view_api bvid w).
Proof.
  unfold get_video_info.
  destruct (view_api bvid w) as [reply w'] eqn:Hreply. simpl.
  split; [|split; [|reflexivity]].
  - intros d. split.
    + destruct reply as [|status_code [|payload]]; try discriminate.
      * destruct (raise_for_status status_code); discriminate.
      * destruct (raise_for_status status_code) eqn:Hs; [discriminate|].
        destruct (env_code payload) as [c|] eqn:Hc; [|discriminate].
        destruct (c =? 0) eqn:Hz; [|discriminate].
        destruct (env_data payload) as [d'|] eqn:Hd; [|discriminate].
        intros [= <-]. assert (c = 0) by lia. subst c.
        exists status_code, payload. auto.
    + intros (status_code & payload & -> & Hs & Hc & Hd).
      rewrite Hs, Hc, Hd. reflexivity.
  - intros status_code payload c -> Hs Hc Hnz. rewrite Hs, Hc.
    assert (Hz : (c =? 0) = false) by lia. rewrite Hz. reflexivity.
Qed.
End Runs.

(** ** The further properties on concrete runs *)

Lemma loop_exit_means_target_observed_witness :
  fst (dispatch_rounds 1 scenario_config scenario_proxies "BV1" 1000
                       scenario_state) = Exited
  /\ 1000 <= current_views
               (snd (dispatch_rounds 1 scenario_config scenario_proxies "BV1"
                                     1000 scenario_state)).
Proof.
  assert (H1 : dispatch_rounds 1 scenario_config scenario_proxies "BV1" 1000
                               scenario_state
               = (Exited,
                  snd (dispatch_rounds 1 scenario_config scenario_proxies "BV1"
                                       1000 scenario_state)))
    by (vm_compute; reflexivity).
  split; [vm_compute; reflexivity|].
  exact (loop_exit_means_target_observed _ _ _ _ _ _ _ H1).
Defined.

Lemma no_round_when_already_at_target_witness :
  fetch_views "BV1" at_target_script
  = (Return (info_with 1005, 1005),
     mkScript [ok_reply 1005] [] 10000000 10000000 15000000)
  /\ 1000 <= 1005
  /\ outcome (boost_view_count 0 default_config scenario_proxies new_statistics
                               "BV1" 1000 at_target_script)
     = Reported 1005
  /\ clicks (end_trace (boost_view_count 0 default_config scenario_proxies
                                         new_statistics "BV1" 1000
                                         at_target_script)) = [].
Proof.
  assert (H1 : fetch_views "BV1" at_target_script
               = (Return (info_with 1005, 1005),
                  mkScript [ok_reply 1005] [] 10000000 10000000 15000000))
    by (vm_compute; reflexivity).
  assert (H2 : 1000 <= 1005) by lia.
  split; [exact H1|]. split; [exact H2|].
  destruct (no_round_when_already_at_target 0 default_config scenario_proxies
              new_statistics "BV1"%string 1000 at_target_script _ _ _ H1 H2)
    as (Ho & Hc & _).
  split; [exact Ho|exact Hc].
Defined.

Lemma zero_update_interval_stops_the_run_witness :
  update_pbar_count (mkConfig 3 75 305 0 10000 100) = 0
  /\ fetch_views "BV1" scenario_script
     = (Return (info_with 960, 960),
        mkScript [ok_reply 1005] [PostStatus 200; PostRequestException]
                 10000000 10000000 15000000)
  /\ 960 < 1000
  /\ outcome (boost_view_count 1 (mkConfig 3 75 305 0 10000 100)
                               ("p0"%string :: ["p1"; "p2"]%string)
                               new_statistics "BV1" 1000 scenario_script)
     = Propagated ZeroDivisionError.
Proof.
  assert (H1 : update_pbar_count (mkConfig 3 75 305 0 10000 100) = 0)
    by reflexivity.
  assert (H2 : fetch_views "BV1" scenario_script
               = (Return (info_with 960, 960),
                  mkScript [ok_reply 1005] [PostStatus 200; PostRequestException]
                           10000000 10000000 15000000))
    by (vm_compute; reflexivity).
  assert (H3 : 960 < 1000) by lia.
  split; [exact H1|]. split; [exact H2|]. split; [exact H3|].
  destruct (zero_update_interval_stops_the_run 0 (mkConfig 3 75 305 0 10000 100)
              "p0"%string ["p1"; "p2"]%string new_statistics "BV1"%string 1000
              scenario_script _ _ _ H1 H2 H3)
    as (Ho & _).
  exact Ho.
Defined.

Lemma snapshot_without_identifiers_stops_the_loop_witness :
  update_pbar_count default_config <> 0
  /\ current_views no_aid_state < 1000
  /\ click_data "BV1" (info_without_aid 960) = Raise (KeyError "aid")
  /\ exists s',
       dispatch_rounds 1 default_config ("p0"%string :: ["p1"]%string) "BV1"
                       1000 no_aid_state
       = (Threw (KeyError "aid"), s')
       /\ clicks (trace s') = [].
Proof.
  assert (H1 : update_pbar_count default_config <> 0) by (simpl; lia).
  assert (H2 : current_views no_aid_state < 1000) by (simpl; lia).
  assert (H3 : fetch_views "BV1" (world no_aid_state)
               = (Return (info_without_aid 960, 960),
                  mkScript [] [PostStatus 200] 10000000 10000000 15000000))
    by (vm_compute; reflexivity).
  assert (H4 : 960 < 1000) by lia.
  assert (H5 : click_data "BV1" (info_without_aid 960) = Raise (KeyError "aid"))
    by reflexivity.
  split; [exact H1|]. split; [exact H2|]. split; [exact H5|].
  destruct (snapshot_without_identifiers_stops_the_loop 0 default_config
              "p0"%string ["p1"]%string "BV1"%string 1000 no_aid_state
              _ _ _ _ H1 H2 H3 H4 H5)
    as (s' & Hd & _ & Hc & _).
  exists s'. split; [exact Hd|exact Hc].
Defined.

Lemma run_sets_its_timestamps_witness :
  fetch_views "BV1" at_target_script
  = (Return (info_with 1005, 1005),
     mkScript [ok_reply 1005] [] 10000000 10000000 15000000)
  /\ initial_view_count
       (end_stats (boost_view_count 1 default_config scenario_proxies
                                    new_statistics "BV1" 1000 at_target_script))
     = 1005
  /\ start_time
       (end_stats (boost_view_count 1 default_config scenario_proxies
                                    new_statistics "BV1" 1000 at_target_script))
     = Some 10000000.
Proof.
  assert (H1 : fetch_views "BV1" at_target_script
               = (Return (info_with 1005, 1005),
                  mkScript [ok_reply 1005] [] 10000000 10000000 15000000))
    by (vm_compute; reflexivity).
  split; [exact H1|].
  destruct (run_sets_its_timestamps 1 default_config scenario_proxies
              new_statistics "BV1"%string 1000 at_target_script _ _ _ H1)
    as (Hi & Hs & _).
  split; [exact Hi|exact Hs].
Defined.

(** ** The proxy source *)

Section Source.
Context `{ProxySource W}.
Implicit Types (cfg : Config) (w : W) (tr : list SourceEvent).

Lemma py_slice_from_start {A} (l : list A) (stop : Z) :
  py_slice l 0 stop = take (Z.to_nat (slice_bound (len l) stop)) l.
Proof.
  unfold py_slice. pose proof (len_nonneg l).
  assert (H0' : slice_bound (len l) 0 = 0) by (unfold slice_bound; simpl; lia).
  rewrite H0'. simpl. rewrite Z.sub_0_r. reflexivity.
Qed.

Lemma limit_proxies_spec cfg (total_proxies : list string) w tr :
  exists rest,
    Permutation (fst (fst (limit_proxies cfg total_proxies w tr)) ++ rest)
                total_proxies
    /\ (len total_proxies <= max_proxies cfg ->
        fst (fst (limit_proxies cfg total_proxies w tr)) = total_proxies)
    /\ (0 <= max_proxies cfg ->
        len (fst (fst (limit_proxies cfg total_proxies w tr)))
        = Z.min (len total_proxies) (max_proxies cfg))
    /\ requested (snd (limit_proxies cfg total_proxies w tr)) = requested tr.
Proof.
  unfold limit_proxies.
  destruct (max_proxies cfg <? len total_proxies) eqn:Hmax.
  - pose proof (shuffle_permutes total_proxies w) as Hperm.
    destruct (shuffle total_proxies w) as [shuffled w']. simpl in *.
    rewrite py_slice_from_start.
    exists (drop (Z.to_nat (slice_bound (len shuffled) (max_proxies cfg))) shuffled).
    rewrite take_drop. split; [exact Hperm|]. split; [lia|]. split; [|reflexivity].
    intros Hpos. apply Permutation_length in Hperm.
    unfold len in *. rewrite length_take.
    unfold slice_bound. destruct (max_proxies cfg <? 0) eqn:E; lia.
  - simpl. exists []. rewrite app_nil_r. split; [reflexivity|].
    split; [reflexivity|]. split; [lia|reflexivity].
Qed.

Lemma try_day_requested cfg day w tr :
  requested (snd (try_day cfg day w tr)) = day :: requested tr.
Proof.
  unfold try_day. destruct (archive_api day w) as [[|status_code body] w1];
    [reflexivity|].
  destruct (status_code =? 200); [|reflexivity].
  destruct body as [| |p]; try reflexivity.
  destruct (proxy_entries p) as [entries|]; [|reflexivity].
  destruct (min_proxies_threshold cfg <=? len entries); [|reflexivity].
  match goal with
  | |- context [limit_proxies cfg entries w1 ?t] =>
      destruct (limit_proxies_spec cfg entries w1 t) as (_ & _ & _ & _ & Hr);
      destruct (limit_proxies cfg entries w1 t) as [[l w2] tr2]
  end.
  simpl in *. exact Hr.
Qed.

Lemma try_day_collected cfg day w tr l :
  fst (fst (try_day cfg day w tr)) = Some l ->
  exists p entries rest,
    fst (archive_api day w) = ArchiveResponse 200 (ArchiveList p)
    /\ proxy_entries p = Some entries
    /\ min_proxies_threshold cfg <= len entries
    /\ Permutation (l ++ rest) entries
    /\ (len entries <= max_proxies cfg -> l = entries)
    /\ (0 <= max_proxies cfg -> len l = Z.min (len entries) (max_proxies cfg)).
Proof.
  unfold try_day. destruct (archive_api day w) as [[|status_code body] w1];
    [discriminate|].
  destruct (status_code =? 200) eqn:Hs; [|discriminate].
  assert (status_code = 200) by lia. subst status_code.
  destruct body as [| |p]; try discriminate.
  destruct (proxy_entries p) as [entries|] eqn:Hp; [|discriminate].
  destruct (min_proxies_threshold cfg <=? len entries) eqn:Hmin; [|discriminate].
  match goal with
  | |- context [limit_proxies cfg entries w1 ?t] =>
      destruct (limit_proxies_spec cfg entries w1 t)
        as (rest & Hperm & Hsame & Hlen & _);
      destruct (limit_proxies cfg entries w1 t) as [[l' w2] tr2]
  end.
  simpl in *. intros [= <-].
  exists p, entries, rest. repeat split; auto. lia.
Qed.

(** The days asked for by [k] attempts that start the day before [day],
    the latest first. *)
Lemma search_archive_requested (attempts : nat) cfg day w tr :
  exists j : nat,
    (j <= attempts)%nat
    /\ requested (snd (search_archive attempts cfg day w tr))
       = rev (map (fun k => day - Z.of_nat k) (seq 1 j)) ++ requested tr
    /\ (fst (fst (search_archive attempts cfg day w tr)) = None -> j = attempts)
    /\ (fst (fst (search_archive attempts cfg day w tr)) <> None -> (1 <= j)%nat).
Proof.
  revert day w tr. induction attempts as [|n IH]; intros day w tr; simpl.
  - exists 0%nat. simpl. repeat split; auto. intros Hn. contradiction.
  - pose proof (try_day_requested cfg (day - 1) w tr) as Hreq.
    destruct (try_day cfg (day - 1) w tr) as [[[l|] w1] tr1]; simpl in Hreq.
    + exists 1%nat. simpl. rewrite Hreq.
      repeat split; try lia; try discriminate.
    + destruct (IH (day - 1) w1 tr1) as (j & Hj & Hr & Hnone & Hsome).
      exists (S j). split; [lia|]. split.
      * assert (Es : seq 1 (S j) = 1%nat :: map S (seq 1 j))
          by (simpl; rewrite seq_shift; reflexivity).
        rewrite Hr, Hreq, Es, map_cons, map_map.
        simpl rev. rewrite <- app_assoc. simpl. f_equal.
        f_equal. apply map_ext. intros k. lia.
      * split; [intros Hn; rewrite (Hnone Hn); reflexivity|lia].
Qed.

Lemma after_attempts_requested (k : nat) cfg today w tr :
  requested (snd (after_attempts k cfg today w tr))
  = rev (map (fun i => today - Z.of_nat i) (seq 1 k)) ++ requested tr.
Proof.
  induction k as [|k IH]; [reflexivity|].
  simpl after_attempts.
  destruct (after_attempts k cfg today w tr) as [w1 tr1]. simpl in IH.
  pose proof (try_day_requested cfg (today - Z.of_nat (S k)) w1 tr1) as Hreq.
  destruct (try_day cfg (today - Z.of_nat (S k)) w1 tr1) as [[r w2] tr2].
  cbn [snd] in Hreq |- *. rewrite Hreq, IH, seq_S, map_app, rev_app_distr.
  reflexivity.
Qed.

(** The first pass carried out after [k] passes that did not return is
    pass number [k]. *)
Lemma after_attempts_shift (k : nat) cfg day w tr :
  after_attempts (S k) cfg day w tr
  = after_attempts k cfg (day - 1) (snd (fst (try_day cfg (day - 1) w tr)))
                   (snd (try_day cfg (day - 1) w tr)).
Proof.
  induction k as [|k IH].
  - simpl. replace (day - Z.of_nat 1) with (day - 1) by lia.
    destruct (try_day cfg (day - 1) w tr) as [[r w1] tr1]. reflexivity.
  - change (after_attempts (S (S k)) cfg day w tr)
      with (let '(w1, tr1) := after_attempts (S k) cfg day w tr in
            let '(_, w2, tr2) := try_day cfg (day - Z.of_nat (S (S k))) w1 tr1 in
            (w2, tr2)).
    rewrite IH. simpl after_attempts at 2.
    replace (day - 1 - Z.of_nat (S k)) with (day - Z.of_nat (S (S k))) by lia.
    reflexivity.
Qed.

Lemma attempt_shift (k : nat) cfg day w tr :
  attempt (S k) cfg day w tr
  = attempt k cfg (day - 1) (snd (fst (try_day cfg (day - 1) w tr)))
            (snd (try_day cfg (day - 1) w tr)).
Proof.
  unfold attempt. rewrite after_attempts_shift.
  replace (day - 1 - Z.of_nat (S k)) with (day - Z.of_nat (S (S k))) by lia.
  reflexivity.
Qed.

Lemma attempt_first cfg day w tr :
  attempt 0 cfg day w tr = try_day cfg (day - 1) w tr.
Proof.
  unfold attempt. simpl. replace (day - Z.of_nat 1) with (day - 1) by lia.
  reflexivity.
Qed.

(** The loop returns what its first successful pass gives, and runs all
    its passes when none succeeds. *)
Lemma search_archive_first (attempts : nat) cfg day w tr :
  match fst (fst (search_archive attempts cfg day w tr)) with
  | Some l =>
      exists j : nat,
        (j < attempts)%nat
        /\ (forall k, (k < j)%nat -> fst (fst (attempt k cfg day w tr)) = None)
        /\ attempt j cfg day w tr = search_archive attempts cfg day w tr
  | None =>
      (forall k, (k < attempts)%nat -> fst (fst (attempt k cfg day w tr)) = None)
      /\ after_attempts attempts cfg day w tr
         = (snd (fst (search_archive attempts cfg day w tr)),
            snd (search_archive attempts cfg day w tr))
  end.
Proof.
  revert day w tr. induction attempts as [|n IH]; intros day w tr.
  - simpl. split; [intros k Hk; lia|reflexivity].
  - simpl search_archive.
    pose proof (attempt_first cfg day w tr) as H0.
    pose proof (fun k => attempt_shift k cfg day w tr) as Hsh.
    pose proof (after_attempts_shift n cfg day w tr) as Hash.
    destruct (try_day cfg (day - 1) w tr) as [[[l|] w1] tr1] eqn:Ht;
      simpl in Hsh, Hash.
    + simpl. exists 0%nat. split; [lia|]. split; [intros k Hk; lia|exact H0].
    + specialize (IH (day - 1) w1 tr1).
      destruct (search_archive n cfg (day - 1) w1 tr1) as [[[l|] w2] tr2];
        simpl in IH |- *.
      * destruct IH as (j & Hj & Hbefore & Hat).
        exists (S j). split; [lia|]. split.
        -- intros [|k] Hk; [rewrite H0; reflexivity|].
           rewrite Hsh. apply Hbefore. lia.
        -- rewrite Hsh. exact Hat.
      * destruct IH as (Hall & Hend). split.
        -- intros [|k] Hk; [rewrite H0; reflexivity|].
           rewrite Hsh. apply Hall. lia.
        -- rewrite Hash. exact Hend.
Qed.

(** [get_proxies] asks for the archives of consecutive days, starting the
    day before today and going backwards; it stops at the first archive
    that gives enough proxies, whose list it returns, and it fails after
    exactly seven days, none of which gave enough.  [j] is the number of
    archives asked for. *)
Theorem get_proxies_asks_day_by_day cfg (today : Z) w :
  exists j : nat,
    (1 <= j <= 7)%nat
    /\ rev (requested (snd (get_proxies cfg today w)))
       = map (fun k => today - Z.of_nat k) (seq 1 j)
    /\ (forall k, (S k < j)%nat ->
          fst (fst (attempt k cfg today w [SourceLog INFO StartingCollection]))
          = None)
    /\ match fst (fst (get_proxies cfg today w)) with
       | NotEnough n =>
           n = 7 /\ j = 7%nat
           /\ fst (fst (attempt 6 cfg today w [SourceLog INFO StartingCollection]))
              = None
       | Collected total_proxies =>
           attempt (j - 1) cfg today w [SourceLog INFO StartingCollection]
           = (Some total_proxies, snd (fst (get_proxies cfg today w)),
              snd (get_proxies cfg today w))
       end.
Proof.
  unfold get_proxies.
  destruct (search_archive_requested max_attempts cfg today w
              [SourceLog INFO StartingCollection])
    as (j & Hj & Hr & Hnone & Hsome).
  pose proof (search_archive_first max_attempts cfg today w
                [SourceLog INFO StartingCollection]) as Hfirst.
  destruct (search_archive max_attempts cfg today w
              [SourceLog INFO StartingCollection]) as [[[l|] w1] tr1] eqn:Hs;
    simpl in *.
  - destruct Hfirst as (i & Hi & Hbefore & Hat).
    assert (Hji : j = S i).
    { pose proof (f_equal (fun x => requested (snd x)) Hat) as Hreq.
      simpl in Hreq. rewrite Hr, app_nil_r in Hreq.
      unfold attempt in Hreq.
      pose proof (after_attempts_requested i cfg today w
                    [SourceLog INFO StartingCollection]) as Hai.
      destruct (after_attempts i cfg today w [SourceLog INFO StartingCollection])
        as [wi tri].
      rewrite try_day_requested in Hreq. simpl in Hai. rewrite Hai in Hreq.
      rewrite app_nil_r in Hreq.
      pose proof (f_equal (@length Z) Hreq) as Hlen.
      simpl in Hlen. rewrite !length_rev, !length_map, !length_seq in Hlen.
      lia. }
    subst j. exists (S i).
    split; [unfold max_attempts in *; lia|].
    split; [rewrite Hr, app_nil_r, rev_involutive; reflexivity|].
    split; [intros k Hk; apply Hbefore; lia|].
    replace (S i - 1)%nat with i by lia. exact Hat.
  - destruct Hfirst as (Hall & _).
    exists j. rewrite (Hnone eq_refl) in *. split; [unfold max_attempts; lia|].
    split; [rewrite Hr, app_nil_r, rev_involutive; reflexivity|].
    split; [intros k Hk; apply Hall; unfold max_attempts in *; lia|].
    split; [reflexivity|]. split; [reflexivity|].
    apply Hall. unfold max_attempts. lia.
Qed.

Lemma search_archive_collected (attempts : nat) cfg day w tr l :
  fst (fst (search_archive attempts cfg day w tr)) = Some l ->
  exists d wd trd, fst (fst (try_day cfg d wd trd)) = Some l.
Proof.
  revert day w tr. induction attempts as [|n IH]; intros day w tr; simpl;
    [discriminate|].
  destruct (try_day cfg (day - 1) w tr) as [[[l'|] w1] tr1] eqn:Ht.
  - simpl. intros [= <-]. exists (day - 1), w, tr. rewrite Ht. reflexivity.
  - apply IH.
Qed.

(** The list that [get_proxies] returns comes from one archive answer
    with status 200 and at least [min_proxies_threshold] entries: it is
    that list itself when it has at most [max_proxies] entries, and
    otherwise a selection of [max_proxies] of its entries (for a
    non-negative maximum), each entry taken at most as often as the
    archive lists it. *)
Theorem get_proxies_selects_from_one_archive cfg (today : Z) w
    (total_proxies : list string) :
  fst (fst (get_proxies cfg today w)) = Collected total_proxies ->
  exists day wd p entries rest,
    fst (archive_api day wd) = ArchiveResponse 200 (ArchiveList p)
    /\ proxy_entries p = Some entries
    /\ min_proxies_threshold cfg <= len entries
    /\ Permutation (total_proxies ++ rest) entries
    /\ (len entries <= max_proxies cfg -> total_proxies = entries)
    /\ (0 <= max_proxies cfg ->
        len total_proxies = Z.min (len entries) (max_proxies cfg)).
Proof.
  unfold get_proxies. intros Hres.
  destruct (search_archive max_attempts cfg today w
              [SourceLog INFO StartingCollection]) as [[[l|] w1] tr1] eqn:Hs;
    simpl in Hres; [|discriminate].
  injection Hres as ->.
  destruct (search_archive_collected max_attempts cfg today w
              [SourceLog INFO StartingCollection] total_proxies)
    as (d & wd & trd & Ht); [rewrite Hs; reflexivity|].
  destruct (try_day_collected cfg d wd trd total_proxies Ht)
    as (p & entries & rest & H1 & H2 & H3 & H4 & H5 & H6).
  exists d, wd, p, entries, rest. auto 10.
Qed.

(** When an archive lists its proxies as a mapping, its empty entries are
    dropped before the threshold is applied, and every proxy taken is a
    value of the mapping; when it lists them as a plain list of at most
    [max_proxies] entries, the list is taken as it is, empty entries
    included. *)
Theorem mapping_entries_are_never_empty cfg (day : Z) w tr status_code
    (p : ProxyList) (l : list string) :
  fst (archive_api day w) = ArchiveResponse status_code (ArchiveList p) ->
  fst (fst (try_day cfg day w tr)) = Some l ->
  match p with
  | ProxyMap m =>
      Forall (fun proxy => proxy <> EmptyString /\ In proxy (map snd m)) l
  | ProxySeq entries => len entries <= max_proxies cfg -> l = entries
  | ProxyOther => False
  end.
Proof.
  intros Hreply Ht.
  destruct (try_day_collected cfg day w tr l Ht)
    as (p' & entries & rest & H1 & H2 & _ & H4 & H5 & _).
  rewrite Hreply in H1. injection H1 as -> <-.
  destruct p as [entries'|m|]; simpl in H2.
  - injection H2 as ->. exact H5.
  - injection H2 as <-. apply List.Forall_forall. intros x Hx.
    assert (Hin : In x (List.filter truthy (map snd m))).
    { apply (Permutation_in _ H4). apply in_or_app. left. exact Hx. }
    apply filter_In in Hin as [Hin Ht']. split; [|exact Hin].
    intros ->. discriminate Ht'.
  - discriminate.
Qed.
End Source.

Lemma get_proxies_selects_from_one_archive_witness :
  fst (fst (get_proxies small_config 20000 mapping_site))
  = Collected ["a"; "b"]%string
  /\ exists day wd p entries rest,
       fst (archive_api day wd) = ArchiveResponse 200 (ArchiveList p)
       /\ proxy_entries p = Some entries
       /\ min_proxies_threshold small_config <= len entries
       /\ Permutation (["a"; "b"]%string ++ rest) entries
       /\ (len entries <= max_proxies small_config -> ["a"; "b"]%string = entries)
       /\ (0 <= max_proxies small_config ->
           len ["a"; "b"]%string = Z.min (len entries) (max_proxies small_config)).
Proof.
  assert (H1 : fst (fst (get_proxies small_config 20000 mapping_site))
               = Collected ["a"; "b"]%string) by (vm_compute; reflexivity).
  split; [exact H1|].
  exact (get_proxies_selects_from_one_archive small_config 20000 mapping_site
           ["a"; "b"]%string H1).
Defined.

Lemma mapping_entries_are_never_empty_witness :
  fst (archive_api 19999 mapping_site)
  = ArchiveResponse 200
      (ArchiveList (ProxyMap [("0", "a"); ("1", ""); ("2", "b")]%string))
  /\ fst (fst (try_day small_config 19999 mapping_site []))
     = Some ["a"; "b"]%string
  /\ Forall (fun proxy => proxy <> EmptyString
                          /\ In proxy (map snd [("0", "a"); ("1", ""); ("2", "b")]%string))
            ["a"; "b"]%string.
Proof.
  assert (H1 : fst (archive_api 19999 mapping_site)
               = ArchiveResponse 200
                   (ArchiveList (ProxyMap [("0", "a"); ("1", ""); ("2", "b")]%string)))
    by reflexivity.
  assert (H2 : fst (fst (try_day small_config 19999 mapping_site []))
               = Some ["a"; "b"]%string) by (vm_compute; reflexivity).
  split; [exact H1|]. split; [exact H2|].
  exact (mapping_entries_are_never_empty small_config 19999 mapping_site []
           200 _ _ H1 H2).
Defined.

Example get_proxies_gives_up_after_seven_days :
  fst (fst (get_proxies small_config 20000 silent_site)) = NotEnough 7
  /\ requested (snd (get_proxies small_config 20000 silent_site))
     = [19993; 19994; 19995; 19996; 19997; 19998; 19999].
Proof. split; vm_compute; reflexivity. Qed.

(** A missing archive for yesterday and a sufficient one for the day
    before: two archives are asked for, the list is that of the second,
    and the third archive is left unasked. *)
Example get_proxies_stops_at_the_first_sufficient_day :
  fst (fst (get_proxies small_config 20000 late_site))
  = Collected ["a"; "b"]%string
  /\ requested (snd (get_proxies small_config 20000 late_site)) = [19998; 19999]
  /\ fst (fst (attempt 0 small_config 20000 late_site
                        [SourceLog INFO StartingCollection])) = None
  /\ fst (fst (attempt 1 small_config 20000 late_site
                        [SourceLog INFO StartingCollection]))
     = Some ["a"; "b"]%string
  /\ archives (snd (fst (get_proxies small_config 20000 late_site)))
     = [ArchiveResponse 200 (ArchiveList (ProxySeq ["c"; "d"]%string))].
Proof. repeat split; vm_compute; reflexivity. Qed.

(** ** [run] and [main] *)

(** The command line cannot set the thread count or the timeout to zero:
    a zero given there is ignored like an absent option and leaves the
    setting (thread count, respectively timeout) as it was, any other
    value is taken, and the other four settings are never touched. *)
Theorem command_line_cannot_set_zero (config : Config) (args : Args) :
  (thread_num (override_config config args) = 0 -> thread_num config = 0)
  /\ (timeout (override_config config args) = 0 -> timeout config = 0)
  /\ (forall t, arg_threads args = Some t -> t <> 0 ->
        thread_num (override_config config args) = t)
  /\ (forall t, arg_timeout args = Some t -> t <> 0 ->
        timeout (override_config config args) = t)
  /\ (arg_threads args = Some 0 \/ arg_threads args = None ->
        thread_num (override_config config args) = thread_num config)
  /\ (arg_timeout args = Some 0 \/ arg_timeout args = None ->
        timeout (override_config config args) = timeout config)
  /\ round_time (override_config config args) = round_time config
  /\ update_pbar_count (override_config config args) = update_pbar_count config
  /\ max_proxies (override_config config args) = max_proxies config
  /\ min_proxies_threshold (override_config config args)
     = min_proxies_threshold config.
Proof.
  unfold override_config. simpl.
  destruct (arg_threads args) as [t|]; destruct (arg_timeout args) as [t'|];
    try (destruct (Z.eqb_spec t 0)); try (destruct (Z.eqb_spec t' 0));
    repeat split; try reflexivity; try tauto; try lia;
    try (intros t0 [= <-] Ht0; first [reflexivity | lia]);
    try (intros [Hsome|Hnone]; first [discriminate | congruence]);
    try discriminate.
Qed.

Section Main.
Context `{World W} `{ProxySource W}.

(** A target that is not positive, or a video id that does not start
    with "BV", ends [main] with exit status 1 before anything else is
    done: [run] is not called. *)
Theorem main_rejects_bad_arguments (fuel : nat) (sched : Schedule)
    (config : Config) (args : Args) (today : Z) (w : W) :
  arg_target args <= 0 \/ String.prefix "BV" (arg_bvid args) = false ->
  main fuel sched config args today w = ExitStatus 1 None.
Proof.
  intros Hbad. unfold main.
  destruct (arg_target args <=? 0) eqn:Ht; [reflexivity|].
  destruct Hbad as [Hbad|Hbad]; [lia|]. rewrite Hbad. reflexivity.
Qed.

(** A failure of the initial read of the counter does not make the
    process fail: [boost_view_count] logs the error and returns, [run]
    returns, and [main] ends with exit status 0, with no click request
    sent and no final report printed. *)
Theorem failed_initial_read_exits_with_status_zero (fuel : nat)
    (sched : Schedule) (config : Config) (args : Args) (today : Z) (w w1 w2 : W)
    (total_proxies active : list string) (tr : list SourceEvent) (e : Exn) :
  0 < arg_target args ->
  String.prefix "BV" (arg_bvid args) = true ->
  get_proxies (override_config config args) today w
  = (Collected total_proxies, w1, tr) ->
  filter_proxies (override_config config args) total_proxies sched
  = Some (Return active) ->
  fetch_views (arg_bvid args) w1 = (Raise e, w2) ->
  exists r,
    main fuel sched config args today w = ExitStatus 0 (Some (RunReturned r))
    /\ outcome r = Aborted
    /\ clicks (end_trace r) = []
    /\ final_reports (end_trace r) = 0.
Proof.
  intros Ht Hbv Hget Hfilter Hfetch. unfold main.
  assert (E : (arg_target args <=? 0) = false) by lia.
  rewrite E, Hbv. simpl. unfold run. rewrite Hget, Hfilter.
  unfold boost_view_count. rewrite Hfetch. simpl.
  eexists. split; [reflexivity|]. simpl. auto.
Qed.

(** When the proxy source is exhausted or the filter raises, [run] raises
    before [boost_view_count] is called, and [main] ends with exit
    status 1. *)
Theorem failure_before_boost_exits_with_status_one (fuel : nat)
    (sched : Schedule) (config : Config) (args : Args) (today : Z) (w : W) :
  0 < arg_target args ->
  String.prefix "BV" (arg_bvid args) = true ->
  (forall n w1 tr,
     get_proxies (override_config config args) today w = (NotEnough n, w1, tr) ->
     main fuel sched config args today w
     = ExitStatus 1 (Some (RunRaised (SourceExhausted n) None)))
  /\ (forall total_proxies w1 tr e,
        get_proxies (override_config config args) today w
        = (Collected total_proxies, w1, tr) ->
        filter_proxies (override_config config args) total_proxies sched
        = Some (Raise e) ->
        main fuel sched config args today w
        = ExitStatus 1 (Some (RunRaised (Python e) None))).
Proof.
  intros Ht Hbv.
  assert (E : (arg_target args <=? 0) = false) by lia.
  split.
  - intros n w1 tr Hget. unfold main. rewrite E, Hbv. simpl.
    unfold run. rewrite Hget. reflexivity.
  - intros total_proxies w1 tr e Hget Hfilter. unfold main.
    rewrite E, Hbv. simpl. unfold run. rewrite Hget, Hfilter. reflexivity.
Qed.
End Main.

Lemma main_rejects_bad_arguments_witness :
  (arg_target (mkArgs "BV1" 0 None None) <= 0
   \/ String.prefix "BV" (arg_bvid (mkArgs "BV1" 0 None None)) = false)
  /\ main 1 two_alive_schedule small_config (mkArgs "BV1" 0 None None) 20000
          mapping_site
     = ExitStatus 1 None
  /\ main 1 two_alive_schedule small_config (mkArgs "av1" 1000 None None) 20000
          mapping_site
     = ExitStatus 1 None.
Proof.
  assert (H1 : arg_target (mkArgs "BV1" 0 None None) <= 0
               \/ String.prefix "BV" (arg_bvid (mkArgs "BV1" 0 None None)) = false)
    by (left; simpl; lia).
  split; [exact H1|]. split.
  - exact (main_rejects_bad_arguments 1 two_alive_schedule small_config
             (mkArgs "BV1" 0 None None) 20000 mapping_site H1).
  - apply main_rejects_bad_arguments. right. reflexivity.
Defined.

Lemma failed_initial_read_exits_with_status_zero_witness :
  0 < arg_target plain_args
  /\ String.prefix "BV" (arg_bvid plain_args) = true
  /\ fst (fst (get_proxies (override_config small_config plain_args) 20000
                           mapping_site))
     = Collected ["a"; "b"]%string
  /\ filter_proxies (override_config small_config plain_args) ["a"; "b"]%string
                    two_alive_schedule
     = Some (Return ["a"; "b"]%string)
  /\ exists r,
       main 1 two_alive_schedule small_config plain_args 20000 mapping_site
       = ExitStatus 0 (Some (RunReturned r))
       /\ outcome r = Aborted.
Proof.
  assert (H1 : 0 < arg_target plain_args) by (simpl; lia).
  assert (H2 : String.prefix "BV" (arg_bvid plain_args) = true) by reflexivity.
  assert (H3 : get_proxies (override_config small_config plain_args) 20000
                           mapping_site
               = (Collected ["a"; "b"]%string,
                  mkSite [] no_view_script,
                  snd (get_proxies (override_config small_config plain_args)
                                   20000 mapping_site)))
    by (vm_compute; reflexivity).
  assert (H4 : filter_proxies (override_config small_config plain_args)
                              ["a"; "b"]%string two_alive_schedule
               = Some (Return ["a"; "b"]%string)) by (vm_compute; reflexivity).
  assert (H5 : fetch_views (arg_bvid plain_args) (mkSite [] no_view_script)
               = (Raise (RuntimeError FetchFailed),
                  mkSite [] (mkScript [] [PostStatus 200] 10000000 10000000
                                      15000000)))
    by (vm_compute; reflexivity).
  split; [exact H1|]. split; [exact H2|].
  split; [rewrite H3; reflexivity|]. split; [exact H4|].
  destruct (failed_initial_read_exits_with_status_zero 1 two_alive_schedule
              small_config plain_args 20000 mapping_site _ _ _ _ _ _
              H1 H2 H3 H4 H5)
    as (r & Hm & Ho & _).
  exists r. split; [exact Hm|exact Ho].
Defined.

Lemma failure_before_boost_exits_with_status_one_witness :
  0 < arg_target plain_args
  /\ String.prefix "BV" (arg_bvid plain_args) = true
  /\ main 1 two_alive_schedule small_config plain_args 20000 silent_site
     = ExitStatus 1 (Some (RunRaised (SourceExhausted 7) None)).
Proof.
  assert (H1 : 0 < arg_target plain_args) by (simpl; lia).
  assert (H2 : String.prefix "BV" (arg_bvid plain_args) = true) by reflexivity.
  split; [exact H1|]. split; [exact H2|].
  destruct (failure_before_boost_exits_with_status_one 1 two_alive_schedule
              small_config plain_args 20000 silent_site H1 H2) as [Hsrc _].
  apply (Hsrc 7 (snd (fst (get_proxies (override_config small_config plain_args)
                                       20000 silent_site)))
              (snd (get_proxies (override_config small_config plain_args)
                                20000 silent_site))).
  vm_compute. reflexivity.
Defined.

(** ** The filter returns a selection of the candidates *)

Lemma occ_successes (x : string) (log : list (string * ProbeReply)) :
  occ x (probed_proxies (successes log)) <= occ x (probed_proxies log).
Proof.
  unfold successes, probed_proxies.
  induction log as [|[p r] log IH]; simpl; [lia|].
  destruct (probe_ok r); simpl; rewrite ?occ_cons; destruct (string_dec p x);
    lia.
Qed.

Lemma occ_pos_in (x : string) (l : list string) : 0 < occ x l <-> In x l.
Proof.
  unfold occ. rewrite (count_occ_In string_dec). lia.
Qed.

Lemma occ_nonneg (x : string) (l : list string) : 0 <= occ x l.
Proof. unfold occ. lia. Qed.

(** What [filter_proxies] returns is never empty and is a selection of
    the candidates: every proxy of the result is a candidate, it occurs no
    more often than among the candidates, and the result is no longer
    than the candidate list. *)
Theorem filter_result_is_a_selection (cfg : Config)
    (total_proxies active : list string) (sched : Schedule) :
  filter_proxies cfg total_proxies sched = Some (Return active) ->
  active <> []
  /\ (forall proxy, In proxy active -> In proxy total_proxies)
  /\ (forall proxy, occ proxy active <= occ proxy total_proxies)
  /\ len active <= len total_proxies.
Proof.
  unfold filter_proxies. intros Hres.
  destruct (thread_slices total_proxies (thread_num cfg)) as [slices|e] eqn:Hsl;
    [|discriminate].
  destruct (run_schedule sched (start_pool slices)) as [s|] eqn:Hrun;
    [|discriminate].
  destruct (all_joined s) eqn:Hjoin; [|discriminate].
  unfold filter_result in Hres.
  destruct (len (active_proxies s) =? 0) eqn:Hlen; [discriminate|].
  injection Hres as <-.
  assert (Hreach : reachable slices s) by (exists sched; exact Hrun).
  pose proof (reachable_tracks _ _ Hreach) as Htr.
  pose proof (reachable_inv _ _ Hreach) as Hinv.
  pose proof (thread_slices_bound _ _ _ Hsl) as Hbound.
  assert (Hocc : forall x, occ x (active_proxies s) <= occ x (concat slices)).
  { intros x.
    pose proof (track_results _ _ Htr x) as H1.
    pose proof (track_candidates _ _ Htr x) as H2.
    pose proof (occ_successes x (probed s)).
    pose proof (tally_nonneg (fun w => occ x (to_append w)) (workers s)
                  (fun w => occ_nonneg x _)).
    pose proof (tally_nonneg (fun w => occ x (in_hand w)) (workers s)
                  (fun w => occ_nonneg x _)).
    pose proof (tally_nonneg (fun w => occ x (todo w)) (workers s)
                  (fun w => occ_nonneg x _)).
    lia. }
  assert (Hsub : forall x, occ x (concat slices) <= occ x total_proxies).
  { intros x. unfold thread_slices in Hsl.
    destruct (thread_num cfg =? 0) eqn:Hz; [discriminate|].
    injection Hsl as <-.
    destruct (Z.le_gt_cases 1 (thread_num cfg)) as [Hw|Hw].
    - rewrite thread_slices_concat by lia. lia.
    - unfold py_range. replace (Z.to_nat (thread_num cfg)) with 0%nat by lia.
      simpl. apply occ_nonneg. }
  split; [|split; [|split]].
  - intros Hnil. rewrite Hnil in Hlen. discriminate Hlen.
  - intros x Hx. apply occ_pos_in. apply occ_pos_in in Hx.
    specialize (Hocc x). specialize (Hsub x). lia.
  - intros x. specialize (Hocc x). specialize (Hsub x). lia.
  - pose proof (inv_count _ _ Hinv). pose proof (inv_probed _ _ Hinv).
    pose proof (inv_active _ _ Hinv).
    pose proof (tally_nonneg pending (workers s) pending_nonneg).
    pose proof (tally_nonneg probing (workers s) probing_nonneg).
    pose proof (tally_nonneg appending (workers s) appending_nonneg).
    pose proof (successes_le (probed s)). lia.
Qed.

Lemma filter_result_is_a_selection_witness :
  filter_proxies small_config ["a"; "b"]%string two_alive_schedule
  = Some (Return ["a"; "b"]%string)
  /\ ["a"; "b"]%string <> []
  /\ (forall proxy, In proxy ["a"; "b"]%string -> In proxy ["a"; "b"]%string)
  /\ (forall proxy, occ proxy ["a"; "b"]%string <= occ proxy ["a"; "b"]%string)
  /\ len ["a"; "b"]%string <= len ["a"; "b"]%string.
Proof.
  assert (H1 : filter_proxies small_config ["a"; "b"]%string two_alive_schedule
               = Some (Return ["a"; "b"]%string)) by reflexivity.
  split; [exact H1|].
  exact (filter_result_is_a_selection small_config _ _ _ H1).
Defined.

(** ** Updates in a round *)

Section Updates.
Context `{World W}.
Implicit Types (s : LoopState W) (cfg : Config) (bvid proxy : string).

Lemma update_view_count_requests bvid target s :
  view_requests (trace (snd (update_view_count bvid target s)))
  = view_requests (trace s) + 1.
Proof.
  unfold update_view_count. simpl.
  destruct (fetch_views bvid (world s)) as [[[i' v]|e] w']; simpl;
    [destruct (target <=? v)|]; unfold view_requests, len; simpl; lia.
Qed.

Lemma send_click_requests bvid target n i proxy s :
  view_requests (trace (snd (send_click bvid target n i proxy s)))
  = view_requests (trace s).
Proof.
  unfold send_click. destruct (click_data bvid (info s)) as [data|e];
    [|reflexivity].
  destruct (click_api proxy data (world s)) as [[status_code|] w'];
    [destruct (status_code =? 200)|]; reflexivity.
Qed.

Lemma round_loop_requests cfg bvid target n i (proxies : list string) s :
  update_pbar_count cfg <> 0 ->
  fst (round_loop cfg bvid target n i proxies s) = Next ->
  view_requests (trace (snd (round_loop cfg bvid target n i proxies s)))
  = view_requests (trace s)
    + updates_due (update_pbar_count cfg) i (length proxies).
Proof.
  intros Hn. revert i s. induction proxies as [|p l IH]; intros i s; simpl.
  - intros _. lia.
  - unfold round_body.
    assert (E : (update_pbar_count cfg =? 0) = false) by lia. rewrite E.
    destruct (i mod update_pbar_count cfg =? 0).
    + pose proof (update_view_count_requests bvid target s) as Hu.
      destruct (update_view_count bvid target s) as [[|] s1]; simpl in Hu;
        [discriminate|].
      pose proof (send_click_requests bvid target n i p s1) as Hc.
      destruct (send_click bvid target n i p s1) as [[| |e] s2]; simpl in Hc;
        try discriminate.
      intros Hnext. rewrite (IH _ _ Hnext). lia.
    + pose proof (send_click_requests bvid target n i p s) as Hc.
      destruct (send_click bvid target n i p s) as [[| |e] s2]; simpl in Hc;
        try discriminate.
      intros Hnext. rewrite (IH _ _ Hnext). lia.
Qed.

Lemma updates_due_closed (n i : Z) (k : nat) :
  0 < n -> 0 <= i ->
  updates_due n i k = (i + Z.of_nat k + n - 1) / n - (i + n - 1) / n.
Proof.
  intros Hn. revert i. induction k as [|k IH]; intros i Hi.
  - simpl. replace (i + Z.of_nat 0 + n - 1) with (i + n - 1) by lia. lia.
  - simpl updates_due. rewrite IH by lia.
    replace (i + 1 + Z.of_nat k + n - 1) with (i + Z.of_nat (S k) + n - 1) by lia.
    assert (Hstep : (i + 1 + n - 1) / n - (i + n - 1) / n
                    = if i mod n =? 0 then 1 else 0).
    { pose proof (Z.div_mod i n ltac:(lia)) as Hdm.
      pose proof (Z.mod_pos_bound i n Hn) as Hb.
      replace (i + 1 + n - 1) with (1 * n + i) by lia.
      rewrite Z.div_add_l by lia.
      destruct (i mod n =? 0) eqn:Hz.
      - assert (Hq : (i + n - 1) / n = i / n).
        { symmetry. apply (Z.div_unique _ _ _ (n - 1)); lia. }
        lia.
      - assert (Hq : (i + n - 1) / n = i / n + 1).
        { symmetry. apply (Z.div_unique _ _ _ (i mod n - 1)); lia. }
        lia. }
    lia.
Qed.

(** A round that runs through all [k] proxies asks the view API once for
    every [update_pbar_count] proxies, starting with the first: that is
    [k / N] rounded up, for a positive interval [N]. *)
Theorem full_round_updates cfg bvid target n (proxies : list string) s :
  0 < update_pbar_count cfg ->
  fst (round_loop cfg bvid target n 0 proxies s) = Next ->
  view_requests (trace (snd (round_loop cfg bvid target n 0 proxies s)))
  = view_requests (trace s)
    + (len proxies + update_pbar_count cfg - 1) / update_pbar_count cfg.
Proof.
  intros Hn Hnext.
  rewrite round_loop_requests by (try exact Hnext; lia).
  rewrite updates_due_closed by lia.
  replace (0 + update_pbar_count cfg - 1) with (update_pbar_count cfg - 1) by lia.
  rewrite (Z.div_small (update_pbar_count cfg - 1)) by lia.
  unfold len. rewrite Z.sub_0_r, Z.add_0_l. reflexivity.
Qed.

(** An update that succeeds below the target replaces the snapshot at
    once: the click request of the same proxy already carries the
    identifiers just fetched, and the counter just read is the one shown
    from then on. *)
Theorem fresh_snapshot_is_used_at_once cfg bvid target n i proxy
    (rest : list string) s i' v w' data :
  update_pbar_count cfg <> 0 ->
  i mod update_pbar_count cfg = 0 ->
  fetch_views bvid (world s) = (Return (i', v), w') ->
  v < target ->
  click_data bvid i' = Return data ->
  exists s2,
    round_loop cfg bvid target n i (proxy :: rest) s
    = round_loop cfg bvid target n (i + 1) rest s2
    /\ clicks (trace s2) = Click proxy data :: clicks (trace s)
    /\ info s2 = i'
    /\ current_views s2 = v.
Proof.
  intros Hn Hi Hf Hv Hdata. simpl.
  rewrite round_body_poll by assumption.
  rewrite (update_view_count_below _ _ _ _ _ _ Hf Hv).
  match goal with
  | |- context [send_click bvid target n i proxy ?s1] =>
      destruct (send_click_next bvid target n i proxy s1 data Hdata)
        as (s2 & Hs2 & Hcl & Hcv & Hin)
  end.
  rewrite Hs2. exists s2. simpl in *. auto.
Qed.
End Updates.

Lemma full_round_updates_witness :
  0 < update_pbar_count scenario_config
  /\ fst (round_loop scenario_config "BV1" 2000 3 0 scenario_proxies
                     scenario_state) = Next
  /\ view_requests
       (trace (snd (round_loop scenario_config "BV1" 2000 3 0 scenario_proxies
                               scenario_state)))
     = 0 + (3 + 2 - 1) / 2.
Proof.
  assert (H1 : 0 < update_pbar_count scenario_config) by (simpl; lia).
  assert (H2 : fst (round_loop scenario_config "BV1" 2000 3 0 scenario_proxies
                               scenario_state) = Next)
    by (vm_compute; reflexivity).
  split; [exact H1|]. split; [exact H2|].
  exact (full_round_updates scenario_config "BV1"%string 2000 3 scenario_proxies
           scenario_state H1 H2).
Defined.

Lemma fresh_snapshot_is_used_at_once_witness :
  update_pbar_count scenario_config <> 0
  /\ 0 mod update_pbar_count scenario_config = 0
  /\ exists s2,
       round_loop scenario_config "BV1" 1000 3 0 ("p0"%string :: ["p1"; "p2"]%string)
                  scenario_state
       = round_loop scenario_config "BV1" 1000 3 (0 + 1) ["p1"; "p2"]%string s2
       /\ info s2 = info_with 960
       /\ current_views s2 = 960.
Proof.
  assert (H1 : update_pbar_count scenario_config <> 0) by (simpl; lia).
  assert (H2 : 0 mod update_pbar_count scenario_config = 0) by reflexivity.
  assert (H3 : fetch_views "BV1" (world scenario_state)
               = (Return (info_with 960, 960),
                  mkScript [ok_reply 1005] [PostStatus 200; PostRequestException]
                           10000000 10000000 15000000))
    by (vm_compute; reflexivity).
  assert (H4 : click_data "BV1" (info_with 960)
               = Return (mkClick 123456 789012 "BV1" 345678 1)) by reflexivity.
  split; [exact H1|]. split; [exact H2|].
  destruct (fresh_snapshot_is_used_at_once scenario_config "BV1"%string 1000 3 0
              "p0"%string ["p1"; "p2"]%string scenario_state _ _ _ _
              H1 H2 H3 ltac:(lia) H4)
    as (s2 & Hr & _ & Hi & Hv).
  exists s2. split; [exact Hr|]. split; [exact Hi|exact Hv].
Defined.
